(** * The watch-later store of Movie-Hub, and its save controls

    The repository holds two front ends that each keep a watch-later list
    in the browser's [localStorage]:

    - the Aurora pages ([explore.js], [movie.js], [watch-later.js] and the
      home and TV pages), under the key ['watchLaterItems'], records
      matched on [id] and [media_type];
    - the StreamVerse pages ([js/main.js], used by [js/movie.js] and
      [js/tv.js]), under the key ['streamVerseWatchLater'], records
      matched on [id].

    Each source file is embedded as a module of its own name; the
    functions keep their JavaScript names. *)

From Stdlib Require Import ZArith QArith String Ascii Lia.
From stdpp Require Import base option list gmap strings pretty.

Local Open Scope string_scope.
Local Open Scope list_scope.
Local Open Scope Z_scope.

(** ** JavaScript values *)

(** The values [JSON.parse] produces.  A number is kept as the rational
    it denotes; an object as its properties in order. *)
#[warnings="-register-all"]
Inductive JsVal : Type :=
| JNull
| JBool (b : bool)
| JNum (q : Q)
| JStr (s : string)
| JArr (elems : list JsVal)
| JObj (props : list (string * JsVal)).

(** What an expression of the program evaluates to: [undefined], the
    numbers [NaN], [Infinity] and [-Infinity], or a value of the JSON
    universe.  A record handed to a toggle is given as [JSON.stringify]
    keeps it, a property that is [undefined] left out. *)
Inductive Value : Type :=
| VUndefined
| VNaN
| VInfinity (negative : bool)
| VJson (v : JsVal).

Coercion VJson : JsVal >-> Value.

Inductive Exn : Type := SyntaxError | TypeError.

(** The outcome of evaluating an expression or running a statement. *)
Inductive Completion (A : Type) : Type :=
| Normal (a : A)
| Throw (e : Exn).
Arguments Normal {A} a.
Arguments Throw {A} e.

(** Exceptions propagate through sequencing. *)
#[global] Instance completion_ret : MRet Completion := fun _ a => Normal a.
#[global] Instance completion_bind : MBind Completion := fun _ _ k c =>
  match c with
  | Normal a => k a
  | Throw e => Throw e
  end.

(** A piece of program run against a mutable state [S]: it completes
    normally or throws, and leaves the state as it was at that point. *)
Definition JS (S A : Type) : Type := S -> Completion A * S.

#[global] Instance js_ret {S} : MRet (JS S) := fun _ a s => (Normal a, s).
#[global] Instance js_bind {S} : MBind (JS S) := fun _ _ k m s =>
  match m s with
  | (Normal a, s') => k a s'
  | (Throw e, s') => (Throw e, s')
  end.

(** An expression that touches no state. *)
Definition pure {S A} (c : Completion A) : JS S A := fun s => (c, s).

(** [try { body } catch { handler }]. *)
Definition try_catch {S A} (body handler : JS S A) : JS S A := fun s =>
  match body s with
  | (Normal a, s') => (Normal a, s')
  | (Throw _, s') => handler s'
  end.

(** [ToBoolean]: the test of [if], [?:], [||] and [&&]. *)
Definition truthy (v : Value) : bool :=
  match v with
  | VUndefined | VNaN => false
  | VInfinity _ => true
  | VJson JNull => false
  | VJson (JBool b) => b
  | VJson (JNum q) => negb (Qeq_bool q 0)
  | VJson (JStr s) => negb (String.eqb s "")
  | VJson (JArr _) | VJson (JObj _) => true
  end.

(** [a === b].  Objects and arrays are equal only to themselves; every
    comparison of the program has a freshly parsed record on one side, so
    two of them never are. *)
Definition strict_eq (a b : Value) : bool :=
  match a, b with
  | VUndefined, VUndefined => true
  | VInfinity x, VInfinity y => Bool.eqb x y
  | VJson JNull, VJson JNull => true
  | VJson (JBool x), VJson (JBool y) => Bool.eqb x y
  | VJson (JNum x), VJson (JNum y) => Qeq_bool x y
  | VJson (JStr x), VJson (JStr y) => String.eqb x y
  | _, _ => false
  end.

Fixpoint assoc (k : string) (props : list (string * JsVal)) : Value :=
  match props with
  | [] => VUndefined
  | (k', v) :: rest => if String.eqb k' k then VJson v else assoc k rest
  end.

(** [v.k], for a property name [k] that no prototype defines (the record
    fields [id], [media_type], [vote_average]).  Reading a property of
    [null] or [undefined] is a TypeError; a primitive or an array has no
    such property. *)
Definition get (v : Value) (k : string) : Completion Value :=
  match v with
  | VUndefined | VJson JNull => Throw TypeError
  | VJson (JObj props) => Normal (assoc k props)
  | _ => Normal VUndefined
  end.

Arguments get : simpl never.

(** The receiver of an array method: anything but an array has no
    [findIndex], [some], [push] or [splice] to call. *)
Definition as_array (v : JsVal) : Completion (list JsVal) :=
  match v with
  | JArr l => Normal l
  | _ => Throw TypeError
  end.

(** [Array.prototype.findIndex]: the index of the first element the
    callback accepts, [-1] when there is none. *)
Fixpoint findIndex (p : JsVal -> Completion bool) (l : list JsVal) : Completion Z :=
  match l with
  | [] => Normal (-1)
  | x :: rest =>
      b ← p x;
      if b : bool then Normal 0
      else i ← findIndex p rest;
           Normal (if i >? -1 then i + 1 else -1)
  end.

(** [Array.prototype.some]. *)
Fixpoint some (p : JsVal -> Completion bool) (l : list JsVal) : Completion bool :=
  match l with
  | [] => Normal false
  | x :: rest =>
      b ← p x;
      if b : bool then Normal true else some p rest
  end.

(** [Array.prototype.filter]. *)
Fixpoint array_filter (p : JsVal -> Completion bool) (l : list JsVal)
    : Completion (list JsVal) :=
  match l with
  | [] => Normal []
  | x :: rest =>
      b ← p x;
      r ← array_filter p rest;
      Normal (if b : bool then x :: r else r)
  end.

(** [l.splice(start, 1)]: a negative [start] counts from the end. *)
Definition splice1 (start : Z) (l : list JsVal) : list JsVal :=
  let len := Z.of_nat (length l) in
  let from := if start <? 0 then Z.max (len + start) 0 else Z.min start len in
  take (Z.to_nat from) l ++ drop (S (Z.to_nat from)) l.

Definition push (l : list JsVal) (x : JsVal) : list JsVal := l ++ [x].

(** ** Numbers *)

Section NumberFormatting.

(** [Number::toString] on a number of magnitude [1e21] and more, the
    one case where [toFixed] prints the shortest digits that identify
    the double; it is left to the platform. *)
Variable Number_toString : Q -> string.

(** [q.toFixed(1)]: the closest number of tenths, the larger one on a
    tie, printed with one digit after the point. *)
Definition toFixed1 (q : Q) : string :=
  let s := if Qnum q <? 0 then "-" else "" in
  let num := Z.abs (Qnum q) in
  let den := Z.pos (Qden q) in
  if 10 ^ 21 * den <=? num then (s ++ Number_toString (Qmake num (Qden q)))%string
  else
    let n := (20 * num + den) / (2 * den) in
    (s ++ pretty (n / 10) ++ "." ++ pretty (n mod 10))%string.

(** [v.toFixed(1)]: only a number has the method. *)
Definition toFixed (v : Value) : Completion string :=
  match v with
  | VJson (JNum q) => Normal (toFixed1 q)
  | VNaN => Normal "NaN"
  | VInfinity negative => Normal (if negative then "-Infinity" else "Infinity")
  | _ => Throw TypeError
  end.

End NumberFormatting.

(** [WhiteSpace] and [LineTerminator] of ECMAScript, by code point:
    tab, line feed, vertical tab, form feed, carriage return, space,
    no-break space, the other space separators, the line and paragraph
    separators and the byte order mark. *)
Definition is_white_space (code_point : N) : bool :=
  ((9 <=? code_point) && (code_point <=? 13)
   || (code_point =? 32) || (code_point =? 160) || (code_point =? 5760)
   || (8192 <=? code_point) && (code_point <=? 8202)
   || (code_point =? 8232) || (code_point =? 8233) || (code_point =? 8239)
   || (code_point =? 8287) || (code_point =? 12288) || (code_point =? 65279))%N.

(** A string is held as its UTF-8 bytes: the code point of a sequence
    of two and of three bytes. *)
Definition code_point2 (b1 b2 : ascii) : N :=
  ((N_of_ascii b1 - 192) * 64 + (N_of_ascii b2 - 128))%N.

Definition code_point3 (b1 b2 b3 : ascii) : N :=
  ((N_of_ascii b1 - 224) * 4096 + (N_of_ascii b2 - 128) * 64 + (N_of_ascii b3 - 128))%N.

(** A byte that continues a sequence. *)
Definition continuation (b : ascii) : bool :=
  ((128 <=? N_of_ascii b) && (N_of_ascii b <? 192))%N.

(** [TrimString(s, start)]: the string without the white space it
    starts with.  No white space takes four bytes, and a sequence that
    is not the shortest one of its code point is no white space. *)
Fixpoint trim_start (s : string) : string :=
  match s with
  | String b1 rest1 =>
      if (N_of_ascii b1 <? 128)%N then
        if is_white_space (N_of_ascii b1) then trim_start rest1 else s
      else
        match rest1 with
        | String b2 rest2 =>
            if (N_of_ascii b1 <? 224)%N then
              if continuation b2 && (128 <=? code_point2 b1 b2)%N
                 && is_white_space (code_point2 b1 b2)
              then trim_start rest2 else s
            else
              match rest2 with
              | String b3 rest3 =>
                  if (N_of_ascii b1 <? 240)%N && continuation b2 && continuation b3
                     && (2048 <=? code_point3 b1 b2 b3)%N
                     && is_white_space (code_point3 b1 b2 b3)
                  then trim_start rest3 else s
              | EmptyString => s
              end
        | EmptyString => s
        end
  | EmptyString => s
  end.

Definition digit_value (radix : Z) (c : ascii) : option Z :=
  let n := Z.of_N (N_of_ascii c) in
  let d := if (48 <=? n) && (n <=? 57) then n - 48
           else if (97 <=? n) && (n <=? 122) then n - 87
           else if (65 <=? n) && (n <=? 90) then n - 55
           else 36 in
  if d <? radix then Some d else None.

(** The value of the longest prefix of digits, [None] when it is empty. *)
Fixpoint leading_digits (radix : Z) (s : string) (acc : option Z) : option Z :=
  match s with
  | String c rest =>
      match digit_value radix c with
      | Some d => leading_digits radix rest (Some (default 0 acc * radix + d))
      | None => acc
      end
  | EmptyString => acc
  end.

(** The Number value of the integer [n], not negative: the double
    nearest to it, the one with the even significand on a tie; [None]
    when that is beyond the largest double, and the Number is
    [Infinity]. *)
Definition nearest_double (n : Z) : option Z :=
  if n <? 2 ^ 53 then Some n
  else
    let shift := Z.log2 n - 52 in
    let significand := Z.shiftr n shift in
    let rest := n - Z.shiftl significand shift in
    let half := 2 ^ (shift - 1) in
    let significand' :=
      if (half <? rest) || (rest =? half) && Z.odd significand
      then significand + 1 else significand in
    let v := Z.shiftl significand' shift in
    if v <? 2 ^ 1024 then Some v else None.

(** [parseInt(s)] without a radix: white space, a sign, an optional
    [0x], then digits; [NaN] when no digit follows.  The digits are
    read exactly and their value rounded to a double, as the engines
    do; the standard lets an implementation read the decimal digits
    after the twentieth as zeros. *)
Definition parseInt_string (s : string) : Value :=
  let s1 := trim_start s in
  let '(neg, s2) :=
    match s1 with
    | String "-" rest => (true, rest)
    | String "+" rest => (false, rest)
    | _ => (false, s1)
    end in
  let '(radix, s3) :=
    match s2 with
    | String "0" (String "x" rest) | String "0" (String "X" rest) => (16, rest)
    | _ => (10, s2)
    end in
  match leading_digits radix s3 None with
  | Some n =>
      match nearest_double n with
      | Some d => VJson (JNum (inject_Z (if neg : bool then - d else d)))
      | None => VInfinity neg
      end
  | None => VNaN
  end.

(** [parseInt(x)] for [x] a string or [undefined]. *)
Definition parseInt (x : option string) : Value :=
  match x with
  | Some s => parseInt_string s
  | None => VNaN
  end.

(** ** localStorage *)

(** [localStorage] holds strings.  The program does two things with a
    stored string: it tests it for emptiness and hands it to
    [JSON.parse].  A stored string is kept as what [JSON.parse] makes of
    it: [Encoded v] is a text that parses to [v], such as the one
    [JSON.stringify v] writes; [Malformed s] is a text [s] that
    [JSON.parse] rejects, the empty string among them. *)
Inductive Entry : Type :=
| Encoded (v : JsVal)
| Malformed (s : string).

Abbreviation Storage := (gmap string Entry).

Definition getItem (key : string) : JS Storage (option Entry) :=
  fun ls => (Normal (ls !! key), ls).

Definition setItem (key : string) (e : Entry) : JS Storage unit :=
  fun ls => (Normal tt, <[key := e]> ls).

Definition JSON_parse (e : Entry) : Completion JsVal :=
  match e with
  | Encoded v => Normal v
  | Malformed _ => Throw SyntaxError
  end.

Definition JSON_stringify (v : JsVal) : Entry := Encoded v.

(** Truthiness of what [getItem] returns: [null] and [''] are falsy. *)
Definition nonempty (o : option Entry) : bool :=
  match o with
  | None => false
  | Some (Encoded _) => true
  | Some (Malformed s) => negb (String.eqb s "")
  end.

(** [stored ? yes(stored) : no] *)
Definition if_stored {A} (stored : option Entry) (yes : Entry -> A) (no : A) : A :=
  match stored with
  | Some e => if nonempty stored then yes e else no
  | None => no
  end.

(** [stored || '[]'] *)
Definition or_empty_array (stored : option Entry) : Entry :=
  if_stored stored id (Encoded (JArr [])).

(** [stored || '{}'] *)
Definition or_empty_object (stored : option Entry) : Entry :=
  if_stored stored id (Encoded (JObj [])).

(** A property of an object literal as [JSON.stringify] keeps it: left
    out when [undefined], [null] when [NaN]. *)
Definition kept_property (k : string) (v : Value) : list (string * JsVal) :=
  match v with
  | VUndefined => []
  | VNaN | VInfinity _ => [(k, JNull)]
  | VJson j => [(k, j)]
  end.

(** The callback [(i) => i.id === item.id && i.media_type === item.media_type]
    of the Aurora pages. *)
Definition same_id_and_media_type (item : Value) (i : JsVal) : Completion bool :=
  a ← get i "id";
  b ← get item "id";
  if strict_eq a b then
    c ← get i "media_type";
    d ← get item "media_type";
    Normal (strict_eq c d)
  else Normal false.

(** ** explore.js *)
Module Explore.

Definition WATCH_LATER_KEY : string := "watchLaterItems".

Definition getWatchLater : JS Storage JsVal :=
  try_catch
    (stored ← getItem WATCH_LATER_KEY;
     pure (JSON_parse (or_empty_array stored)))
    (mret (JArr [])).

Definition toggleWatchLater (item : JsVal) : JS Storage bool :=
  list ← getWatchLater;
  l ← pure (as_array list);
  idx ← pure (findIndex (same_id_and_media_type item) l);
  let l' := if idx >? -1 then splice1 idx l else push l item in
  _ ← setItem WATCH_LATER_KEY (JSON_stringify (JArr l'));
  mret (idx =? -1).

(** [createCard]: the bookmark's pre-check
    [getWatchLater().some((i) => i.id === item.id && i.media_type === item.media_type)]. *)
Definition saved (item : Value) : JS Storage bool :=
  list ← getWatchLater;
  l ← pure (as_array list);
  pure (some (same_id_and_media_type item) l).

End Explore.

(** ** movie.js *)
Module Movie.

Definition WATCH_LATER_KEY : string := "watchLaterItems".

Definition getWatchLater : JS Storage JsVal :=
  try_catch
    (stored ← getItem WATCH_LATER_KEY;
     if_stored stored (fun e => pure (JSON_parse e)) (mret (JArr [])))
    (mret (JArr [])).

Definition toggleWatchLater (item : JsVal) : JS Storage bool :=
  list ← getWatchLater;
  l ← pure (as_array list);
  idx ← pure (findIndex (same_id_and_media_type item) l);
  let l' := if idx >? -1 then splice1 idx l else push l item in
  _ ← setItem WATCH_LATER_KEY (JSON_stringify (JArr l'));
  mret (idx =? -1).

(** [buildHeader]: the pre-check
    [getWatchLater().some((i) => i.id === movie.id && i.media_type === 'movie')]. *)
Definition saved (movie : Value) : JS Storage bool :=
  list ← getWatchLater;
  l ← pure (as_array list);
  pure (some (fun i =>
                a ← get i "id";
                b ← get movie "id";
                if strict_eq a b then
                  c ← get i "media_type";
                  Normal (strict_eq c (JStr "movie"))
                else Normal false) l).

End Movie.

(** ** The Aurora index page (second file of [unnamed/part_000]) *)
Module Index.

Definition WATCH_LATER_KEY : string := "watchLaterItems".

Definition getWatchLater : JS Storage JsVal :=
  try_catch
    (stored ← getItem WATCH_LATER_KEY;
     if_stored stored (fun e => pure (JSON_parse e)) (mret (JArr [])))
    (mret (JArr [])).

Definition toggleWatchLater (item : JsVal) : JS Storage bool :=
  list ← getWatchLater;
  l ← pure (as_array list);
  existingIndex ← pure (findIndex (same_id_and_media_type item) l);
  let l' := if existingIndex >? -1 then splice1 existingIndex l else push l item in
  _ ← setItem WATCH_LATER_KEY (JSON_stringify (JArr l'));
  mret (existingIndex =? -1).

(** [createMediaCard]: the kind a card goes by,
    [item.media_type || (item.title ? 'movie' : 'tv')]. *)
Definition media_type_or_guess (item : Value) : Completion Value :=
  media_type ← get item "media_type";
  if truthy media_type then Normal media_type
  else
    title ← get item "title";
    Normal (VJson (JStr (if truthy title then "movie" else "tv"))).

(** [createMediaCard]: the bookmark's pre-check,
    [getWatchLater().some((i) => i.id === item.id &&
       i.media_type === (item.media_type || (item.title ? 'movie' : 'tv')))]. *)
Definition saved (item : Value) : JS Storage bool :=
  list ← getWatchLater;
  l ← pure (as_array list);
  pure (some (fun i =>
                a ← get i "id";
                b ← get item "id";
                if strict_eq a b then
                  c ← get i "media_type";
                  d ← media_type_or_guess item;
                  Normal (strict_eq c d)
                else Normal false) l).

(** [createMediaCard]: the record the click handler of the bookmark
    builds from the item of the card, as [toggleWatchLater] reads and
    stores it; the Add button of [buildHeroCarousel] builds the same
    record from the item of its slide. *)
Definition bookmark_item (item : Value) : Completion JsVal :=
  id ← get item "id";
  media_type ← media_type_or_guess item;
  title ← get item "title";
  title ← (if truthy title then Normal title else get item "name");
  poster_path ← get item "poster_path";
  backdrop_path ← get item "backdrop_path";
  overview ← get item "overview";
  vote_average ← get item "vote_average";
  Normal (JObj (kept_property "id" id
                ++ kept_property "media_type" media_type
                ++ kept_property "title" title
                ++ kept_property "poster_path" poster_path
                ++ kept_property "backdrop_path" backdrop_path
                ++ kept_property "overview" overview
                ++ kept_property "vote_average" vote_average)).

(** [createMediaCard]: a click on the bookmark, up to the colour it
    sets: whether the item was added. *)
Definition bookmark_click (item : Value) : JS Storage bool :=
  record ← pure (bookmark_item item);
  toggleWatchLater record.

(** [createMediaCard]: the text of the type badge,
    [item.media_type === 'movie' || item.title ? 'Movie' : 'TV']. *)
Definition type_textContent (item : Value) : Completion string :=
  media_type ← get item "media_type";
  if strict_eq media_type (VJson (JStr "movie")) then Normal "Movie"
  else
    title ← get item "title";
    Normal (if truthy title then "Movie" else "TV").

(** [createMediaCard]: the page a click on the card opens. *)
Definition card_click_page (item : Value) : Completion string :=
  typeVal ← media_type_or_guess item;
  Normal (if strict_eq typeVal (VJson (JStr "movie")) then "movie.html" else "tv.html").

End Index.

(** ** The Aurora TV page (third file of [unnamed/part_000]) *)
Module Tv.

Definition WATCH_LATER_KEY : string := "watchLaterItems".

Definition getWatchLater : JS Storage JsVal :=
  try_catch
    (stored ← getItem WATCH_LATER_KEY;
     if_stored stored (fun e => pure (JSON_parse e)) (mret (JArr [])))
    (mret (JArr [])).

Definition toggleWatchLater (item : JsVal) : JS Storage bool :=
  list ← getWatchLater;
  l ← pure (as_array list);
  idx ← pure (findIndex (same_id_and_media_type item) l);
  let l' := if idx >? -1 then splice1 idx l else push l item in
  _ ← setItem WATCH_LATER_KEY (JSON_stringify (JArr l'));
  mret (idx =? -1).

(** [buildHeader]: the pre-check
    [getWatchLater().some((i) => i.id === show.id && i.media_type === 'tv')]. *)
Definition saved (show : Value) : JS Storage bool :=
  list ← getWatchLater;
  l ← pure (as_array list);
  pure (some (fun i =>
                a ← get i "id";
                b ← get show "id";
                if strict_eq a b then
                  c ← get i "media_type";
                  Normal (strict_eq c (JStr "tv"))
                else Normal false) l).

(** The one other use of [localStorage] in the repository: the episode
    last opened, under [`lastSelectedEpisode_${showId}_${seasonNumber}`]. *)
Definition getLastWatchedKey (showId seasonNumber : string) : string :=
  ("lastSelectedEpisode_" ++ showId ++ "_" ++ seasonNumber)%string.

(** The click handler of an episode card, up to [openOverlay]. *)
Definition episode_click (showId seasonNumber : string) (last : JsVal)
    : JS Storage unit :=
  setItem (getLastWatchedKey showId seasonNumber) (JSON_stringify last).

(** The click handler of the Watch button, up to [openOverlay]: the
    episode of season 1 it opens. *)
Definition watchBtn_click (showId : string) : JS Storage Value :=
  stored ← getItem (getLastWatchedKey showId "1");
  last ← pure (JSON_parse (or_empty_object stored));
  episode ← pure (get (VJson last) "episode");
  mret (if truthy episode then episode else VJson (JNum 1)).

(** [loadSeason]: whether the card of the episode [episode_number] is
    outlined as the last watched. *)
Definition last_watched (showId seasonNumber : string) (episode_number : Value)
    : JS Storage bool :=
  stored ← getItem (getLastWatchedKey showId seasonNumber);
  last ← pure (JSON_parse (or_empty_object stored));
  episode ← pure (get (VJson last) "episode");
  mret (strict_eq episode episode_number).

End Tv.

(** ** watch-later.js *)
Module WatchLater.

Definition WATCH_LATER_KEY : string := "watchLaterItems".

Definition getWatchLater : JS Storage JsVal :=
  try_catch
    (stored ← getItem WATCH_LATER_KEY;
     pure (JSON_parse (or_empty_array stored)))
    (mret (JArr [])).

Definition saveWatchLater (list : JsVal) : JS Storage unit :=
  setItem WATCH_LATER_KEY (JSON_stringify list).

(** [createCard]: the click handler of the remove button of [item]'s
    card, up to its last call: [renderList] redraws the page from
    [getWatchLater()] and leaves [localStorage] alone. *)
Definition removeBtn_click (item : Value) : JS Storage unit :=
  list ← getWatchLater;
  l ← pure (as_array list);
  idx ← pure (findIndex (same_id_and_media_type item) l);
  if idx >? -1 then saveWatchLater (JArr (splice1 idx l))
  else mret tt.

Section Rating.
Variable Number_toString : Q -> string.

(** [createCard]: the text of the rating badge,
    [item.vote_average ? item.vote_average.toFixed(1) : '–']. *)
Definition rating_textContent (item : Value) : Completion string :=
  vote_average ← get item "vote_average";
  if truthy vote_average then toFixed Number_toString vote_average
  else Normal "–".
End Rating.

(** *** The page *)

(** A card of the list, as far as it is kept: the item it was made of
    and the texts of its type and rating badges. *)
Record Card : Type := {
  card_item : JsVal;
  card_type : string;
  card_rating : string;
}.

(** The content of the element [itemsList]: nothing, the paragraph
    that says the list is empty, or the grid of cards. *)
Inductive ItemsList : Type :=
| Blank
| EmptyMessage
| Grid (cards : list Card).

(** The state the page script runs against; the elements [subtext] and
    [itemsList] are part of the page. *)
Record Page : Type := {
  localStorage : Storage;
  subtext : string;
  itemsList : ItemsList;
}.

Definition with_storage {A} (m : JS Storage A) : JS Page A := fun pg =>
  let '(r, ls) := m (localStorage pg) in
  (r, {| localStorage := ls; subtext := subtext pg; itemsList := itemsList pg |}).

Definition set_subtext (s : string) : JS Page unit := fun pg =>
  (Normal tt, {| localStorage := localStorage pg; subtext := s; itemsList := itemsList pg |}).

Definition set_itemsList (c : ItemsList) : JS Page unit := fun pg =>
  (Normal tt, {| localStorage := localStorage pg; subtext := subtext pg; itemsList := c |}).

Section Render.

Variable Number_toString : Q -> string.

(** [`${v}`], and the length of a string in UTF-16 code units. *)
Variable ToString : Value -> string.
Variable String_length : string -> nat.

(** [v.length] *)
Definition length_of (v : JsVal) : Completion Value :=
  match v with
  | JNull => Throw TypeError
  | JArr l => Normal (VJson (JNum (inject_Z (Z.of_nat (length l)))))
  | JStr s => Normal (VJson (JNum (inject_Z (Z.of_nat (String_length s)))))
  | JObj props => Normal (assoc "length" props)
  | _ => Normal VUndefined
  end.

Definition createCard (item : JsVal) : Completion Card :=
  _ ← get (VJson item) "poster_path";
  media_type ← get (VJson item) "media_type";
  rating ← rating_textContent Number_toString (VJson item);
  Normal {| card_item := item;
            card_type := if strict_eq media_type (VJson (JStr "movie")) then "Movie" else "TV";
            card_rating := rating |}.

(** [filtered.forEach((item) => grid.appendChild(createCard(item)))] *)
Fixpoint create_cards (filtered : list JsVal) : Completion (list Card) :=
  match filtered with
  | [] => Normal []
  | item :: rest =>
      card ← createCard item;
      cards ← create_cards rest;
      Normal (card :: cards)
  end.

Definition renderList (filterType : Value) : JS Page unit :=
  list ← with_storage getWatchLater;
  filtered ← pure (if strict_eq filterType (VJson (JStr "all")) then Normal list
                   else
                     l ← as_array list;
                     r ← array_filter
                           (fun i => media_type ← get (VJson i) "media_type";
                                     Normal (strict_eq media_type filterType)) l;
                     Normal (JArr r));
  n ← pure (length_of list);
  _ ← set_subtext (ToString n ++ " item"
                   ++ (if negb (strict_eq n (VJson (JNum 1))) then "s" else "")
                   ++ " saved")%string;
  _ ← set_itemsList Blank;
  m ← pure (length_of filtered);
  if strict_eq m (VJson (JNum 0)) then set_itemsList EmptyMessage
  else
    l ← pure (as_array filtered);
    cards ← pure (create_cards l);
    set_itemsList (Grid cards).

End Render.

End WatchLater.

(** ** js/main.js *)
Module Main.

Definition WATCH_LATER_KEY : string := "streamVerseWatchLater".

Definition getWatchLaterList : JS Storage JsVal :=
  list ← getItem WATCH_LATER_KEY;
  if_stored list (fun e => pure (JSON_parse e)) (mret (JArr [])).

Definition saveWatchLaterList (list : JsVal) : JS Storage unit :=
  setItem WATCH_LATER_KEY (JSON_stringify list).

(** The callback [item => item.id === id]. *)
Definition has_id (id : Value) (item : JsVal) : Completion bool :=
  a ← get item "id";
  Normal (strict_eq a id).

Definition checkWatchLaterStatus (id : Value) : JS Storage bool :=
  list ← getWatchLaterList;
  l ← pure (as_array list);
  pure (some (has_id id) l).

(** There is no [return]: a call evaluates to [undefined]. *)
Definition toggleWatchLater (id : Value) (itemData : JsVal) : JS Storage Value :=
  list ← getWatchLaterList;
  l ← pure (as_array list);
  itemIndex ← pure (findIndex (has_id id) l);
  let l' := if itemIndex >? -1 then splice1 itemIndex l else push l itemData in
  _ ← saveWatchLaterList (JArr l');
  mret VUndefined.

(** *** The page *)

(** A [<span class="material-icons-outlined">] of the page: its text
    and the font set on it.  The spans hold text and no element. *)
Record Icon : Type := {
  textContent : string;
  fontFamily : string;
}.

(** An element of the page, with what the save controls read and
    write: its classes, its [data-id] attribute, its [aria-label], and
    what [querySelector('.material-icons-outlined')] finds on it, the
    span that is its first descendant of that class, given by its
    position among the spans of the page.  A control and the elements
    around it, the card it sits in among them, find the same span. *)
Record Element : Type := {
  classList : list string;
  dataset_id : option string;
  icon : option nat;
  ariaLabel : option string;
}.

(** The state the scripts run against.  An element is referred to by
    its position in the document, a span by its position among the
    spans. *)
Record Page : Type := {
  localStorage : Storage;
  spans : list Icon;
  document : list Element;
}.

Definition with_storage {A} (m : JS Storage A) : JS Page A := fun pg =>
  let '(r, ls) := m (localStorage pg) in
  (r, {| localStorage := ls; spans := spans pg; document := document pg |}).

(** Read from, or assign to, the element [el]; a reference to no
    element is [null]. *)
Definition read {A} (el : nat) (f : Element -> Completion A) : JS Page A := fun pg =>
  match document pg !! el with
  | Some e => (f e, pg)
  | None => (Throw TypeError, pg)
  end.

Definition assign (el : nat) (f : Element -> Completion Element) : JS Page unit := fun pg =>
  match document pg !! el with
  | Some e =>
      match f e with
      | Normal e' => (Normal tt, {| localStorage := localStorage pg; spans := spans pg;
                                    document := <[el := e']> (document pg) |})
      | Throw x => (Throw x, pg)
      end
  | None => (Throw TypeError, pg)
  end.

(** Assignments to the span [button.querySelector('.material-icons-outlined')],
    a TypeError when it is [null]; a position that is no span of the
    page is no span. *)
Definition on_icon (button : nat) (f : Icon -> Icon) : JS Page unit := fun pg =>
  match document pg !! button with
  | Some e =>
      match icon e with
      | Some k =>
          match spans pg !! k with
          | Some ic => (Normal tt, {| localStorage := localStorage pg;
                                      spans := <[k := f ic]> (spans pg);
                                      document := document pg |})
          | None => (Throw TypeError, pg)
          end
      | None => (Throw TypeError, pg)
      end
  | None => (Throw TypeError, pg)
  end.

Definition icon_set_textContent (button : nat) (s : string) : JS Page unit :=
  on_icon button (fun ic => {| textContent := s; fontFamily := fontFamily ic |}).

Definition icon_set_fontFamily (button : nat) (s : string) : JS Page unit :=
  on_icon button (fun ic => {| textContent := textContent ic; fontFamily := s |}).

Definition has_class (c : string) (e : Element) : bool :=
  existsb (String.eqb c) (classList e).

(** [classList.add(c)] and [classList.remove(c)]: the classes are a set. *)
Definition classList_add (button : nat) (c : string) : JS Page unit :=
  assign button (fun e =>
    Normal {| classList := if has_class c e then classList e else classList e ++ [c];
              dataset_id := dataset_id e; icon := icon e; ariaLabel := ariaLabel e |}).

Definition classList_remove (button : nat) (c : string) : JS Page unit :=
  assign button (fun e =>
    Normal {| classList := List.filter (fun c' => negb (String.eqb c c')) (classList e);
              dataset_id := dataset_id e; icon := icon e; ariaLabel := ariaLabel e |}).

Definition set_ariaLabel (button : nat) (s : string) : JS Page unit :=
  assign button (fun e =>
    Normal {| classList := classList e; dataset_id := dataset_id e;
              icon := icon e; ariaLabel := Some s |}).

Fixpoint with_class_from (c : string) (i : nat) (doc : list Element) : list nat :=
  match doc with
  | [] => []
  | e :: rest =>
      if has_class c e then i :: with_class_from c (S i) rest
      else with_class_from c (S i) rest
  end.

(** [document.querySelectorAll('.c')]: the elements of class [c], in
    document order. *)
Definition querySelectorAll (c : string) : JS Page (list nat) := fun pg =>
  (Normal (with_class_from c 0%nat (document pg)), pg).

Fixpoint forEach (l : list nat) (f : nat -> JS Page unit) : JS Page unit :=
  match l with
  | [] => mret tt
  | x :: rest => _ ← f x; forEach rest f
  end.

Definition updateWatchLaterButtonUI (button : nat) (id : Value) : JS Page unit :=
  status ← with_storage (checkWatchLaterStatus id);
  if status : bool then
    _ ← icon_set_textContent button "bookmark";
    _ ← icon_set_fontFamily button "Material Icons";
    _ ← classList_add button "added";
    set_ariaLabel button "Remove from Watch Later"
  else
    _ ← icon_set_textContent button "bookmark_border";
    _ ← icon_set_fontFamily button "Material Icons Outlined";
    _ ← classList_remove button "added";
    set_ariaLabel button "Add to Watch Later".

Definition updateAllWatchLaterButtons : JS Page unit :=
  buttons ← querySelectorAll "btn-add-list";
  forEach buttons (fun btn =>
    id ← read btn (fun e => Normal (parseInt (dataset_id e)));
    if truthy id then updateWatchLaterButtonUI btn id else mret tt).

(** The [data-*] attributes of a save control that the click handler
    reads besides [data-id]; [None] is an attribute that is not there. *)
Record Dataset : Type := {
  data_type : option string;
  data_title : option string;
  data_poster : option string;
  data_overview : option string;
  data_rating : option string;
}.

Definition string_or_undefined (x : option string) : Value :=
  match x with
  | Some s => VJson (JStr s)
  | None => VUndefined
  end.

Section Click.

(** [parseFloat(x)] for [x] a string or [undefined]: the number, [None]
    when it is [NaN] or infinite, which [JSON.stringify] writes as
    [null] alike. *)
Variable parseFloat : option string -> option Q.

(** [initGlobalListeners]: the object [itemData] of the click handler,
    built from [parseInt(id)] and the other attributes. *)
Definition itemData (id : Value) (data : Dataset) : JsVal :=
  JObj (kept_property "id" id
        ++ kept_property "type" (string_or_undefined (data_type data))
        ++ kept_property "title" (string_or_undefined (data_title data))
        ++ kept_property "poster_path" (string_or_undefined (data_poster data))
        ++ kept_property "overview" (string_or_undefined (data_overview data))
        ++ kept_property "vote_average"
             (match parseFloat (data_rating data) with
              | Some q => VJson (JNum q)
              | None => VNaN
              end)).

(** [initGlobalListeners]: what a click on the save control
    [addListButton] does, [data] being its other attributes. *)
Definition addListButton_click (addListButton : nat) (data : Dataset) : JS Page unit :=
  id ← read addListButton (fun e => Normal (parseInt (dataset_id e)));
  _ ← with_storage (toggleWatchLater id (itemData id data));
  updateWatchLaterButtonUI addListButton id.

End Click.

Section Rating.
Variable Number_toString : Q -> string.

Definition formatRating (vote : Value) : Completion string :=
  if truthy vote then toFixed Number_toString vote else Normal "N/A".
End Rating.

(** [str.replace(/c/g, by)] for one character [c]. *)
Fixpoint replace_all (c : ascii) (by_ : string) (str : string) : string :=
  match str with
  | EmptyString => EmptyString
  | String a rest =>
      if Ascii.eqb a c then (by_ ++ replace_all c by_ rest)%string
      else String a (replace_all c by_ rest)
  end.

Definition double_quote : ascii := "034"%char.
Definition single_quote : ascii := "039"%char.

(** A value that is truthy and no string has no method [replace]. *)
Definition escape (str : Value) : Completion string :=
  if truthy str then
    match str with
    | VJson (JStr s) =>
        Normal (replace_all single_quote "&#39;" (replace_all double_quote "&quot;" s))
    | _ => Throw TypeError
    end
  else Normal EmptyString.

(** *** The hero carousel *)

(** [classList.add] and [classList.remove] on a list of classes. *)
Definition class_add (c : string) (cl : list string) : list string :=
  if existsb (String.eqb c) cl then cl else cl ++ [c].

Definition class_remove (c : string) (cl : list string) : list string :=
  List.filter (fun c' => negb (String.eqb c c')) cl.

(** What the carousel functions read and write: the classes of the
    elements [#hero-carousel .hero-slide] and [#hero-dots .carousel-dot]
    in document order, the globals [currentHeroIndex] and
    [heroInterval], and the handles of the intervals that are pending,
    all of them calls of [nextHeroSlide] every 7 seconds. *)
Record Carousel : Type := {
  slides : list (list string);
  dots : list (list string);
  currentHeroIndex : Z;
  heroInterval : option nat;
  intervals : gset nat;
}.




(** [list[index]], [undefined] out of range. *)
Definition item_at {A} (l : list A) (index : Z) : option A :=
  if index <? 0 then None else l !! Z.to_nat index.

Section Timers.

(** The handle [setInterval] returns, given the pending ones. *)
Variable setInterval_handle : gset nat -> nat.

(** [clearInterval] of a handle that is [undefined] or not pending does
    nothing. *)
Definition startHeroInterval : JS Carousel unit := fun c =>
  let pending :=
    match heroInterval c with
    | Some id => intervals c ∖ {[id]}
    | None => intervals c
    end in
  let id := setInterval_handle pending in
  (Normal tt,
   {| slides := slides c; dots := dots c; currentHeroIndex := currentHeroIndex c;
      heroInterval := Some id; intervals := {[id]} ∪ pending |}).

Definition showHeroSlide (index : Z) : JS Carousel unit := fun c =>
  let length := Z.of_nat (List.length (slides c)) in
  let index :=
    if index >=? length then 0
    else if index <? 0 then length - 1
    else index in
  let slides1 := map (class_remove "active") (slides c) in
  let dots1 := map (class_remove "active") (dots c) in
  match item_at slides1 index with
  | None =>
      (Throw TypeError,
       {| slides := slides1; dots := dots1; currentHeroIndex := currentHeroIndex c;
          heroInterval := heroInterval c; intervals := intervals c |})
  | Some slide =>
      let slides2 := <[Z.to_nat index := class_add "active" slide]> slides1 in
      match item_at dots1 index with
      | None =>
          (Throw TypeError,
           {| slides := slides2; dots := dots1; currentHeroIndex := currentHeroIndex c;
              heroInterval := heroInterval c; intervals := intervals c |})
      | Some dot =>
          startHeroInterval
            {| slides := slides2;
               dots := <[Z.to_nat index := class_add "active" dot]> dots1;
               currentHeroIndex := index;
               heroInterval := heroInterval c; intervals := intervals c |}
      end
  end.

Definition nextHeroSlide : JS Carousel unit := fun c =>
  showHeroSlide (currentHeroIndex c + 1) c.

Definition prevHeroSlide : JS Carousel unit := fun c =>
  showHeroSlide (currentHeroIndex c - 1) c.

Variable Number_toString : Q -> string.






End Timers.

End Main.

(** ** js/tv.js *)
Module MainTv.

(** A button of the season selector: its classes and its [data-season],
    a string as every attribute. *)
Record Pill : Type := {
  classList : list string;
  dataset_season : string;
}.

(** The children of the element [season-selector], [None] when the page
    has no such element. *)
Abbreviation Selector := (option (list Pill)).

Section Seasons.

(** [ToNumber] of a string, an array or an object; [None] is [NaN]. *)
Variable ToNumber : JsVal -> option Q.

(** [ToString], which an assignment to [dataset] applies. *)
Variable ToString : Value -> string.

(** [v > 0] *)
Definition greater_than_zero (v : Value) : bool :=
  match v with
  | VUndefined | VNaN => false
  | VInfinity negative => negb negative
  | VJson JNull => false
  | VJson (JBool b) => b
  | VJson (JNum q) => negb (Qle_bool q 0)
  | VJson j =>
      match ToNumber j with
      | Some q => negb (Qle_bool q 0)
      | None => false
      end
  end.

Definition appendChild (pill : Pill) : JS Selector unit := fun container =>
  match container with
  | Some children => (Normal tt, Some (children ++ [pill]))
  | None => (Throw TypeError, container)
  end.

(** The loop of [populateSeasonSelector]; it returns the flag
    [isFirstActiveSeason]. *)
Fixpoint add_pills (isFirstActiveSeason : bool) (seasons : list JsVal)
    : JS Selector bool :=
  match seasons with
  | [] => mret isFirstActiveSeason
  | season :: rest =>
      season_number ← pure (get (VJson season) "season_number");
      _ ← pure (get (VJson season) "name");
      let first := negb isFirstActiveSeason && greater_than_zero season_number in
      _ ← appendChild
            {| classList :=
                 if first then Main.class_add "active" ["season-pill"] else ["season-pill"];
               dataset_season := ToString season_number |};
      add_pills (isFirstActiveSeason || first) rest
  end.

(** [if (!isFirstActiveSeason && container.firstChild)
       container.firstChild.classList.add('active')] *)
Definition only_specials (isFirstActiveSeason : bool) : JS Selector unit := fun container =>
  match container with
  | Some (firstChild :: rest) =>
      if negb isFirstActiveSeason then
        (Normal tt,
         Some ({| classList := Main.class_add "active" (classList firstChild);
                  dataset_season := dataset_season firstChild |} :: rest))
      else (Normal tt, container)
  | _ => (Normal tt, container)
  end.

Definition populateSeasonSelector (seasons : list JsVal) : JS Selector unit := fun container =>
  match container with
  | None => (Normal tt, container)
  | Some _ =>
      (isFirstActiveSeason ← add_pills false seasons;
       only_specials isFirstActiveSeason) (Some [])
  end.

(** [Array.prototype.find] with the callback [s => s.season_number > 0]. *)
Fixpoint find_real_season (seasons : list JsVal) : Completion Value :=
  match seasons with
  | [] => Normal VUndefined
  | s :: rest =>
      season_number ← get (VJson s) "season_number";
      if greater_than_zero season_number then Normal (VJson s)
      else find_real_season rest
  end.

(** [initTvPage]: the season whose episodes are loaded first,
    [seasons.find(s => s.season_number > 0) || seasons[0]]. *)
Definition firstSeason (seasons : list JsVal) : Completion Value :=
  found ← find_real_season seasons;
  if truthy found then Normal found
  else Normal (match seasons with
               | s :: _ => VJson s
               | [] => VUndefined
               end).

End Seasons.

(** The click handler of the pill at [pill], up to
    [fetchAndPopulateEpisodes]. *)
Definition pill_click (pill : nat) : JS Selector unit := fun container =>
  match container with
  | None => (Throw TypeError, container)
  | Some children =>
      let cleared :=
        map (fun btn =>
               if existsb (String.eqb "season-pill") (classList btn)
                  && existsb (String.eqb "active") (classList btn)
               then {| classList := Main.class_remove "active" (classList btn);
                       dataset_season := dataset_season btn |}
               else btn) children in
      match cleared !! pill with
      | Some p =>
          (Normal tt,
           Some (<[pill := {| classList := Main.class_add "active" (classList p);
                              dataset_season := dataset_season p |}]> cleared))
      | None => (Throw TypeError, Some cleared)
      end
  end.

End MainTv.

(** * Vocabulary of the properties *)

(** The list a page of either front end works on once it has loaded
    the stored value [o]: the parsed value, or the empty array when
    nothing usable is stored. *)
Definition stored_value (o : option Entry) : JsVal :=
  match o with
  | Some (Encoded v) => v
  | Some (Malformed _) | None => JArr []
  end.

(** The property [k] of a stored element, [undefined] when it has none. *)
Definition field (r : JsVal) (k : string) : Value :=
  match r with
  | JObj props => assoc k props
  | _ => VUndefined
  end.

Definition is_number (v : Value) : bool :=
  match v with
  | VJson (JNum _) => true
  | _ => false
  end.

Definition is_string (v : Value) : bool :=
  match v with
  | VJson (JStr _) => true
  | _ => false
  end.

(** A saved item: a record whose [id] is a number and whose media kind,
    the property [kind] (['media_type'] on the Aurora pages, ['type'] in
    js/main.js), is a string. *)
Definition saved_item (kind : string) (r : JsVal) : bool :=
  is_number (field r "id") && is_string (field r kind).

(** The stored value [v] is a list of saved items. *)
Definition list_of_saved_items (kind : string) (v : JsVal) : Prop :=
  exists l, v = JArr l /\ Forall (fun r => saved_item kind r = true) l.

(** [r] has the id and the media kind of [x]. *)
Definition same_key (kind : string) (x r : JsVal) : bool :=
  strict_eq (field r "id") (field x "id") &&
  strict_eq (field r kind) (field x kind).

(** [r] has the id [id]. *)
Definition same_id (id : Value) (r : JsVal) : bool :=
  strict_eq (field r "id") id.

(** Some record of [l] has the key of [x]. *)
Definition contains (kind : string) (l : list JsVal) (x : JsVal) : bool :=
  existsb (same_key kind x) l.


(** [l] without the first record that [matching] accepts. *)
Fixpoint remove_first (matching : JsVal -> bool) (l : list JsVal) : list JsVal :=
  match l with
  | [] => []
  | r :: rest => if matching r then rest else r :: remove_first matching rest
  end.



(** What both toggles do to the loaded array [l]: look for the first
    element the callback [p] accepts, splice it out or push [x]. *)
Definition toggle_list (p : JsVal -> Completion bool) (x : JsVal) (l : list JsVal)
    : Completion (Z * list JsVal) :=
  idx ← findIndex p l;
  Normal (idx, if idx >? -1 then splice1 idx l else push l x).

(** A record as the pages build it: an id, a media kind under the
    property [kind], and a title. *)
Definition record (kind : string) (id : Z) (media : string) (title : string) : JsVal :=
  JObj [("id", JNum (inject_Z id)); (kind, JStr media); ("title", JStr title)].


(** At most one record of [l] has the key of [x]. *)
Definition at_most_once (kind : string) (x : JsVal) (l : list JsVal) : Prop :=
  contains kind (remove_first (same_key kind x) l) x = false.

(** The look [updateWatchLaterButtonUI] gives the icon of a control
    whose item is saved, or is not. *)
Definition icon_look (saved : bool) : Main.Icon :=
  {| Main.textContent := if saved then "bookmark" else "bookmark_border";
     Main.fontFamily := if saved then "Material Icons" else "Material Icons Outlined" |}.

(** The look it gives the control itself: class and label. *)
Definition control_look (saved : bool) (e : Main.Element) : Main.Element :=
  {| Main.classList :=
       if saved
       then (if Main.has_class "added" e then Main.classList e
             else Main.classList e ++ ["added"])
       else List.filter (fun c => negb (String.eqb "added" c)) (Main.classList e);
     Main.dataset_id := Main.dataset_id e;
     Main.icon := Main.icon e;
     Main.ariaLabel :=
       Some (if saved then "Remove from Watch Later" else "Add to Watch Later") |}.

(** What one round of [updateAllWatchLaterButtons] does at the element
    [e], with [ls] stored and [n] spans on the page: nothing, or give
    the look of [saved] to [e] and to the span [k]. *)
Definition refresh_control (ls : Storage) (n : nat) (e : Main.Element)
    : Completion (option (bool * nat)) :=
  if Main.has_class "btn-add-list" e then
    let id := parseInt (Main.dataset_id e) in
    if truthy id then
      saved ← (Main.checkWatchLaterStatus id ls).1;
      match Main.icon e with
      | Some k => if (k <? n)%nat then Normal (Some (saved, k)) else Throw TypeError
      | None => Throw TypeError
      end
    else Normal None
  else Normal None.

(** What it does to the elements [doc], in document order, up to the
    first control that throws: the looks it gives to spans, in the
    order it gives them, and the elements as it leaves them. *)
Fixpoint refresh_controls (ls : Storage) (n : nat) (doc : list Main.Element)
    : Completion unit * (list (nat * Main.Icon) * list Main.Element) :=
  match doc with
  | [] => (Normal tt, ([], []))
  | e :: rest =>
      match refresh_control ls n e with
      | Normal (Some (saved, k)) =>
          let '(r, (writes, rest')) := refresh_controls ls n rest in
          (r, ((k, icon_look saved) :: writes, control_look saved e :: rest'))
      | Normal None =>
          let '(r, (writes, rest')) := refresh_controls ls n rest in
          (r, (writes, e :: rest'))
      | Throw x => (Throw x, ([], e :: rest))
      end
  end.

(** The spans after the assignments [writes], made in their order. *)
Definition write_spans (writes : list (nat * Main.Icon)) (spans : list Main.Icon)
    : list Main.Icon :=
  fold_left (fun s w => <[w.1 := w.2]> s) writes spans.

(** The look the span [k] is given last among [writes], if any. *)
Fixpoint last_write (writes : list (nat * Main.Icon)) (k : nat) : option Main.Icon :=
  match writes with
  | [] => None
  | w :: rest =>
      match last_write rest k with
      | Some v => Some v
      | None => if Nat.eqb w.1 k then Some w.2 else None
      end
  end.

(** The operation [op] reads and writes the storage under [key] only:
    it leaves every other key as it was, and what it returns and stores
    depends on nothing but the value under [key]. *)
Definition confined_to {A} (key : string) (op : JS Storage A) : Prop :=
  (forall (ls : Storage) k, k <> key -> (op ls).2 !! k = ls !! k) /\
  (forall ls ls' : Storage, ls !! key = ls' !! key ->
     (op ls).1 = (op ls').1 /\ (op ls).2 !! key = (op ls').2 !! key).

(** What the matching of the Aurora pages reads of a record. *)
Definition key_fields (v : JsVal) : Completion Value * Completion Value :=
  (get v "id", get v "media_type").

(** At most one record of [l] has the id [id]. *)
Definition id_at_most_once (id : Value) (l : list JsVal) : Prop :=
  existsb (same_id id) (remove_first (same_id id) l) = false.

(** The character [c] occurs in [s]. *)
Fixpoint occurs (c : ascii) (s : string) : bool :=
  match s with
  | EmptyString => false
  | String a rest => Ascii.eqb a c || occurs c rest
  end.

(** What can happen to the carousel: a click on the dot [i], on the
    next or the previous arrow, and the interval firing. *)
Inductive HeroEvent : Type :=
  | DotClick (i : nat)
  | NextClick
  | PrevClick
  | IntervalFires.

Definition hero_handler (handle : gset nat -> nat) (ev : HeroEvent) : JS Main.Carousel unit :=
  match ev with
  | DotClick i => Main.showHeroSlide handle (Z.of_nat i)
  | NextClick => Main.nextHeroSlide handle
  | PrevClick => Main.prevHeroSlide handle
  | IntervalFires => Main.nextHeroSlide handle
  end.

(** The handlers of a sequence of events, one after the other; a
    handler that throws ends its own event only. *)
Fixpoint hero_events (handle : gset nat -> nat) (evs : list HeroEvent)
    (c : Main.Carousel) : Main.Carousel :=
  match evs with
  | [] => c
  | ev :: rest => hero_events handle rest (hero_handler handle ev c).2
  end.

Definition is_active (cl : list string) : bool := existsb (String.eqb "active") cl.

(** The slide and the dot at [currentHeroIndex], and no other, are
    active; one interval is pending and [heroInterval] is its handle. *)
Definition carousel_consistent (c : Main.Carousel) : Prop :=
  length (Main.slides c) = length (Main.dots c) /\
  0 <= Main.currentHeroIndex c < Z.of_nat (length (Main.slides c)) /\
  (forall j cl, Main.slides c !! j = Some cl ->
     is_active cl = bool_decide (Z.of_nat j = Main.currentHeroIndex c)) /\
  (forall j cl, Main.dots c !! j = Some cl ->
     is_active cl = bool_decide (Z.of_nat j = Main.currentHeroIndex c)) /\
  exists id, Main.heroInterval c = Some id /\ Main.intervals c = {[id]}.


(** The index of the first season whose number is greater than zero. *)
Fixpoint first_real_season (ToNumber : JsVal -> option Q) (seasons : list JsVal)
    : option nat :=
  match seasons with
  | [] => None
  | s :: rest =>
      if MainTv.greater_than_zero ToNumber (field s "season_number") then Some 0%nat
      else S <$> first_real_season ToNumber rest
  end.

(** The index of the season that opens the page: the first one with a
    number greater than zero, the very first one when there is none. *)
Definition opening_season (ToNumber : JsVal -> option Q) (seasons : list JsVal)
    : option nat :=
  match first_real_season ToNumber seasons with
  | Some i => Some i
  | None => if seasons is [] then None else Some 0%nat
  end.

(** The pills the loop of [populateSeasonSelector] makes of [seasons]. *)
Fixpoint new_pills (ToNumber : JsVal -> option Q) (ToString : Value -> string)
    (isFirstActiveSeason : bool) (seasons : list JsVal) : list MainTv.Pill :=
  match seasons with
  | [] => []
  | s :: rest =>
      let first :=
        negb isFirstActiveSeason
        && MainTv.greater_than_zero ToNumber (field s "season_number") in
      {| MainTv.classList := if first then ["season-pill"; "active"] else ["season-pill"];
         MainTv.dataset_season := ToString (field s "season_number") |}
      :: new_pills ToNumber ToString (isFirstActiveSeason || first) rest
  end.

(** [v] is of the type Number: a number of the JSON universe, [NaN] or
    an infinity. *)
Definition is_number_value (v : Value) : bool :=
  match v with
  | VNaN | VInfinity _ | VJson (JNum _) => true
  | _ => false
  end.

(** A rating the badges treat as missing: the field is absent, [null],
    or the number zero. *)
Definition unrated (v : Value) : Prop :=
  v = VUndefined \/ v = VJson JNull \/ exists q, v = VJson (JNum q) /\ (q == 0)%Q.

(** * Properties *)

(** ** The platform functions at work *)

Example parseInt_examples :
  parseInt (Some "27205") = JNum 27205 /\
  parseInt (Some "  42px") = JNum 42 /\
  parseInt (Some "-0x1F") = JNum (-31) /\
  parseInt (Some "") = VNaN /\
  parseInt (Some "undefined") = VNaN /\
  parseInt None = VNaN.
Proof. vm_compute. repeat split. Qed.

(** White space beyond ASCII is skipped, here a no-break space, a byte
    order mark and an ideographic space ahead of the digits, but not two
    bytes that spell a space the long way; an integer
    that no double holds is rounded, to the even neighbour when it lies
    half way; 400 digits are [Infinity]. *)
Example parseInt_as_the_platform :
  let nbsp := String "194" (String "160" EmptyString) in
  let bom := String "239" (String "187" (String "191" EmptyString)) in
  let ideographic := String "227" (String "128" (String "128" EmptyString)) in
  parseInt (Some (nbsp ++ bom ++ ideographic ++ "42"))%string = JNum 42 /\
  parseInt (Some (String "192" (String "160" "42"))) = VNaN /\
  parseInt (Some "9007199254740993") = JNum 9007199254740992 /\
  parseInt (Some "9007199254740995") = JNum 9007199254740996 /\
  parseInt (Some "-9007199254740993") = JNum (-9007199254740992) /\
  parseInt (Some "18014398509481985") = JNum 18014398509481984 /\
  parseInt (Some "18014398509481987") = JNum 18014398509481988 /\
  parseInt (Some (String "1" (string_of_list_ascii (repeat "0"%char 400)))) = VInfinity false /\
  parseInt (Some (String "-" (String "1" (string_of_list_ascii (repeat "0"%char 400)))))
  = VInfinity true.
Proof. vm_compute. repeat split. Qed.

Example formatRating_examples :
  Main.formatRating (fun _ => "") (JNum (81234 # 10000)) = Normal "8.1" /\
  Main.formatRating (fun _ => "") (JNum (825 # 100)) = Normal "8.3" /\
  Main.formatRating (fun _ => "") (JNum 10) = Normal "10.0" /\
  Main.formatRating (fun _ => "") (JNum 0) = Normal "N/A" /\
  Main.formatRating (fun _ => "") VNaN = Normal "N/A" /\
  Main.formatRating (fun _ => "") (JStr "8.1") = Throw TypeError.
Proof. vm_compute. repeat split. Qed.

(** [parseInt] returns a number. *)
Lemma parseInt_number (x : option string) : is_number_value (parseInt x) = true.
Proof.
  destruct x as [s|]; [|reflexivity]. unfold parseInt, parseInt_string.
  destruct (match trim_start s with
            | String "-" rest => (true, rest)
            | String "+" rest => (false, rest)
            | _ => (false, trim_start s)
            end) as [neg s2].
  destruct (match s2 with
            | String "0" (String "x" rest) | String "0" (String "X" rest) => (16, rest)
            | _ => (10, s2)
            end) as [radix s3].
  destruct (leading_digits radix s3 None) as [n|]; [|reflexivity].
  now destruct (nearest_double n).
Qed.

(** ** JavaScript equality and array methods *)


Lemma strict_eq_refl_number (a : Value) : is_number a = true -> strict_eq a a = true.
Proof.
  destruct a as [| |?|[]]; simpl; try discriminate. intros _. apply Qeq_bool_refl.
Qed.

Lemma strict_eq_refl_string (a : Value) : is_string a = true -> strict_eq a a = true.
Proof.
  destruct a as [| |?|[]]; simpl; try discriminate. intros _. apply String.eqb_refl.
Qed.

Lemma same_key_refl kind x : saved_item kind x = true -> same_key kind x x = true.
Proof.
  unfold saved_item, same_key. intros [Hn Hs]%andb_prop.
  now rewrite strict_eq_refl_number, strict_eq_refl_string.
Qed.


(** Reading a property of a stored element that is not [null]. *)
Lemma get_field (r : JsVal) k : r <> JNull -> get r k = Normal (field r k).
Proof. destruct r; unfold get; simpl; congruence. Qed.

Lemma get_cases (r : JsVal) k :
  (r = JNull /\ get r k = Throw TypeError) \/
  (r <> JNull /\ get r k = Normal (field r k)).
Proof.
  destruct r; unfold get; simpl;
    (left; split; congruence) || (right; split; congruence).
Qed.

(** The callback of the Aurora pages decides [same_key] whenever it
    completes normally. *)
Lemma same_id_and_media_type_normal (x r : JsVal) b :
  same_id_and_media_type x r = Normal b -> b = same_key "media_type" x r.
Proof.
  unfold same_id_and_media_type, same_key. intros H.
  destruct (get_cases r "id") as [[-> _]|[Hr _]]; [discriminate|].
  rewrite !(get_field r) in H by done. simpl in H.
  destruct (get_cases x "id") as [[-> _]|[Hx _]]; [discriminate|].
  rewrite !(get_field x) in H by done. simpl in H.
  destruct (strict_eq (field r "id") (field x "id")); simpl in *; congruence.
Qed.

Section ArrayMethods.
Variable p : JsVal -> Completion bool.

(** The callback rejects every element of [l]. *)
Let rejects (l : list JsVal) : Prop := Forall (fun r => p r = Normal false) l.

Lemma findIndex_ge l i : findIndex p l = Normal i -> -1 <= i.
Proof.
  revert i. induction l as [|x l IH]; simpl; intros i H.
  - injection H as <-. lia.
  - destruct (p x) as [[]|]; simpl in H; try discriminate.
    + injection H as <-. lia.
    + destruct (findIndex p l) as [j|]; simpl in H; try discriminate.
      injection H as <-. specialize (IH j eq_refl).
      destruct (Z.gtb_spec j (-1)); lia.
Qed.

Lemma findIndex_none l : rejects l -> findIndex p l = Normal (-1).
Proof.
  induction 1 as [|x l Hx _ IH]; simpl; [reflexivity|].
  rewrite Hx. simpl. rewrite IH. reflexivity.
Qed.

Lemma findIndex_first pre r post :
  rejects pre -> p r = Normal true ->
  findIndex p (pre ++ r :: post) = Normal (Z.of_nat (length pre)).
Proof.
  intros Hpre Hr. induction Hpre as [|x l Hx _ IH]; simpl.
  - rewrite Hr. reflexivity.
  - rewrite Hx. simpl. rewrite IH. simpl.
    destruct (Z.gtb_spec (Z.of_nat (length l)) (-1)); [f_equal; lia | lia].
Qed.

Lemma findIndex_absent l : findIndex p l = Normal (-1) -> rejects l.
Proof.
  induction l as [|x l IH]; simpl; intros H; [constructor|].
  destruct (p x) as [[]|] eqn:Hx; simpl in H; try discriminate.
  destruct (findIndex p l) as [j|] eqn:Hj; simpl in H; try discriminate.
  pose proof (findIndex_ge _ _ Hj).
  destruct (Z.gtb_spec j (-1)).
  - injection H as H. lia.
  - constructor; [assumption|]. apply IH. f_equal. lia.
Qed.

Lemma findIndex_present l i :
  findIndex p l = Normal i -> -1 < i ->
  exists pre r post,
    l = pre ++ r :: post /\ i = Z.of_nat (length pre) /\
    rejects pre /\ p r = Normal true.
Proof.
  revert i. induction l as [|x l IH]; simpl; intros i H Hi.
  - injection H as <-. lia.
  - destruct (p x) as [[]|] eqn:Hx; simpl in H; try discriminate.
    + injection H as <-. exists [], x, l. repeat split; [constructor | assumption].
    + destruct (findIndex p l) as [j|] eqn:Hj; simpl in H; try discriminate.
      injection H as <-.
      destruct (Z.gtb_spec j (-1)); [|lia].
      destruct (IH j eq_refl) as (pre & r & post & -> & -> & Hpre & Hr); [lia|].
      exists (x :: pre), r, post. repeat split.
      * simpl length. lia.
      * constructor; assumption.
      * assumption.
Qed.

(** [some] is [findIndex(...) > -1]. *)
Lemma some_findIndex l :
  some p l = (i ← findIndex p l; Normal (i >? -1)).
Proof.
  induction l as [|x l IH]; simpl; [reflexivity|].
  destruct (p x) as [[]|]; simpl; try reflexivity.
  rewrite IH. destruct (findIndex p l) as [j|] eqn:Hj; simpl; [|reflexivity].
  pose proof (findIndex_ge _ _ Hj).
  destruct (Z.gtb_spec j (-1)); f_equal; lia.
Qed.

End ArrayMethods.

Lemma splice1_at pre r post :
  splice1 (Z.of_nat (length pre)) (pre ++ r :: post) = pre ++ post.
Proof.
  unfold splice1. rewrite length_app. simpl length.
  destruct (Z.ltb_spec (Z.of_nat (length pre)) 0); [lia|].
  rewrite Z.min_l by lia. rewrite Nat2Z.id.
  rewrite take_app_length. f_equal. clear.
  induction pre as [|x pre IH]; simpl; [reflexivity | exact IH].
Qed.

(** ** Toggling a loaded array *)

Section ToggleList.
Variable p : JsVal -> Completion bool.
Variable m : JsVal -> bool.

Lemma remove_first_at pre r post :
  Forall (fun a => m a = false) pre -> m r = true ->
  remove_first m (pre ++ r :: post) = pre ++ post.
Proof.
  intros Hpre Hr. induction Hpre as [|a pre Ha _ IH]; simpl.
  - now rewrite Hr.
  - now rewrite Ha, IH.
Qed.

Lemma existsb_at pre r post : m r = true -> existsb m (pre ++ r :: post) = true.
Proof.
  intros Hr. rewrite existsb_app. simpl. rewrite Hr. now rewrite orb_true_r.
Qed.

Lemma existsb_none l : Forall (fun a => m a = false) l -> existsb m l = false.
Proof. induction 1 as [|a l Ha _ IH]; simpl; [reflexivity | now rewrite Ha, IH]. Qed.

Lemma remove_first_none l : existsb m l = false -> remove_first m l = l.
Proof.
  induction l as [|a l IH]; simpl; [reflexivity|].
  intros [Ha Hl]%orb_false_elim. rewrite Ha. now rewrite IH.
Qed.



(** The callback [p] decides [m] on the elements of [l]. *)
Let decided (l : list JsVal) : Prop := Forall (fun r => p r = Normal (m r)) l.

(** If the toggle completes, the callback decided [m] as far as it
    looked, and the array is the old one with its first match removed or
    with [x] pushed. *)
Lemma toggle_list_normal x l idx l' :
  (forall r b, p r = Normal b -> b = m r) ->
  toggle_list p x l = Normal (idx, l') ->
  (idx =? -1) = negb (existsb m l) /\
  l' = if existsb m l then remove_first m l else l ++ [x].
Proof.
  intros Hp H. unfold toggle_list in H.
  destruct (findIndex p l) as [i|] eqn:Hi; simpl in H; [|discriminate].
  injection H as <- <-.
  pose proof (findIndex_ge _ _ _ Hi) as Hge.
  destruct (Z.gtb_spec i (-1)) as [Hlt|Hle].
  - destruct (findIndex_present _ _ _ Hi Hlt) as (pre & r & post & -> & -> & Hpre & Hr).
    apply Hp in Hr.
    assert (Forall (fun a => m a = false) pre) as Hpre'.
    { eapply Forall_impl; [exact Hpre|]. intros a Ha. now apply Hp in Ha. }
    rewrite existsb_at by done. rewrite remove_first_at by done.
    rewrite splice1_at. split; [|reflexivity]. simpl. lia.
  - assert (i = -1) as -> by lia.
    apply findIndex_absent in Hi.
    assert (Forall (fun a => m a = false) l) as Hl.
    { eapply Forall_impl; [exact Hi|]. intros a Ha. now apply Hp in Ha. }
    rewrite existsb_none by done. split; reflexivity.
Qed.

(** Where the callback decides [m] on every element, the toggle
    completes. *)
Lemma toggle_list_decided x l :
  decided l -> exists idx l', toggle_list p x l = Normal (idx, l').
Proof.
  intros Hl. unfold toggle_list.
  assert (exists i, findIndex p l = Normal i) as [i ->].
  { induction Hl as [|a l Ha _ [i IH]]; simpl; [eauto|].
    rewrite Ha. destruct (m a); simpl; [eauto|]. rewrite IH. simpl. eauto. }
  simpl. eauto.
Qed.

End ToggleList.

(** ** Loading the list *)

Ltac js_unfold :=
  unfold mbind, mret, js_bind, js_ret, pure, try_catch, getItem, setItem,
    or_empty_array, if_stored, nonempty, JSON_stringify in *.

(** [getWatchLater] of explore.js catches every failure of the parse. *)
Lemma Explore_getWatchLater_run ls :
  Explore.getWatchLater ls =
  (Normal (stored_value (ls !! "watchLaterItems")), ls).
Proof.
  unfold Explore.getWatchLater, Explore.WATCH_LATER_KEY. js_unfold.
  destruct (ls !! "watchLaterItems") as [[v|s]|]; simpl; try reflexivity.
  destruct (String.eqb s ""); reflexivity.
Qed.

Lemma WatchLater_getWatchLater_run ls :
  WatchLater.getWatchLater ls =
  (Normal (stored_value (ls !! "watchLaterItems")), ls).
Proof. exact (Explore_getWatchLater_run ls). Qed.

Lemma Movie_getWatchLater_run ls :
  Movie.getWatchLater ls =
  (Normal (stored_value (ls !! "watchLaterItems")), ls).
Proof.
  unfold Movie.getWatchLater, Movie.WATCH_LATER_KEY. js_unfold.
  destruct (ls !! "watchLaterItems") as [[v|s]|]; simpl; try reflexivity.
  destruct (String.eqb s ""); reflexivity.
Qed.

Lemma Index_getWatchLater_run ls :
  Index.getWatchLater ls =
  (Normal (stored_value (ls !! "watchLaterItems")), ls).
Proof. exact (Movie_getWatchLater_run ls). Qed.

Lemma Tv_getWatchLater_run ls :
  Tv.getWatchLater ls =
  (Normal (stored_value (ls !! "watchLaterItems")), ls).
Proof. exact (Movie_getWatchLater_run ls). Qed.

(** [getWatchLaterList] of js/main.js parses outside of any [try]. *)
Lemma Main_getWatchLaterList_run ls :
  Main.getWatchLaterList ls =
  (if_stored (ls !! "streamVerseWatchLater") JSON_parse (Normal (JArr [])), ls).
Proof.
  unfold Main.getWatchLaterList, Main.WATCH_LATER_KEY. js_unfold.
  destruct (ls !! "streamVerseWatchLater") as [[v|s]|]; simpl; try reflexivity.
  destruct (String.eqb s ""); reflexivity.
Qed.

(** A stored text that is not JSON reaches the caller of
    [getWatchLaterList] as a SyntaxError. *)
Example Main_getWatchLaterList_not_json :
  (Main.getWatchLaterList {[ "streamVerseWatchLater" := Malformed "not json" ]}).1
  = Throw SyntaxError.
Proof. reflexivity. Qed.

(** C2, as stated, fails on watch-later.js: the text [{"id":1}] is
    valid JSON and no list of records, and [getWatchLater] returns the
    parsed object, not the empty array. *)
Lemma load_returns_parsed_value_of_any_shape :
  let ls : Storage := {[ "watchLaterItems" := Encoded (JObj [("id", JNum 1)]) ]} in
  (forall v, ls !! "watchLaterItems" = Some (Encoded v) ->
     ~ list_of_saved_items "media_type" v) /\
  (WatchLater.getWatchLater ls).1 = Normal (JObj [("id", JNum 1)]) /\
  (WatchLater.getWatchLater ls).1 <> Normal (JArr []).
Proof.
  intros ls. split; [|split].
  - intros v Hv. vm_compute in Hv. injection Hv as <-.
    intros (l & Hl & _). discriminate.
  - reflexivity.
  - discriminate.
Qed.

(** C2, amended: [getWatchLater] of the Aurora pages never throws and
    returns the empty array when the key is missing or holds a text that
    is not JSON; [getWatchLaterList] of js/main.js returns the empty
    array when the key is missing or holds the empty string.  Both
    return a stored value that is valid JSON as parsed, whatever its
    shape. *)
Theorem load_fails_open_on_missing_or_unparsable (ls : Storage) :
  (exists v, WatchLater.getWatchLater ls = (Normal v, ls) /\
             Explore.getWatchLater ls = (Normal v, ls) /\
             Movie.getWatchLater ls = (Normal v, ls)) /\
  (ls !! "watchLaterItems" = None ->
     WatchLater.getWatchLater ls = (Normal (JArr []), ls)) /\
  (forall s, ls !! "watchLaterItems" = Some (Malformed s) ->
     WatchLater.getWatchLater ls = (Normal (JArr []), ls)) /\
  (forall v, ls !! "watchLaterItems" = Some (Encoded v) ->
     WatchLater.getWatchLater ls = (Normal v, ls)) /\
  (ls !! "streamVerseWatchLater" = None \/
   ls !! "streamVerseWatchLater" = Some (Malformed "") ->
     Main.getWatchLaterList ls = (Normal (JArr []), ls)) /\
  (forall v, ls !! "streamVerseWatchLater" = Some (Encoded v) ->
     Main.getWatchLaterList ls = (Normal v, ls)).
Proof.
  rewrite WatchLater_getWatchLater_run, Explore_getWatchLater_run,
    Movie_getWatchLater_run, Main_getWatchLaterList_run.
  repeat apply conj.
  - eauto.
  - intros ->. reflexivity.
  - intros s ->. reflexivity.
  - intros v ->. reflexivity.
  - intros [-> | ->]; reflexivity.
  - intros v ->. reflexivity.
Qed.

Lemma load_fails_open_witness :
  WatchLater.getWatchLater ∅ = (Normal (JArr []), ∅) /\
  WatchLater.getWatchLater {[ "watchLaterItems" := Malformed "{oops" ]}
  = (Normal (JArr []), {[ "watchLaterItems" := Malformed "{oops" ]}) /\
  WatchLater.getWatchLater {[ "watchLaterItems" := Encoded (JNum 7) ]}
  = (Normal (JNum 7), {[ "watchLaterItems" := Encoded (JNum 7) ]}) /\
  Main.getWatchLaterList ∅ = (Normal (JArr []), ∅) /\
  Main.getWatchLaterList {[ "streamVerseWatchLater" := Encoded (JArr [JNull]) ]}
  = (Normal (JArr [JNull]), {[ "streamVerseWatchLater" := Encoded (JArr [JNull]) ]}).
Proof.
  split; [|split; [|split; [|split]]].
  - destruct (load_fails_open_on_missing_or_unparsable ∅) as (_ & H & _).
    apply H. reflexivity.
  - destruct (load_fails_open_on_missing_or_unparsable
                {[ "watchLaterItems" := Malformed "{oops" ]}) as (_ & _ & H & _).
    apply (H "{oops"). reflexivity.
  - destruct (load_fails_open_on_missing_or_unparsable
                {[ "watchLaterItems" := Encoded (JNum 7) ]}) as (_ & _ & _ & H & _).
    apply H. reflexivity.
  - destruct (load_fails_open_on_missing_or_unparsable ∅) as (_ & _ & _ & _ & H & _).
    apply H. left. reflexivity.
  - destruct (load_fails_open_on_missing_or_unparsable
                {[ "streamVerseWatchLater" := Encoded (JArr [JNull]) ]})
      as (_ & _ & _ & _ & _ & H).
    apply H. reflexivity.
Defined.

(** ** Running a toggle *)

Lemma Explore_toggle_run x ls :
  Explore.toggleWatchLater x ls =
  match (l ← as_array (stored_value (ls !! "watchLaterItems"));
         toggle_list (same_id_and_media_type x) x l) with
  | Normal (idx, l') =>
      (Normal (idx =? -1), <["watchLaterItems" := Encoded (JArr l')]> ls)
  | Throw e => (Throw e, ls)
  end.
Proof.
  unfold Explore.toggleWatchLater. unfold mbind at 1. unfold js_bind.
  rewrite Explore_getWatchLater_run.
  unfold toggle_list. js_unfold.
  destruct (as_array _) as [l|]; simpl; [|reflexivity].
  destruct (findIndex _ l) as [i|]; reflexivity.
Qed.

Lemma Movie_toggle_Explore x ls :
  Movie.toggleWatchLater x ls = Explore.toggleWatchLater x ls.
Proof.
  rewrite Explore_toggle_run.
  unfold Movie.toggleWatchLater. unfold mbind at 1. unfold js_bind.
  rewrite Movie_getWatchLater_run.
  unfold toggle_list. js_unfold.
  destruct (as_array _) as [l|]; simpl; [|reflexivity].
  destruct (findIndex _ l) as [i|]; reflexivity.
Qed.

Lemma Index_toggle_Explore x ls :
  Index.toggleWatchLater x ls = Explore.toggleWatchLater x ls.
Proof. exact (Movie_toggle_Explore x ls). Qed.

Lemma Tv_toggle_Explore x ls :
  Tv.toggleWatchLater x ls = Explore.toggleWatchLater x ls.
Proof. exact (Movie_toggle_Explore x ls). Qed.

Lemma Main_toggle_run id x ls :
  Main.toggleWatchLater id x ls =
  match (v ← if_stored (ls !! "streamVerseWatchLater") JSON_parse (Normal (JArr []));
         l ← as_array v;
         toggle_list (Main.has_id id) x l) with
  | Normal (_, l') =>
      (Normal VUndefined, <["streamVerseWatchLater" := Encoded (JArr l')]> ls)
  | Throw e => (Throw e, ls)
  end.
Proof.
  unfold Main.toggleWatchLater. unfold mbind at 1. unfold js_bind.
  rewrite Main_getWatchLaterList_run.
  destruct (if_stored _ _ _) as [v|]; simpl; [|reflexivity].
  unfold toggle_list, Main.saveWatchLaterList. js_unfold.
  destruct (as_array v) as [l|]; simpl; [|reflexivity].
  destruct (findIndex _ l) as [i|]; reflexivity.
Qed.

(** On saved items the callbacks complete and decide the key. *)
Lemma same_id_and_media_type_decides (x r : JsVal) :
  x <> JNull -> r <> JNull ->
  same_id_and_media_type x r = Normal (same_key "media_type" x r).
Proof.
  intros Hx Hr. unfold same_id_and_media_type, same_key.
  rewrite !(get_field r), !(get_field x) by done. simpl.
  destruct (strict_eq (field r "id") (field x "id")); reflexivity.
Qed.

Lemma has_id_normal id (r : JsVal) b :
  Main.has_id id r = Normal b -> b = same_id id r.
Proof.
  unfold Main.has_id, same_id. intros H.
  destruct (get_cases r "id") as [[-> _]|[Hr _]]; [discriminate|].
  rewrite get_field in H by done. simpl in H. congruence.
Qed.

Lemma has_id_decides id (r : JsVal) :
  r <> JNull -> Main.has_id id r = Normal (same_id id r).
Proof.
  intros Hr. unfold Main.has_id, same_id. now rewrite get_field by done.
Qed.

Lemma saved_item_not_null kind r : saved_item kind r = true -> r <> JNull.
Proof. intros H ->. discriminate. Qed.

Lemma saved_items_not_null kind l :
  Forall (fun r => saved_item kind r = true) l -> Forall (fun r => r <> JNull) l.
Proof.
  intros H. eapply Forall_impl; [exact H|]. intros r. apply saved_item_not_null.
Qed.

(** A toggle of the Aurora pages either throws and leaves the storage
    alone, or removes the first record with the key of [x] when there is
    one, pushes [x] when there is none, and says which. *)
Lemma Explore_toggle_cases x ls :
  (exists e, Explore.toggleWatchLater x ls = (Throw e, ls)) \/
  (exists l, stored_value (ls !! "watchLaterItems") = JArr l /\
     Explore.toggleWatchLater x ls =
     (Normal (negb (contains "media_type" l x)),
      <["watchLaterItems" :=
          Encoded (JArr (if contains "media_type" l x
                         then remove_first (same_key "media_type" x) l
                         else l ++ [x]))]> ls)).
Proof.
  rewrite Explore_toggle_run.
  destruct (stored_value _) as [| | | |l|]; simpl; eauto.
  destruct (toggle_list _ x l) as [[idx l']|] eqn:H; eauto.
  right. exists l. split; [reflexivity|].
  eapply toggle_list_normal in H as [-> ->];
    [reflexivity | apply same_id_and_media_type_normal].
Qed.

(** On a stored list of saved items it does not throw. *)
Lemma Explore_toggle_saved_items x l ls :
  stored_value (ls !! "watchLaterItems") = JArr l ->
  Forall (fun r => r <> JNull) l -> x <> JNull ->
  Explore.toggleWatchLater x ls =
  (Normal (negb (contains "media_type" l x)),
   <["watchLaterItems" :=
       Encoded (JArr (if contains "media_type" l x
                      then remove_first (same_key "media_type" x) l
                      else l ++ [x]))]> ls).
Proof.
  intros Hl Hnn Hx.
  destruct (Explore_toggle_cases x ls) as [[e He]|(l0 & Hl0 & H)].
  - exfalso. rewrite Explore_toggle_run, Hl in He. simpl in He.
    destruct (toggle_list_decided (same_id_and_media_type x)
                (same_key "media_type" x) x l) as (idx & l' & Ht).
    + eapply Forall_impl; [exact Hnn|]. intros r Hr.
      now apply same_id_and_media_type_decides.
    + rewrite Ht in He. discriminate.
  - rewrite Hl in Hl0. injection Hl0 as <-. exact H.
Qed.

Lemma Main_toggle_cases id x ls :
  (exists e, Main.toggleWatchLater id x ls = (Throw e, ls)) \/
  (exists l, Main.getWatchLaterList ls = (Normal (JArr l), ls) /\
     Main.toggleWatchLater id x ls =
     (Normal VUndefined,
      <["streamVerseWatchLater" :=
          Encoded (JArr (if existsb (same_id id) l
                         then remove_first (same_id id) l
                         else l ++ [x]))]> ls)).
Proof.
  rewrite Main_toggle_run, Main_getWatchLaterList_run.
  destruct (if_stored _ _ _) as [[| | | |l|]|]; simpl; eauto.
  destruct (toggle_list _ x l) as [[idx l']|] eqn:H; eauto.
  right. exists l. split; [reflexivity|].
  eapply toggle_list_normal in H as [_ ->]; [reflexivity | apply has_id_normal].
Qed.

Lemma Main_toggle_saved_items id x l ls :
  Main.getWatchLaterList ls = (Normal (JArr l), ls) ->
  Forall (fun r => r <> JNull) l ->
  Main.toggleWatchLater id x ls =
  (Normal VUndefined,
   <["streamVerseWatchLater" :=
       Encoded (JArr (if existsb (same_id id) l
                      then remove_first (same_id id) l
                      else l ++ [x]))]> ls).
Proof.
  intros Hl Hnn.
  destruct (Main_toggle_cases id x ls) as [[e He]|(l0 & Hl0 & H)].
  - exfalso. rewrite Main_toggle_run in He.
    rewrite Main_getWatchLaterList_run in Hl. injection Hl as Hl.
    rewrite Hl in He. simpl in He.
    destruct (toggle_list_decided (Main.has_id id) (same_id id) x l)
      as (idx & l' & Ht).
    + eapply Forall_impl; [exact Hnn|]. intros r Hr. now apply has_id_decides.
    + rewrite Ht in He. discriminate.
  - rewrite Hl in Hl0. injection Hl0 as <-. exact H.
Qed.

(** ** Key independence (C1) *)






(** ** What a toggle returns (C3) *)

Lemma some_decided p m l :
  Forall (fun r => p r = Normal (m r)) l -> some p l = Normal (existsb m l).
Proof.
  induction 1 as [|r l Hr _ IH]; simpl; [reflexivity|].
  rewrite Hr. simpl. destruct (m r); simpl; [reflexivity | exact IH].
Qed.

(** The pre-check of explore.js is membership by key. *)
Lemma Explore_saved_run (x : JsVal) l ls :
  stored_value (ls !! "watchLaterItems") = JArr l ->
  Forall (fun r => r <> JNull) l -> x <> JNull ->
  Explore.saved x ls = (Normal (contains "media_type" l x), ls).
Proof.
  intros Hl Hnn Hx. unfold Explore.saved. unfold mbind at 1. unfold js_bind.
  rewrite Explore_getWatchLater_run, Hl. js_unfold. simpl.
  erewrite some_decided; [reflexivity|].
  eapply Forall_impl; [exact Hnn|]. intros r Hr.
  now apply same_id_and_media_type_decides.
Qed.

(** C3, as stated, fails on js/main.js: [toggleWatchLater] has no
    [return], and a call that adds the item evaluates to [undefined],
    not to [true]. *)
Lemma Main_toggle_returns_undefined :
  let inception := record "type" 27205 "movie" "Inception" in
  (Main.getWatchLaterList ∅).1 = Normal (JArr []) /\
  (Main.toggleWatchLater (field inception "id") inception ∅).1 = Normal VUndefined /\
  (Main.toggleWatchLater (field inception "id") inception ∅).1
  <> Normal (VJson (JBool true)).
Proof. vm_compute. repeat split. discriminate. Qed.

(** C3, amended: on the Aurora pages [toggleWatchLater(x)] returns
    [true] exactly when no stored record has the (id, media_type) of [x],
    and then stores the list with [x] pushed; it returns [false] exactly
    when one has, and then stores the list without the first such
    record.  From the empty store, toggling Inception returns [true] and
    the pre-check then finds it; toggling it again returns [false] and
    the pre-check finds it no more.  [toggleWatchLater] of js/main.js
    returns no value: a call that completes evaluates to [undefined];
    from the empty store [checkWatchLaterStatus(27205)] is [true] after
    one toggle of that id and [false] after two. *)
Theorem toggle_reports_added :
  (forall (ls : Storage) (x : JsVal) (l : list JsVal),
     saved_item "media_type" x = true ->
     Forall (fun r => saved_item "media_type" r = true) l ->
     (Movie.getWatchLater ls).1 = Normal (JArr l) ->
     Explore.saved x ls = (Normal (contains "media_type" l x), ls) /\
     Movie.toggleWatchLater x ls =
     (Normal (negb (contains "media_type" l x)),
      <["watchLaterItems" :=
          Encoded (JArr (if contains "media_type" l x
                         then remove_first (same_key "media_type" x) l
                         else l ++ [x]))]> ls)) /\
  (let inception := record "media_type" 27205 "movie" "Inception" in
   let once := (Movie.toggleWatchLater inception ∅).2 in
   let twice := (Movie.toggleWatchLater inception once).2 in
   (Movie.toggleWatchLater inception ∅).1 = Normal true /\
   (Movie.saved inception once).1 = Normal true /\
   (Movie.toggleWatchLater inception once).1 = Normal false /\
   (Movie.saved inception twice).1 = Normal false) /\
  (forall (ls : Storage) (id : Value) (x : JsVal) (v : Value),
     (Main.toggleWatchLater id x ls).1 = Normal v -> v = VUndefined) /\
  (let inception := record "type" 27205 "movie" "Inception" in
   let id := field inception "id" in
   let once := (Main.toggleWatchLater id inception ∅).2 in
   let twice := (Main.toggleWatchLater id inception once).2 in
   (Main.checkWatchLaterStatus id once).1 = Normal true /\
   (Main.checkWatchLaterStatus id twice).1 = Normal false).
Proof.
  split; [|split; [|split]].
  - intros ls x l Hx Hl Hls.
    rewrite Movie_getWatchLater_run in Hls. simpl in Hls. injection Hls as Hls.
    pose proof (saved_items_not_null _ _ Hl) as Hnn.
    pose proof (saved_item_not_null _ _ Hx) as Hxn.
    split.
    + now apply Explore_saved_run.
    + rewrite Movie_toggle_Explore. now apply Explore_toggle_saved_items.
  - vm_compute. repeat split.
  - intros ls id x v H.
    destruct (Main_toggle_cases id x ls) as [[e He]|(l & _ & Hl)].
    + rewrite He in H. discriminate.
    + rewrite Hl in H. simpl in H. congruence.
  - vm_compute. repeat split.
Qed.

(** With Inception stored, toggling Inception returns [false] and empties
    the list. *)
Lemma toggle_reports_added_witness :
  let inception := record "media_type" 27205 "movie" "Inception" in
  let ls : Storage := {[ "watchLaterItems" := Encoded (JArr [inception]) ]} in
  Explore.saved inception ls = (Normal true, ls) /\
  Movie.toggleWatchLater inception ls
  = (Normal false, <["watchLaterItems" := Encoded (JArr [])]> ls) /\
  (Main.toggleWatchLater (JNum 27205) (record "type" 27205 "movie" "Inception") ∅).1
  = Normal VUndefined.
Proof.
  intros inception ls.
  destruct toggle_reports_added as (H & _ & Hm & _).
  destruct (H ls inception [inception]) as [H1 H2].
  - reflexivity.
  - repeat constructor.
  - reflexivity.
  - split; [exact H1|]. split; [exact H2|].
    destruct (Main.toggleWatchLater (JNum 27205)
                (record "type" 27205 "movie" "Inception") ∅).1 as [v|e] eqn:E.
    + f_equal. exact (Hm _ _ _ _ E).
    + vm_compute in E. discriminate.
Defined.

(** ** Toggling twice (C4) *)



Lemma existsb_split m (l : list JsVal) :
  existsb m l = true ->
  exists pre r post, l = pre ++ r :: post /\
    Forall (fun a => m a = false) pre /\ m r = true.
Proof.
  induction l as [|a l IH]; simpl; [discriminate|].
  destruct (m a) eqn:Ha; simpl.
  - intros _. exists [], a, l. repeat split; [constructor | exact Ha].
  - intros (pre & r & post & -> & Hpre & Hr)%IH.
    exists (a :: pre), r, post. repeat split; [constructor; assumption | exact Hr].
Qed.

Lemma remove_first_Forall (P : JsVal -> Prop) m l :
  Forall P l -> Forall P (remove_first m l).
Proof.
  induction 1 as [|a l Ha Hl IH]; simpl; [constructor|].
  destruct (m a); [assumption | constructor; assumption].
Qed.






(** ** The uniqueness invariant (C5) *)





Section Invariant.
Variable kind : string.




End Invariant.






(** ** The remove button of the list page (C6) *)

Lemma removeBtn_click_run (x : JsVal) ls :
  WatchLater.removeBtn_click x ls =
  match (l ← as_array (stored_value (ls !! "watchLaterItems"));
         idx ← findIndex (same_id_and_media_type x) l;
         Normal (idx, l)) with
  | Normal (idx, l) =>
      (Normal tt,
       if idx >? -1
       then <["watchLaterItems" := Encoded (JArr (splice1 idx l))]> ls
       else ls)
  | Throw e => (Throw e, ls)
  end.
Proof.
  unfold WatchLater.removeBtn_click. unfold mbind at 1. unfold js_bind.
  rewrite WatchLater_getWatchLater_run.
  unfold WatchLater.saveWatchLater, WatchLater.WATCH_LATER_KEY. js_unfold.
  destruct (as_array _) as [l|]; simpl; [|reflexivity].
  destruct (findIndex _ l) as [i|]; simpl; [|reflexivity].
  destruct (i >? -1); reflexivity.
Qed.

(** C6: the remove button of the card of [item] splices out the first
    stored record that has both the id and the media_type of [item], and
    nothing else; when no record has, it leaves the storage alone.  With
    the series and the movie of id 1396 stored, the button of the series
    leaves exactly the movie. *)
Theorem remove_button_removes_first_match :
  (forall (ls : Storage) (item : JsVal) (pre : list JsVal) (r : JsVal)
          (post : list JsVal),
     item <> JNull ->
     (WatchLater.getWatchLater ls).1 = Normal (JArr (pre ++ r :: post)) ->
     Forall (fun a => a <> JNull /\ same_key "media_type" item a = false) pre ->
     r <> JNull -> same_key "media_type" item r = true ->
     (WatchLater.removeBtn_click item ls).2
     = <["watchLaterItems" := Encoded (JArr (pre ++ post))]> ls) /\
  (forall (ls : Storage) (item : JsVal) (l : list JsVal),
     item <> JNull ->
     (WatchLater.getWatchLater ls).1 = Normal (JArr l) ->
     Forall (fun a => a <> JNull /\ same_key "media_type" item a = false) l ->
     (WatchLater.removeBtn_click item ls).2 = ls) /\
  (let series := record "media_type" 1396 "tv" "Breaking Bad" in
   let movie := record "media_type" 1396 "movie" "Breaking Bad" in
   let ls : Storage := {[ "watchLaterItems" := Encoded (JArr [series; movie]) ]} in
   (WatchLater.getWatchLater (WatchLater.removeBtn_click series ls).2).1
   = Normal (JArr [movie])).
Proof.
  assert (forall (item : JsVal) l, item <> JNull ->
            Forall (fun a => a <> JNull /\ same_key "media_type" item a = false) l ->
            Forall (fun a => same_id_and_media_type item a = Normal false) l) as Hrej.
  { intros item l Hi H. eapply Forall_impl; [exact H|]. intros a [Ha Hk]. simpl in *.
    now rewrite same_id_and_media_type_decides, Hk. }
  split; [|split].
  - intros ls item pre r post Hi Hls Hpre Hr Hk.
    rewrite WatchLater_getWatchLater_run in Hls. simpl in Hls. injection Hls as Hls.
    rewrite removeBtn_click_run, Hls. simpl.
    rewrite (findIndex_first _ pre r post).
    + simpl. rewrite splice1_at.
      destruct (Z.gtb_spec (Z.of_nat (length pre)) (-1)); [reflexivity | lia].
    + now apply Hrej.
    + now rewrite same_id_and_media_type_decides, Hk.
  - intros ls item l Hi Hls Hl.
    rewrite WatchLater_getWatchLater_run in Hls. simpl in Hls. injection Hls as Hls.
    rewrite removeBtn_click_run, Hls. simpl.
    rewrite findIndex_none by now apply Hrej. reflexivity.
  - vm_compute. reflexivity.
Qed.

(** With Inception between two other records, its button removes it and
    keeps the two; the button of a record that is not stored changes
    nothing. *)
Lemma remove_button_witness :
  let inception := record "media_type" 27205 "movie" "Inception" in
  let dune := record "media_type" 438631 "movie" "Dune" in
  let series := record "media_type" 1396 "tv" "Breaking Bad" in
  let ls : Storage :=
    {[ "watchLaterItems" := Encoded (JArr [dune; inception; series]) ]} in
  let ls' : Storage := {[ "watchLaterItems" := Encoded (JArr [dune; series]) ]} in
  (WatchLater.removeBtn_click inception ls).2
  = <["watchLaterItems" := Encoded (JArr [dune; series])]> ls /\
  (WatchLater.removeBtn_click inception ls').2 = ls'.
Proof.
  intros inception dune series ls ls'.
  destruct remove_button_removes_first_match as (H1 & H2 & _). split.
  - apply (H1 ls inception [dune] inception [series]).
    + discriminate.
    + reflexivity.
    + repeat constructor. discriminate.
    + discriminate.
    + reflexivity.
  - apply (H2 ls' inception [dune; series]).
    + discriminate.
    + reflexivity.
    + repeat constructor; discriminate.
Defined.

(** ** Rating badges (C7) *)

Lemma unrated_falsy (v : Value) : unrated v -> truthy v = false.
Proof.
  intros [-> | [-> | (q & -> & Hq)]]; simpl; try reflexivity.
  apply Qeq_bool_iff in Hq. now rewrite Hq.
Qed.

(** C7: a rating of exactly 0 and an absent rating are rendered alike.
    [formatRating] of js/main.js prints ['N/A'] for the number 0, for
    [undefined] and for [null]; the rating badge of a card of
    watch-later.js prints the dash for every item whose [vote_average]
    is 0, absent or [null]. *)
Theorem rating_zero_as_absent (Number_toString : Q -> string) :
  (forall vote, unrated vote ->
     Main.formatRating Number_toString vote = Normal "N/A") /\
  (forall props, unrated (assoc "vote_average" props) ->
     WatchLater.rating_textContent Number_toString (JObj props) = Normal "–").
Proof.
  split.
  - intros vote H. unfold Main.formatRating. now rewrite (unrated_falsy _ H).
  - intros props H. unfold WatchLater.rating_textContent.
    rewrite get_field by discriminate. simpl.
    now rewrite (unrated_falsy _ H).
Qed.

Lemma rating_zero_as_absent_witness :
  Main.formatRating (fun _ => "") (JNum 0) = Normal "N/A" /\
  Main.formatRating (fun _ => "") VUndefined = Normal "N/A" /\
  WatchLater.rating_textContent (fun _ => "")
    (JObj [("id", JNum 27205); ("vote_average", JNum 0)]) = Normal "–" /\
  WatchLater.rating_textContent (fun _ => "")
    (JObj [("id", JNum 27205)]) = Normal "–".
Proof.
  pose proof (rating_zero_as_absent (fun _ => "")) as [Hmain Hcard].
  split; [|split; [|split]].
  - apply Hmain. right; right. exists 0%Q. split; reflexivity.
  - apply Hmain. left. reflexivity.
  - apply Hcard. right; right. exists 0%Q. split; reflexivity.
  - apply Hcard. left. reflexivity.
Defined.

(** ** Refreshing the save controls (C8) *)

Lemma page_eta (pg : Main.Page) :
  {| Main.localStorage := Main.localStorage pg; Main.spans := Main.spans pg;
     Main.document := Main.document pg |} = pg.
Proof. destruct pg; reflexivity. Qed.

(** The status check reads the storage and leaves it alone. *)
Lemma checkWatchLaterStatus_reads id ls : (Main.checkWatchLaterStatus id ls).2 = ls.
Proof.
  unfold Main.checkWatchLaterStatus. unfold mbind at 1. unfold js_bind.
  rewrite Main_getWatchLaterList_run.
  destruct (if_stored _ _ _) as [v|]; [|reflexivity].
  js_unfold. destruct (as_array v); reflexivity.
Qed.

Lemma assign_run btn g pg e :
  Main.document pg !! btn = Some e ->
  Main.assign btn g pg =
  match g e with
  | Normal e' =>
      (Normal tt, {| Main.localStorage := Main.localStorage pg;
                     Main.spans := Main.spans pg;
                     Main.document := <[btn := e']> (Main.document pg) |})
  | Throw x => (Throw x, pg)
  end.
Proof. intros H. unfold Main.assign. now rewrite H. Qed.

Lemma on_icon_run btn f pg e :
  Main.document pg !! btn = Some e ->
  Main.on_icon btn f pg =
  match Main.icon e ≫= (Main.spans pg !!.) with
  | Some ic =>
      (Normal tt, {| Main.localStorage := Main.localStorage pg;
                     Main.spans := <[default 0%nat (Main.icon e) := f ic]> (Main.spans pg);
                     Main.document := Main.document pg |})
  | None => (Throw TypeError, pg)
  end.
Proof.
  intros H. unfold Main.on_icon. rewrite H.
  destruct (Main.icon e) as [k|]; simpl; [|reflexivity].
  destruct (Main.spans pg !! k); reflexivity.
Qed.

Lemma filter_idem {A} (f : A -> bool) (l : list A) :
  List.filter f (List.filter f l) = List.filter f l.
Proof.
  induction l as [|c l IH]; simpl; [reflexivity|].
  destruct (f c) eqn:E; simpl; [|exact IH].
  rewrite E. now rewrite IH.
Qed.

Lemma existsb_filter {A} (g f : A -> bool) (l : list A) :
  (forall c, g c = true -> f c = true) ->
  existsb g (List.filter f l) = existsb g l.
Proof.
  intros Hgf. induction l as [|c l IH]; simpl; [reflexivity|].
  destruct (f c) eqn:E; simpl; [now rewrite IH|].
  destruct (g c) eqn:E'; [|exact IH].
  apply Hgf in E'. congruence.
Qed.

#[local] Arguments String.eqb : simpl never.

(** A call of [updateWatchLaterButtonUI] on the control [e] gives the
    look of the status to its span and to the control, in that order:
    without a span nothing is changed. *)
Lemma updateWatchLaterButtonUI_run btn id pg e :
  Main.document pg !! btn = Some e ->
  Main.updateWatchLaterButtonUI btn id pg =
  match (Main.checkWatchLaterStatus id (Main.localStorage pg)).1 with
  | Normal saved =>
      match Main.icon e with
      | Some k =>
          if (k <? length (Main.spans pg))%nat then
            (Normal tt, {| Main.localStorage := Main.localStorage pg;
                           Main.spans := <[k := icon_look saved]> (Main.spans pg);
                           Main.document :=
                             <[btn := control_look saved e]> (Main.document pg) |})
          else (Throw TypeError, pg)
      | None => (Throw TypeError, pg)
      end
  | Throw x => (Throw x, pg)
  end.
Proof.
  intros H. pose proof (lookup_lt_Some _ _ _ H) as Hlt.
  unfold Main.updateWatchLaterButtonUI. unfold mbind at 1. unfold js_bind, Main.with_storage.
  pose proof (checkWatchLaterStatus_reads id (Main.localStorage pg)) as Hr.
  destruct (Main.checkWatchLaterStatus id (Main.localStorage pg)) as [c ls'].
  simpl in Hr. subst ls'. rewrite page_eta. simpl.
  destruct c as [saved|x]; [|reflexivity].
  unfold Main.icon_set_textContent, Main.icon_set_fontFamily, Main.classList_add,
    Main.classList_remove, Main.set_ariaLabel.
  destruct (Main.icon e) as [k|] eqn:Hic.
  - destruct (Nat.ltb_spec k (length (Main.spans pg))) as [Hk|Hk].
    + destruct (lookup_lt_is_Some_2 _ _ Hk) as [ic Hicon].
      destruct saved; unfold mbind, js_bind;
        rewrite (on_icon_run _ _ _ _ H), Hic; simpl; rewrite Hicon;
        rewrite (on_icon_run _ _ _ e) by exact H; rewrite Hic; simpl;
        rewrite list_lookup_insert_eq by exact Hk; simpl;
        rewrite list_insert_insert_eq;
        repeat (erewrite assign_run;
                [|simpl; first [exact H
                               |apply list_lookup_insert_eq; rewrite ?length_insert; exact Hlt]];
                simpl; rewrite ?list_insert_insert_eq);
        unfold control_look, icon_look, Main.has_class; simpl; rewrite ?Hic; reflexivity.
    + apply lookup_ge_None_2 in Hk.
      destruct saved; unfold mbind, js_bind;
        rewrite (on_icon_run _ _ _ _ H), Hic; simpl; rewrite Hk; reflexivity.
  - destruct saved; unfold mbind, js_bind;
      rewrite (on_icon_run _ _ _ _ H), Hic; reflexivity.
Qed.

(** One turn of the loop of [updateAllWatchLaterButtons], on the
    control [btn]. *)
Lemma refresh_turn btn pg e :
  Main.document pg !! btn = Some e ->
  Main.has_class "btn-add-list" e = true ->
  (id ← Main.read btn (fun e => Normal (parseInt (Main.dataset_id e)));
   if truthy id then Main.updateWatchLaterButtonUI btn id else mret tt) pg =
  match refresh_control (Main.localStorage pg) (length (Main.spans pg)) e with
  | Normal (Some (saved, k)) =>
      (Normal tt, {| Main.localStorage := Main.localStorage pg;
                     Main.spans := <[k := icon_look saved]> (Main.spans pg);
                     Main.document := <[btn := control_look saved e]> (Main.document pg) |})
  | Normal None => (Normal tt, pg)
  | Throw x => (Throw x, pg)
  end.
Proof.
  intros H Hc. unfold mbind, js_bind, Main.read. rewrite H.
  unfold refresh_control. rewrite Hc.
  destruct (truthy (parseInt (Main.dataset_id e))); [|reflexivity].
  rewrite (updateWatchLaterButtonUI_run _ _ _ _ H).
  destruct (Main.checkWatchLaterStatus _ _).1 as [saved|x]; simpl; [|reflexivity].
  destruct (Main.icon e) as [k|]; [|reflexivity].
  destruct (k <? length (Main.spans pg))%nat; reflexivity.
Qed.

Lemma refresh_control_no_control ls n e :
  Main.has_class "btn-add-list" e = false -> refresh_control ls n e = Normal None.
Proof. intros H. unfold refresh_control. now rewrite H. Qed.

(** The loop visits the controls in document order and stops at the
    first that throws. *)
Lemma forEach_refresh ls suffix : forall prefix spans,
  Main.forEach (Main.with_class_from "btn-add-list" (length prefix) suffix)
    (fun btn =>
       id ← Main.read btn (fun e => Normal (parseInt (Main.dataset_id e)));
       if truthy id then Main.updateWatchLaterButtonUI btn id else mret tt)
    {| Main.localStorage := ls; Main.spans := spans; Main.document := prefix ++ suffix |} =
  let '(r, (writes, suffix')) := refresh_controls ls (length spans) suffix in
  (r, {| Main.localStorage := ls; Main.spans := write_spans writes spans;
         Main.document := prefix ++ suffix' |}).
Proof.
  induction suffix as [|e rest IH]; intros prefix spans; simpl.
  - reflexivity.
  - assert (forall e', prefix ++ e' :: rest = (prefix ++ [e']) ++ rest) as Happ.
    { intros e'. now rewrite <- app_assoc. }
    assert (forall e', S (length prefix) = length (prefix ++ [e'])) as Hlen.
    { intros e'. rewrite length_app. simpl. lia. }
    destruct (Main.has_class "btn-add-list" e) eqn:Hc.
    + simpl. unfold mbind at 1. unfold js_bind.
      rewrite (refresh_turn _ _ e); [|simpl; now apply list_lookup_middle|exact Hc].
      simpl. destruct (refresh_control ls (length spans) e) as [[[saved k]|]|x];
        [| |reflexivity].
      * replace (<[length prefix := control_look saved e]> (prefix ++ e :: rest))
          with ((prefix ++ [control_look saved e]) ++ rest).
        -- rewrite (Hlen (control_look saved e)), IH, length_insert.
           destruct (refresh_controls ls (length spans) rest) as [r [writes rest']].
           now rewrite <- app_assoc.
        -- rewrite <- app_assoc. simpl.
           rewrite <- (Nat.add_0_r (length prefix)).
           now rewrite insert_app_r.
      * rewrite (Hlen e), Happ, IH.
        destruct (refresh_controls ls (length spans) rest) as [r [writes rest']].
        now rewrite <- app_assoc.
    + rewrite (refresh_control_no_control _ _ _ Hc), (Hlen e), Happ, IH.
      destruct (refresh_controls ls (length spans) rest) as [r [writes rest']].
      now rewrite <- app_assoc.
Qed.

Lemma updateAllWatchLaterButtons_run pg :
  Main.updateAllWatchLaterButtons pg =
  let '(r, (writes, doc')) :=
    refresh_controls (Main.localStorage pg) (length (Main.spans pg)) (Main.document pg) in
  (r, {| Main.localStorage := Main.localStorage pg;
         Main.spans := write_spans writes (Main.spans pg);
         Main.document := doc' |}).
Proof.
  unfold Main.updateAllWatchLaterButtons. unfold mbind at 1.
  unfold js_bind, Main.querySelectorAll.
  destruct pg as [ls spans doc]. simpl. exact (forEach_refresh ls doc [] spans).
Qed.

(** Giving a control its look twice is giving it once. *)
Lemma control_look_idem saved e :
  control_look saved (control_look saved e) = control_look saved e.
Proof.
  destruct e as [cl did ic al]. unfold control_look, Main.has_class. simpl.
  f_equal. destruct saved.
  - destruct (existsb (String.eqb "added") cl) eqn:E; simpl.
    + now rewrite E.
    + rewrite existsb_app. simpl. now rewrite orb_true_r.
  - apply filter_idem.
Qed.

(** The look leaves the class that selects the control, its [data-id]
    and its span alone. *)
Lemma control_look_keeps saved e :
  Main.has_class "btn-add-list" (control_look saved e) = Main.has_class "btn-add-list" e /\
  Main.dataset_id (control_look saved e) = Main.dataset_id e /\
  Main.icon (control_look saved e) = Main.icon e.
Proof.
  destruct e as [cl did ic al]. unfold control_look, Main.has_class. simpl.
  split; [|split; reflexivity].
  destruct saved.
  - destruct (existsb (String.eqb "added") cl); [reflexivity|].
    rewrite existsb_app. apply orb_false_r.
  - apply existsb_filter. now intros c <-%String.eqb_eq.
Qed.

Lemma refresh_control_look ls n saved e :
  refresh_control ls n (control_look saved e) = refresh_control ls n e.
Proof.
  destruct (control_look_keeps saved e) as (Hc & Hd & Hi).
  unfold refresh_control. now rewrite Hc, Hd, Hi.
Qed.

(** On the elements as a round leaves them, a round decides and does
    what it did. *)
Lemma refresh_controls_idem ls n doc :
  refresh_controls ls n (refresh_controls ls n doc).2.2 = refresh_controls ls n doc.
Proof.
  induction doc as [|e rest IH]; simpl; [reflexivity|].
  destruct (refresh_control ls n e) as [[[saved k]|]|x] eqn:He.
  - destruct (refresh_controls ls n rest) as [r [writes rest']] eqn:Hr. simpl in *.
    now rewrite refresh_control_look, He, control_look_idem, IH.
  - destruct (refresh_controls ls n rest) as [r [writes rest']] eqn:Hr. simpl in *.
    now rewrite He, IH.
  - simpl. now rewrite He.
Qed.

Lemma write_spans_length writes : forall spans,
  length (write_spans writes spans) = length spans.
Proof.
  induction writes as [|w writes IH]; intros spans; [reflexivity|].
  unfold write_spans in *. simpl. now rewrite IH, length_insert.
Qed.

(** A span holds the look it was given last, and what it held when it
    was given none. *)
Lemma write_spans_lookup writes : forall spans k,
  write_spans writes spans !! k =
  match last_write writes k with
  | Some v => if (k <? length spans)%nat then Some v else None
  | None => spans !! k
  end.
Proof.
  induction writes as [|[j v] writes IH]; intros spans k; [reflexivity|].
  unfold write_spans in *. simpl. rewrite IH, length_insert.
  destruct (last_write writes k) as [v'|]; [reflexivity|].
  destruct (Nat.eqb_spec j k) as [->|Hne].
  - destruct (Nat.ltb_spec k (length spans)) as [Hk|Hk].
    + now apply list_lookup_insert_eq.
    + apply lookup_ge_None_2. rewrite length_insert. lia.
  - now apply list_lookup_insert_ne.
Qed.

Lemma write_spans_idem writes spans :
  write_spans writes (write_spans writes spans) = write_spans writes spans.
Proof.
  apply list_eq. intros k.
  rewrite (write_spans_lookup writes (write_spans writes spans)), write_spans_length.
  rewrite (write_spans_lookup writes spans).
  destruct (last_write writes k); reflexivity.
Qed.

(** C8: with the store as it is, a second run of
    [updateAllWatchLaterButtons] completes as the first did and leaves
    every control with the icon, the classes and the label the first run
    gave it; neither run writes to the store. *)
Theorem refresh_all_controls_idempotent (pg : Main.Page) :
  Main.updateAllWatchLaterButtons (Main.updateAllWatchLaterButtons pg).2
  = Main.updateAllWatchLaterButtons pg /\
  Main.localStorage (Main.updateAllWatchLaterButtons pg).2 = Main.localStorage pg.
Proof.
  rewrite !updateAllWatchLaterButtons_run.
  pose proof (refresh_controls_idem (Main.localStorage pg) (length (Main.spans pg))
                (Main.document pg)) as H.
  destruct (refresh_controls (Main.localStorage pg) (length (Main.spans pg))
              (Main.document pg)) as [r [writes doc']].
  simpl in *. rewrite write_spans_length, H, write_spans_idem. split; reflexivity.
Qed.

(** A page with a card around the control of a saved item, a control of
    an item that is not saved, and a link: the first run fills the one
    icon, outlines the other and leaves the elements that are no
    controls as they are; the card finds the icon of its control
    filled. *)
Example refresh_all_controls_once :
  let control id span :=
    {| Main.classList := ["btn-icon"; "btn-add-list"]; Main.dataset_id := Some id;
       Main.icon := Some span; Main.ariaLabel := Some "Add to Watch Later" |} in
  let card :=
    {| Main.classList := ["media-card"]; Main.dataset_id := None;
       Main.icon := Some 0%nat; Main.ariaLabel := None |} in
  let link :=
    {| Main.classList := ["card-link"]; Main.dataset_id := None;
       Main.icon := None; Main.ariaLabel := None |} in
  let outline := {| Main.textContent := "bookmark_border"; Main.fontFamily := "" |} in
  let ls : Storage :=
    {[ "streamVerseWatchLater" :=
         Encoded (JArr [record "type" 27205 "movie" "Inception"]) ]} in
  let pg :=
    {| Main.localStorage := ls; Main.spans := [outline; outline];
       Main.document := [card; link; control "27205" 0%nat; control "1396" 1%nat] |} in
  (Main.updateAllWatchLaterButtons pg).1 = Normal tt /\
  Main.spans (Main.updateAllWatchLaterButtons pg).2
  = [ {| Main.textContent := "bookmark"; Main.fontFamily := "Material Icons" |};
      {| Main.textContent := "bookmark_border";
         Main.fontFamily := "Material Icons Outlined" |} ] /\
  Main.document (Main.updateAllWatchLaterButtons pg).2
  = [ card; link;
      {| Main.classList := ["btn-icon"; "btn-add-list"; "added"];
         Main.dataset_id := Some "27205"; Main.icon := Some 0%nat;
         Main.ariaLabel := Some "Remove from Watch Later" |};
      {| Main.classList := ["btn-icon"; "btn-add-list"];
         Main.dataset_id := Some "1396"; Main.icon := Some 1%nat;
         Main.ariaLabel := Some "Add to Watch Later" |} ].
Proof. vm_compute. repeat split. Qed.

(** ** Two stores, two keys (C9) *)

(** An operation that looks up [key] and then, at most, stores under
    [key] is confined to it. *)
Lemma confined_intro {A} key (op : JS Storage A)
    (f : option Entry -> Completion A * option Entry) :
  (forall ls : Storage,
     op ls = ((f (ls !! key)).1,
              match (f (ls !! key)).2 with
              | Some e => <[key := e]> ls
              | None => ls
              end)) ->
  confined_to key op.
Proof.
  intros Hop. split.
  - intros ls k Hk. rewrite Hop. simpl.
    destruct (f (ls !! key)).2; [now rewrite lookup_insert_ne | reflexivity].
  - intros ls ls' H. rewrite !Hop. simpl. rewrite <- H.
    destruct (f (ls !! key)).2; [now rewrite !lookup_insert_eq | now split].
Qed.

Lemma Explore_toggle_confined x :
  confined_to "watchLaterItems" (Explore.toggleWatchLater x).
Proof.
  apply (confined_intro _ _ (fun o =>
    match (l ← as_array (stored_value o);
           toggle_list (same_id_and_media_type x) x l) with
    | Normal (idx, l') => (Normal (idx =? -1), Some (Encoded (JArr l')))
    | Throw e => (Throw e, None)
    end)).
  intros ls. rewrite Explore_toggle_run.
  destruct (_ ≫= _) as [[idx l']|]; reflexivity.
Qed.

Lemma removeBtn_click_confined (x : JsVal) :
  confined_to "watchLaterItems" (WatchLater.removeBtn_click x).
Proof.
  apply (confined_intro _ _ (fun o =>
    match (l ← as_array (stored_value o);
           idx ← findIndex (same_id_and_media_type x) l;
           Normal (idx, l)) with
    | Normal (idx, l) =>
        (Normal tt, if idx >? -1 then Some (Encoded (JArr (splice1 idx l))) else None)
    | Throw e => (Throw e, None)
    end)).
  intros ls. rewrite removeBtn_click_run.
  destruct (_ ≫= _) as [[idx l']|]; [|reflexivity].
  destruct (idx >? -1); reflexivity.
Qed.

Lemma Main_toggle_confined id x :
  confined_to "streamVerseWatchLater" (Main.toggleWatchLater id x).
Proof.
  apply (confined_intro _ _ (fun o =>
    match (v ← if_stored o JSON_parse (Normal (JArr []));
           l ← as_array v;
           toggle_list (Main.has_id id) x l) with
    | Normal (_, l') => (Normal VUndefined, Some (Encoded (JArr l')))
    | Throw e => (Throw e, None)
    end)).
  intros ls. rewrite Main_toggle_run.
  destruct (_ ≫= _) as [[idx l']|]; reflexivity.
Qed.

Lemma Explore_getWatchLater_confined :
  confined_to "watchLaterItems" Explore.getWatchLater.
Proof.
  apply (confined_intro _ _ (fun o => (Normal (stored_value o), None))).
  intros ls. apply Explore_getWatchLater_run.
Qed.

Lemma Main_getWatchLaterList_confined :
  confined_to "streamVerseWatchLater" Main.getWatchLaterList.
Proof.
  apply (confined_intro _ _
           (fun o => (if_stored o JSON_parse (Normal (JArr [])), None))).
  intros ls. apply Main_getWatchLaterList_run.
Qed.

Lemma saveWatchLater_confined v :
  confined_to "watchLaterItems" (WatchLater.saveWatchLater v).
Proof.
  apply (confined_intro _ _ (fun _ => (Normal tt, Some (Encoded v)))).
  reflexivity.
Qed.

Lemma Explore_saved_confined (x : Value) :
  confined_to "watchLaterItems" (Explore.saved x).
Proof.
  apply (confined_intro _ _ (fun o =>
    ((l ← as_array (stored_value o); some (same_id_and_media_type x) l), None))).
  intros ls. unfold Explore.saved. unfold mbind at 1. unfold js_bind.
  rewrite Explore_getWatchLater_run. js_unfold.
  destruct (as_array _) as [l|]; reflexivity.
Qed.

Lemma saveWatchLaterList_confined v :
  confined_to "streamVerseWatchLater" (Main.saveWatchLaterList v).
Proof.
  apply (confined_intro _ _ (fun _ => (Normal tt, Some (Encoded v)))).
  reflexivity.
Qed.

Lemma checkWatchLaterStatus_confined id :
  confined_to "streamVerseWatchLater" (Main.checkWatchLaterStatus id).
Proof.
  apply (confined_intro _ _ (fun o =>
    ((v ← if_stored o JSON_parse (Normal (JArr []));
      l ← as_array v;
      some (Main.has_id id) l), None))).
  intros ls. unfold Main.checkWatchLaterStatus. unfold mbind at 1. unfold js_bind.
  rewrite Main_getWatchLaterList_run.
  destruct (if_stored _ _ _) as [v|]; [|reflexivity].
  js_unfold. simpl. destruct (as_array v); reflexivity.
Qed.

(** What is stored under another key does not reach a confined read. *)
Lemma confined_unobserved {A B} key key' (op : JS Storage A) (obs : JS Storage B) :
  key <> key' -> confined_to key op -> confined_to key' obs ->
  forall ls, (obs (op ls).2).1 = (obs ls).1.
Proof.
  intros Hk [Hw _] [_ Hr] ls. apply Hr. apply Hw. congruence.
Qed.

(** C9: every page of the Aurora front end keeps its list under the key
    ['watchLaterItems'] and js/main.js under ['streamVerseWatchLater'];
    the loads, the membership checks, the saves, the toggles and the
    remove button of the one front end read and write under its key
    only, and what the other front end loads is the same before and
    after.  The episode memory of the TV page writes under neither
    key. *)
Theorem stores_are_isolated :
  (Explore.WATCH_LATER_KEY = "watchLaterItems" /\
   Movie.WATCH_LATER_KEY = "watchLaterItems" /\
   Index.WATCH_LATER_KEY = "watchLaterItems" /\
   Tv.WATCH_LATER_KEY = "watchLaterItems" /\
   WatchLater.WATCH_LATER_KEY = "watchLaterItems" /\
   Main.WATCH_LATER_KEY = "streamVerseWatchLater" /\
   Main.WATCH_LATER_KEY <> Explore.WATCH_LATER_KEY) /\
  (forall x : JsVal,
     confined_to "watchLaterItems" (Explore.toggleWatchLater x) /\
     confined_to "watchLaterItems" (WatchLater.removeBtn_click x) /\
     confined_to "watchLaterItems" (WatchLater.saveWatchLater x) /\
     confined_to "watchLaterItems" (Explore.saved x) /\
     confined_to "watchLaterItems" Explore.getWatchLater) /\
  (forall (id : Value) (x : JsVal),
     confined_to "streamVerseWatchLater" (Main.toggleWatchLater id x) /\
     confined_to "streamVerseWatchLater" (Main.saveWatchLaterList x) /\
     confined_to "streamVerseWatchLater" (Main.checkWatchLaterStatus id) /\
     confined_to "streamVerseWatchLater" Main.getWatchLaterList) /\
  (forall (x : JsVal) (ls : Storage),
     (Main.getWatchLaterList (Explore.toggleWatchLater x ls).2).1
     = (Main.getWatchLaterList ls).1 /\
     (Main.getWatchLaterList (Movie.toggleWatchLater x ls).2).1
     = (Main.getWatchLaterList ls).1 /\
     (Main.getWatchLaterList (Index.toggleWatchLater x ls).2).1
     = (Main.getWatchLaterList ls).1 /\
     (Main.getWatchLaterList (Tv.toggleWatchLater x ls).2).1
     = (Main.getWatchLaterList ls).1 /\
     (Main.getWatchLaterList (WatchLater.removeBtn_click x ls).2).1
     = (Main.getWatchLaterList ls).1) /\
  (forall (id : Value) (x : JsVal) (ls : Storage),
     (Explore.getWatchLater (Main.toggleWatchLater id x ls).2).1
     = (Explore.getWatchLater ls).1) /\
  (forall (showId seasonNumber : string) (last : JsVal) (ls : Storage),
     (Explore.getWatchLater (Tv.episode_click showId seasonNumber last ls).2).1
     = (Explore.getWatchLater ls).1 /\
     (Main.getWatchLaterList (Tv.episode_click showId seasonNumber last ls).2).1
     = (Main.getWatchLaterList ls).1).
Proof.
  split; [repeat split; discriminate|].
  split; [intros x; split_and!;
            [apply Explore_toggle_confined | apply removeBtn_click_confined
            |apply saveWatchLater_confined | apply Explore_saved_confined
            |apply Explore_getWatchLater_confined]|].
  split; [intros id x; split_and!;
            [apply Main_toggle_confined | apply saveWatchLaterList_confined
            |apply checkWatchLaterStatus_confined
            |apply Main_getWatchLaterList_confined]|].
  split; [|split].
  - intros x ls.
    rewrite Movie_toggle_Explore, Index_toggle_Explore, Tv_toggle_Explore.
    split_and!;
      (eapply (confined_unobserved "watchLaterItems" "streamVerseWatchLater");
       [discriminate | | apply Main_getWatchLaterList_confined]);
      [apply Explore_toggle_confined.. | apply removeBtn_click_confined].
  - intros id x ls.
    eapply (confined_unobserved "streamVerseWatchLater" "watchLaterItems");
      [discriminate | apply Main_toggle_confined | apply Explore_getWatchLater_confined].
  - intros showId seasonNumber last ls.
    rewrite !Explore_getWatchLater_run, !Main_getWatchLaterList_run.
    unfold Tv.episode_click, Tv.getLastWatchedKey. js_unfold. simpl.
    rewrite !lookup_insert_ne by discriminate. split; reflexivity.
Qed.

(** With a list stored under each key, a toggle on an Aurora page
    leaves the list of js/main.js, and a toggle of js/main.js the list
    of the Aurora pages. *)
Lemma stores_are_isolated_witness :
  let inception := record "media_type" 27205 "movie" "Inception" in
  let dune := record "type" 438631 "movie" "Dune" in
  let ls : Storage :=
    {[ "watchLaterItems" := Encoded (JArr [inception]);
       "streamVerseWatchLater" := Encoded (JArr [dune]) ]} in
  (Main.getWatchLaterList (Explore.toggleWatchLater inception ls).2).1
  = Normal (JArr [dune]) /\
  (Explore.getWatchLater (Main.toggleWatchLater (field dune "id") dune ls).2).1
  = Normal (JArr [inception]) /\
  (Explore.toggleWatchLater inception ls).2 !! "streamVerseWatchLater"
  = Some (Encoded (JArr [dune])).
Proof.
  intros inception dune ls.
  destruct stores_are_isolated as (_ & Hc & _ & HA & HM & _). split; [|split].
  - destruct (HA inception ls) as [-> _]. reflexivity.
  - rewrite HM. reflexivity.
  - destruct (Hc inception) as ([Hw _] & _). rewrite Hw; [reflexivity | discriminate].
Defined.

(** ** Membership looks at the key alone (C10) *)

Section SameKeys.
Variables p q : JsVal -> Completion bool.

(** Two arrays on which two callbacks answer alike, element by
    element. *)
Let alike (l1 l2 : list JsVal) : Prop := Forall2 (fun a b => p a = q b) l1 l2.

Lemma findIndex_alike l1 l2 : alike l1 l2 -> findIndex p l1 = findIndex q l2.
Proof.
  induction 1 as [|a b l1 l2 Hab _ IH]; simpl; [reflexivity|].
  now rewrite Hab, IH.
Qed.

Lemma some_alike l1 l2 : alike l1 l2 -> some p l1 = some q l2.
Proof.
  induction 1 as [|a b l1 l2 Hab _ IH]; simpl; [reflexivity|].
  now rewrite Hab, IH.
Qed.

End SameKeys.

Lemma same_id_and_media_type_key_fields (x1 x2 a b : JsVal) :
  key_fields x1 = key_fields x2 -> key_fields a = key_fields b ->
  same_id_and_media_type x1 a = same_id_and_media_type x2 b.
Proof.
  unfold key_fields, same_id_and_media_type. intros [= Hx1 Hx2] [= Ha1 Ha2].
  now rewrite Hx1, Hx2, Ha1, Ha2.
Qed.

(** What a toggle of explore.js returns is read off [findIndex]. *)
Lemma Explore_toggle_result x ls :
  (Explore.toggleWatchLater x ls).1 =
  (l ← as_array (stored_value (ls !! "watchLaterItems"));
   idx ← findIndex (same_id_and_media_type x) l;
   Normal (idx =? -1)).
Proof.
  rewrite Explore_toggle_run. unfold toggle_list.
  destruct (as_array _) as [l|]; simpl; [|reflexivity].
  destruct (findIndex _ l); reflexivity.
Qed.

Lemma Explore_saved_result (x : Value) ls :
  (Explore.saved x ls).1 =
  (l ← as_array (stored_value (ls !! "watchLaterItems"));
   some (same_id_and_media_type x) l).
Proof.
  unfold Explore.saved. unfold mbind at 1. unfold js_bind.
  rewrite Explore_getWatchLater_run. js_unfold.
  destruct (as_array _) as [l|]; reflexivity.
Qed.

Lemma Movie_saved_result (movie : Value) ls :
  (Movie.saved movie ls).1 =
  (l ← as_array (stored_value (ls !! "watchLaterItems"));
   some (fun i =>
           a ← get i "id";
           b ← get movie "id";
           if strict_eq a b then
             c ← get i "media_type";
             Normal (strict_eq c (JStr "movie"))
           else Normal false) l).
Proof.
  unfold Movie.saved. unfold mbind at 1. unfold js_bind.
  rewrite Movie_getWatchLater_run. js_unfold.
  destruct (as_array _) as [l|]; reflexivity.
Qed.

Lemma Tv_saved_result (show : Value) ls :
  (Tv.saved show ls).1 =
  (l ← as_array (stored_value (ls !! "watchLaterItems"));
   some (fun i =>
           a ← get i "id";
           b ← get show "id";
           if strict_eq a b then
             c ← get i "media_type";
             Normal (strict_eq c (JStr "tv"))
           else Normal false) l).
Proof.
  unfold Tv.saved. unfold mbind at 1. unfold js_bind.
  rewrite Tv_getWatchLater_run. js_unfold.
  destruct (as_array _) as [l|]; reflexivity.
Qed.

Lemma Index_saved_result (item : Value) ls :
  (Index.saved item ls).1 =
  (l ← as_array (stored_value (ls !! "watchLaterItems"));
   some (fun i =>
           a ← get i "id";
           b ← get item "id";
           if strict_eq a b then
             c ← get i "media_type";
             d ← Index.media_type_or_guess item;
             Normal (strict_eq c d)
           else Normal false) l).
Proof.
  unfold Index.saved. unfold mbind at 1. unfold js_bind.
  rewrite Index_getWatchLater_run. js_unfold.
  destruct (as_array _) as [l|]; reflexivity.
Qed.

Lemma Index_bookmark_click_result (item : Value) ls :
  (Index.bookmark_click item ls).1 =
  (record ← Index.bookmark_item item; (Index.toggleWatchLater record ls).1).
Proof.
  unfold Index.bookmark_click. unfold mbind at 1. unfold js_bind, pure.
  destruct (Index.bookmark_item item); reflexivity.
Qed.

(** A property of a parsed record is [undefined] or a JSON value. *)
Lemma assoc_json (k : string) (props : list (string * JsVal)) :
  assoc k props = VUndefined \/ exists j, assoc k props = VJson j.
Proof.
  induction props as [|[k' v] props IH]; simpl; [now left|].
  destruct (String.eqb k' k); [right; now exists v | exact IH].
Qed.

Lemma assoc_kept_other (k k' : string) (v : Value) rest :
  String.eqb k' k = false -> assoc k (kept_property k' v ++ rest) = assoc k rest.
Proof. intros H. destruct v; simpl; rewrite ?H; reflexivity. Qed.

Lemma assoc_kept_last (k k' : string) (v : Value) :
  String.eqb k' k = false -> assoc k (kept_property k' v) = VUndefined.
Proof. intros H. destruct v; simpl; rewrite ?H; reflexivity. Qed.

(** The record of the bookmark carries the id of the item and the kind
    its card goes by. *)
Lemma bookmark_item_key_fields (x r : JsVal) :
  Index.bookmark_item x = Normal r ->
  key_fields r = (get x "id", Index.media_type_or_guess x).
Proof.
  unfold Index.bookmark_item, Index.media_type_or_guess, key_fields.
  destruct x as [| | | | |props]; try (intros [= <-]; reflexivity);
    try discriminate.
  unfold get, mbind, completion_bind.
  destruct (assoc_json "id" props) as [->|[i ->]];
    destruct (assoc_json "media_type" props) as [->|[m ->]];
    destruct (truthy (assoc "title" props));
    try destruct (truthy m); intros [= <-]; cbn;
    rewrite ?assoc_kept_other by reflexivity;
    rewrite ?assoc_kept_last by reflexivity; reflexivity.
Qed.

(** Building the record fails when reading the id of the item does. *)
Lemma bookmark_item_completes (x : JsVal) :
  match Index.bookmark_item x with
  | Normal _ => exists v, get x "id" = Normal v
  | Throw e => get x "id" = Throw e
  end.
Proof.
  unfold Index.bookmark_item, Index.media_type_or_guess.
  destruct x as [| | | | |props]; try (simpl; eauto; fail); try reflexivity.
  unfold get, mbind, completion_bind.
  destruct (truthy (assoc "media_type" props));
    destruct (truthy (assoc "title" props)); eauto.
Qed.

(** C10, amended: on the Aurora pages the boolean a toggle returns
    depends only on the fields [id] and [media_type] of the stored
    records and of the record handed to the toggle, and the pre-checks
    of the explore, movie and TV pages only on those of the stored
    records and of the item asked about, of which the movie and TV
    pages read the id alone.  On the index page the pre-check and the
    click on the bookmark go by the id of the item and by its kind,
    [item.media_type || (item.title ? 'movie' : 'tv')]: two runs whose
    stored lists agree, record by record, on [id] and [media_type], and
    whose items agree on the id and on that kind, answer alike, whatever
    the paths, overviews and ratings. *)
Theorem membership_reads_key_fields_only
    (ls1 ls2 : Storage) (l1 l2 : list JsVal) (x1 x2 : JsVal) :
  (Explore.getWatchLater ls1).1 = Normal (JArr l1) ->
  (Explore.getWatchLater ls2).1 = Normal (JArr l2) ->
  Forall2 (fun a b => key_fields a = key_fields b) l1 l2 ->
  (key_fields x1 = key_fields x2 ->
   (Explore.toggleWatchLater x1 ls1).1 = (Explore.toggleWatchLater x2 ls2).1 /\
   (Movie.toggleWatchLater x1 ls1).1 = (Movie.toggleWatchLater x2 ls2).1 /\
   (Index.toggleWatchLater x1 ls1).1 = (Index.toggleWatchLater x2 ls2).1 /\
   (Tv.toggleWatchLater x1 ls1).1 = (Tv.toggleWatchLater x2 ls2).1 /\
   (Explore.saved x1 ls1).1 = (Explore.saved x2 ls2).1) /\
  (get x1 "id" = get x2 "id" ->
   (Movie.saved x1 ls1).1 = (Movie.saved x2 ls2).1 /\
   (Tv.saved x1 ls1).1 = (Tv.saved x2 ls2).1) /\
  (get x1 "id" = get x2 "id" ->
   Index.media_type_or_guess x1 = Index.media_type_or_guess x2 ->
   (Index.saved x1 ls1).1 = (Index.saved x2 ls2).1 /\
   (Index.bookmark_click x1 ls1).1 = (Index.bookmark_click x2 ls2).1).
Proof.
  intros H1 H2 Hl.
  rewrite Explore_getWatchLater_run in H1, H2. simpl in H1, H2.
  injection H1 as H1. injection H2 as H2.
  assert (forall y1 y2 : JsVal, key_fields y1 = key_fields y2 ->
            (Explore.toggleWatchLater y1 ls1).1 = (Explore.toggleWatchLater y2 ls2).1)
    as Htoggle.
  { intros y1 y2 Hy. rewrite !Explore_toggle_result, H1, H2. simpl.
    erewrite findIndex_alike; [reflexivity|].
    eapply Forall2_impl; [exact Hl|]. intros a b Hab.
    now apply same_id_and_media_type_key_fields. }
  split_and!.
  - intros Hx.
    rewrite ?Movie_toggle_Explore, ?Index_toggle_Explore, ?Tv_toggle_Explore.
    pose proof (Htoggle x1 x2 Hx) as Ht. split_and!; try exact Ht.
    rewrite !Explore_saved_result, H1, H2. simpl. apply some_alike.
    eapply Forall2_impl; [exact Hl|]. intros a b Hab.
    now apply same_id_and_media_type_key_fields.
  - intros Hx. rewrite !Movie_saved_result, !Tv_saved_result, H1, H2. simpl.
    split; apply some_alike; (eapply Forall2_impl; [exact Hl|]); intros a b Hab;
      unfold key_fields in Hab; injection Hab as Ha1 Ha2; now rewrite Ha1, Ha2, Hx.
  - intros Hx Hk. split.
    + rewrite !Index_saved_result, H1, H2. simpl. apply some_alike.
      eapply Forall2_impl; [exact Hl|]. intros a b Hab.
      unfold key_fields in Hab. injection Hab as Ha1 Ha2.
      now rewrite Ha1, Ha2, Hx, Hk.
    + rewrite !Index_bookmark_click_result.
      pose proof (bookmark_item_completes x1) as Hc1.
      pose proof (bookmark_item_completes x2) as Hc2.
      destruct (Index.bookmark_item x1) as [r1|e1] eqn:E1;
        destruct (Index.bookmark_item x2) as [r2|e2] eqn:E2; simpl.
      * rewrite ?Index_toggle_Explore. apply Htoggle.
        rewrite (bookmark_item_key_fields _ _ E1), (bookmark_item_key_fields _ _ E2).
        now rewrite Hx, Hk.
      * destruct Hc1 as [v Hv]. congruence.
      * destruct Hc2 as [v Hv]. congruence.
      * congruence.
Qed.

(** Two stores that hold Inception under two titles and two ratings
    answer a toggle and a pre-check of Inception, asked with yet other
    details, alike; on the index page two items of its id that carry no
    [media_type] but each a title are both taken for the movie. *)
Lemma membership_reads_key_fields_only_witness :
  let stored1 := JObj [("id", JNum 27205); ("media_type", JStr "movie");
                       ("title", JStr "Inception"); ("vote_average", JNum (84 # 10))] in
  let stored2 := JObj [("id", JNum 27205); ("media_type", JStr "movie");
                       ("title", JStr "Origine"); ("overview", JStr "A thief.")] in
  let x1 := record "media_type" 27205 "movie" "Inception" in
  let x2 := JObj [("id", JNum 27205); ("media_type", JStr "movie");
                  ("poster_path", JStr "/inception.jpg")] in
  let y1 := JObj [("id", JNum 27205); ("title", JStr "Inception")] in
  let y2 := JObj [("id", JNum 27205); ("title", JStr "Origine");
                  ("vote_average", JNum (84 # 10))] in
  let ls1 : Storage := {[ "watchLaterItems" := Encoded (JArr [stored1]) ]} in
  let ls2 : Storage := {[ "watchLaterItems" := Encoded (JArr [stored2]) ]} in
  ((Explore.toggleWatchLater x1 ls1).1 = (Explore.toggleWatchLater x2 ls2).1 /\
   (Explore.saved x1 ls1).1 = (Explore.saved x2 ls2).1) /\
  ((Movie.saved x1 ls1).1 = (Movie.saved x2 ls2).1 /\
   (Tv.saved x1 ls1).1 = (Tv.saved x2 ls2).1) /\
  ((Index.saved y1 ls1).1 = (Index.saved y2 ls2).1 /\
   (Index.bookmark_click y1 ls1).1 = (Index.bookmark_click y2 ls2).1).
Proof.
  intros stored1 stored2 x1 x2 y1 y2 ls1 ls2.
  assert (Forall2 (fun a b => key_fields a = key_fields b) [stored1] [stored2]) as Hl
    by (repeat constructor).
  destruct (membership_reads_key_fields_only ls1 ls2 [stored1] [stored2] x1 x2
              eq_refl eq_refl Hl) as (HA & HB & _).
  destruct (membership_reads_key_fields_only ls1 ls2 [stored1] [stored2] y1 y2
              eq_refl eq_refl Hl) as (_ & _ & HC).
  split; [|split].
  - destruct (HA eq_refl) as (Ht & _ & _ & _ & Hs). split; assumption.
  - exact (HB eq_refl).
  - exact (HC eq_refl eq_refl).
Defined.

(** C10, counterexample: on the index page two items of the id 603
    that carry no [media_type] agree on the fields [id] and [media_type]
    and differ in the title, which one of them has empty; the pre-check
    finds the stored movie for the first and not for the second, and a
    click on the bookmark removes it for the first and adds a series for
    the second.  An item without a title fares as the second. *)
Lemma Index_pre_check_reads_title :
  let stored := record "media_type" 603 "movie" "The Matrix" in
  let ls : Storage := {[ "watchLaterItems" := Encoded (JArr [stored]) ]} in
  let x1 := JObj [("id", JNum (inject_Z 603)); ("title", JStr "The Matrix")] in
  let x2 := JObj [("id", JNum (inject_Z 603)); ("title", JStr EmptyString)] in
  let x3 := JObj [("id", JNum (inject_Z 603)); ("name", JStr "The Matrix")] in
  key_fields x1 = key_fields x2 /\
  key_fields x1 = key_fields x3 /\
  (Index.saved x1 ls).1 = Normal true /\
  (Index.saved x2 ls).1 = Normal false /\
  (Index.saved x3 ls).1 = Normal false /\
  (Index.bookmark_click x1 ls).1 = Normal false /\
  (Index.bookmark_click x2 ls).1 = Normal true /\
  (Index.bookmark_click x3 ls).1 = Normal true.
Proof. intros stored ls x1 x2 x3. split_and!; vm_compute; reflexivity. Qed.

(** * Further properties of the store *)

(** ** A toggle of js/main.js and the status check *)

Lemma Main_check_saved_items id l ls :
  Main.getWatchLaterList ls = (Normal (JArr l), ls) ->
  Forall (fun r => r <> JNull) l ->
  Main.checkWatchLaterStatus id ls = (Normal (existsb (same_id id) l), ls).
Proof.
  intros Hl Hnn. unfold Main.checkWatchLaterStatus. unfold mbind at 1. unfold js_bind.
  rewrite Hl. js_unfold. simpl.
  erewrite some_decided; [reflexivity|].
  eapply Forall_impl; [exact Hnn|]. intros r Hr. now apply has_id_decides.
Qed.

Lemma Main_load_after_save l ls :
  Main.getWatchLaterList (<["streamVerseWatchLater" := Encoded (JArr l)]> ls)
  = (Normal (JArr l), <["streamVerseWatchLater" := Encoded (JArr l)]> ls).
Proof. rewrite Main_getWatchLaterList_run, lookup_insert_eq. reflexivity. Qed.

Lemma existsb_push m (l : list JsVal) x : existsb m (l ++ [x]) = existsb m l || m x.
Proof. rewrite existsb_app. simpl. now rewrite orb_false_r. Qed.





(** ** A toggle of the Aurora pages *)

Lemma remove_first_length m (l : list JsVal) :
  existsb m l = true -> S (length (remove_first m l)) = length l.
Proof.
  induction l as [|a l IH]; simpl; [discriminate|].
  destruct (m a); simpl; [reflexivity|]. intros H. now rewrite IH.
Qed.

(** X3: A toggle that completes changes the length of the stored list by
    exactly one: one more when it returns [true], one less when it
    returns [false], whatever is stored. *)
Theorem Explore_toggle_length
    (ls : Storage) (x : JsVal) (l : list JsVal) (added : bool) :
  (Explore.getWatchLater ls).1 = Normal (JArr l) ->
  (Explore.toggleWatchLater x ls).1 = Normal added ->
  exists l',
    (Explore.getWatchLater (Explore.toggleWatchLater x ls).2).1 = Normal (JArr l') /\
    (if added then length l' = S (length l) else S (length l') = length l).
Proof.
  intros Hls Hadd.
  rewrite Explore_getWatchLater_run in Hls. simpl in Hls. injection Hls as Hls.
  destruct (Explore_toggle_cases x ls) as [[e He]|(l0 & Hl0 & H)].
  - rewrite He in Hadd. discriminate.
  - rewrite Hls in Hl0. injection Hl0 as <-.
    rewrite H in *. simpl in Hadd. injection Hadd as <-. simpl.
    rewrite Explore_getWatchLater_run, lookup_insert_eq. simpl.
    eexists. split; [reflexivity|].
    unfold contains. destruct (existsb _ l) eqn:E; simpl.
    + now apply remove_first_length.
    + rewrite length_app. simpl. lia.
Qed.

Lemma Explore_toggle_length_witness :
  let inception := record "media_type" 27205 "movie" "Inception" in
  let ls : Storage := {[ "watchLaterItems" := Encoded (JArr [JNum 7; inception]) ]} in
  exists l',
    (Explore.getWatchLater (Explore.toggleWatchLater inception ls).2).1
    = Normal (JArr l') /\ S (length l') = 2%nat.
Proof.
  intros inception ls.
  apply (Explore_toggle_length ls inception [JNum 7; inception] false); reflexivity.
Defined.

(** X4: On a stored list of saved items that holds the key of [x] at most
    once, the flag a toggle returns is what the pre-check answers
    afterwards: [true] and [x] is found, [false] and it is not. *)
Theorem Explore_toggle_flag_is_membership
    (ls : Storage) (x : JsVal) (l : list JsVal) :
  (Explore.getWatchLater ls).1 = Normal (JArr l) ->
  Forall (fun r => saved_item "media_type" r = true) l ->
  saved_item "media_type" x = true ->
  at_most_once "media_type" x l ->
  exists added,
    (Explore.toggleWatchLater x ls).1 = Normal added /\
    (Explore.saved x (Explore.toggleWatchLater x ls).2).1 = Normal added.
Proof.
  intros Hls Hl Hx Honce.
  rewrite Explore_getWatchLater_run in Hls. simpl in Hls. injection Hls as Hls.
  pose proof (saved_items_not_null _ _ Hl) as Hnn.
  pose proof (saved_item_not_null _ _ Hx) as Hxn.
  rewrite (Explore_toggle_saved_items x l ls Hls Hnn Hxn). simpl.
  eexists. split; [reflexivity|].
  erewrite Explore_saved_run;
    [|now rewrite lookup_insert_eq | |exact Hxn].
  - simpl. f_equal. destruct (contains "media_type" l x) eqn:E; simpl.
    + exact Honce.
    + unfold contains in *. rewrite existsb_push, E. simpl.
      now apply same_key_refl.
  - destruct (contains "media_type" l x).
    + now apply remove_first_Forall.
    + apply Forall_app. split; [assumption | now constructor].
Qed.

Lemma Explore_toggle_flag_is_membership_witness :
  let inception := record "media_type" 27205 "movie" "Inception" in
  let ls : Storage := {[ "watchLaterItems" := Encoded (JArr [inception]) ]} in
  exists added,
    (Explore.toggleWatchLater inception ls).1 = Normal added /\
    (Explore.saved inception (Explore.toggleWatchLater inception ls).2).1
    = Normal added.
Proof.
  intros inception ls.
  apply (Explore_toggle_flag_is_membership ls inception [inception]).
  - reflexivity.
  - repeat constructor.
  - reflexivity.
  - reflexivity.
Defined.

(** X5: The remove button of the card of [item] does what a toggle of
    [item] does when a record of its key is stored; when none is, the
    button leaves the storage alone and the toggle stores [item]. *)
Theorem remove_button_is_toggle_when_present
    (ls : Storage) (item : JsVal) (l : list JsVal) :
  (WatchLater.getWatchLater ls).1 = Normal (JArr l) ->
  Forall (fun r => r <> JNull) l -> item <> JNull ->
  if contains "media_type" l item
  then (WatchLater.removeBtn_click item ls).2 = (Explore.toggleWatchLater item ls).2
  else (WatchLater.removeBtn_click item ls).2 = ls /\
       (Explore.toggleWatchLater item ls).2
       = <["watchLaterItems" := Encoded (JArr (l ++ [item]))]> ls.
Proof.
  intros Hls Hnn Hi.
  rewrite WatchLater_getWatchLater_run in Hls. simpl in Hls. injection Hls as Hls.
  rewrite (Explore_toggle_saved_items item l ls Hls Hnn Hi). simpl.
  assert (Forall (fun r => same_id_and_media_type item r
                           = Normal (same_key "media_type" item r)) l) as Hdec.
  { eapply Forall_impl; [exact Hnn|]. intros r Hr.
    now apply same_id_and_media_type_decides. }
  unfold contains. destruct (existsb (same_key "media_type" item) l) eqn:Hc.
  - apply existsb_split in Hc as (pre & r & post & -> & Hpre & Hr).
    rewrite remove_first_at by assumption.
    rewrite removeBtn_click_run, Hls. simpl.
    apply Forall_app in Hdec as [Hdpre Hdr]. apply Forall_cons in Hdr as [Hdr _].
    rewrite (findIndex_first _ pre r post).
    + simpl. rewrite splice1_at.
      destruct (Z.gtb_spec (Z.of_nat (length pre)) (-1)); [reflexivity | lia].
    + clear -Hpre Hdpre. induction pre as [|a pre IH]; [constructor|].
      apply Forall_cons in Hpre as [Ha Hpre]. apply Forall_cons in Hdpre as [Hda Hdpre].
      constructor; [now rewrite Hda, Ha | now apply IH].
    + now rewrite Hdr, Hr.
  - split; [|reflexivity].
    rewrite removeBtn_click_run, Hls. simpl.
    rewrite findIndex_none; [reflexivity|].
    clear -Hc Hdec. induction l as [|a l IH]; [constructor|].
    simpl in Hc. apply orb_false_elim in Hc as [Ha Hc].
    apply Forall_cons in Hdec as [Hda Hdec].
    constructor; [now rewrite Hda, Ha | now apply IH].
Qed.

Lemma remove_button_is_toggle_witness :
  let inception := record "media_type" 27205 "movie" "Inception" in
  let dune := record "media_type" 438631 "movie" "Dune" in
  let ls : Storage := {[ "watchLaterItems" := Encoded (JArr [dune; inception]) ]} in
  (WatchLater.removeBtn_click inception ls).2 = (Explore.toggleWatchLater inception ls).2.
Proof.
  intros inception dune ls.
  apply (remove_button_is_toggle_when_present ls inception [dune; inception]).
  - reflexivity.
  - repeat constructor; discriminate.
  - discriminate.
Defined.

(** ** What a refresh of the save controls does to each element *)

Lemma refresh_controls_app ls n pre post :
  refresh_controls ls n (pre ++ post) =
  match refresh_controls ls n pre with
  | (Normal _, (writes, pre')) =>
      let '(r, (writes', post')) := refresh_controls ls n post in
      (r, (writes ++ writes', pre' ++ post'))
  | (Throw x, (writes, pre')) => (Throw x, (writes, pre' ++ post))
  end.
Proof.
  induction pre as [|e pre IH]; simpl.
  - now destruct (refresh_controls ls n post) as [r [w p]].
  - destruct (refresh_control ls n e) as [[[saved k]|]|x]; [| |reflexivity];
      rewrite IH; destruct (refresh_controls ls n pre) as [[u|x] [w pre']];
      try reflexivity; now destruct (refresh_controls ls n post) as [r [w' p]].
Qed.

(** A control is given a look when it has a usable id, the stored list
    can be read and it has a span. *)
Lemma refresh_control_given ls n e saved k :
  refresh_control ls n e = Normal (Some (saved, k)) ->
  Main.has_class "btn-add-list" e = true /\
  truthy (parseInt (Main.dataset_id e)) = true /\
  (Main.checkWatchLaterStatus (parseInt (Main.dataset_id e)) ls).1 = Normal saved /\
  Main.icon e = Some k /\ (k < n)%nat.
Proof.
  unfold refresh_control.
  destruct (Main.has_class "btn-add-list" e); [|discriminate].
  destruct (truthy (parseInt (Main.dataset_id e))); [|discriminate].
  destruct (Main.checkWatchLaterStatus _ ls).1 as [s|x]; simpl; [|discriminate].
  destruct (Main.icon e) as [k'|]; [|discriminate].
  destruct (Nat.ltb_spec k' n); [|discriminate].
  intros [= -> ->]. repeat split; assumption.
Qed.

Lemma refresh_control_skipped ls n e :
  Main.has_class "btn-add-list" e = false \/
  truthy (parseInt (Main.dataset_id e)) = false ->
  refresh_control ls n e = Normal None.
Proof.
  unfold refresh_control. intros [->| ->]; [reflexivity|].
  now destruct (Main.has_class "btn-add-list" e).
Qed.

(** The element at each position after a round that completes. *)
Lemma refresh_controls_lookup ls n doc writes doc' u :
  refresh_controls ls n doc = (Normal u, (writes, doc')) ->
  forall (i : nat) e, doc !! i = Some e ->
  exists plan, refresh_control ls n e = Normal plan /\
    doc' !! i = Some (match plan with
                      | Some (saved, _) => control_look saved e
                      | None => e
                      end).
Proof.
  revert writes doc'.
  induction doc as [|a doc IH]; intros writes doc' H i e Hi; [discriminate|].
  simpl in H.
  destruct (refresh_control ls n a) as [[[saved k]|]|x] eqn:Ha; [| |discriminate];
    destruct (refresh_controls ls n doc) as [r [w rest']] eqn:Hr;
    injection H as -> <- <-;
    (destruct i as [|i]; simpl in *;
     [injection Hi as <-; eexists; split; [exact Ha | reflexivity]
     |now apply (IH w rest')]).
Qed.

(** The elements a round leaves as they are, whether it completes or
    throws. *)
Lemma refresh_controls_untouched ls n doc :
  forall (i : nat) e, doc !! i = Some e ->
  refresh_control ls n e = Normal None ->
  (refresh_controls ls n doc).2.2 !! i = Some e.
Proof.
  induction doc as [|a doc IH]; intros i e Hi He; [discriminate|].
  simpl. destruct (refresh_control ls n a) as [[[saved k]|]|x] eqn:Ha; [| |exact Hi];
    destruct (refresh_controls ls n doc) as [r [w rest']] eqn:Hr;
    (destruct i as [|i]; simpl in *;
     [injection Hi as ->; congruence | exact (IH i e Hi He)]).
Qed.

Lemma last_write_app w1 w2 k :
  last_write (w1 ++ w2) k =
  match last_write w2 k with
  | Some v => Some v
  | None => last_write w1 k
  end.
Proof.
  induction w1 as [|w w1 IH]; simpl.
  - now destruct (last_write w2 k).
  - rewrite IH. now destruct (last_write w2 k).
Qed.

(** A span that no control of [doc] is to give a look to is given
    none. *)
Lemma refresh_controls_no_write ls n doc k :
  (forall e saved, In e doc -> refresh_control ls n e <> Normal (Some (saved, k))) ->
  last_write (refresh_controls ls n doc).2.1 k = None.
Proof.
  induction doc as [|a doc IH]; intros H; [reflexivity|]. simpl.
  assert (last_write (refresh_controls ls n doc).2.1 k = None) as Hrest.
  { apply IH. intros e saved He. apply H. now right. }
  destruct (refresh_control ls n a) as [[[saved j]|]|x] eqn:Ha; [| |reflexivity];
    destruct (refresh_controls ls n doc) as [r [w rest']]; simpl in *; [|exact Hrest].
  rewrite Hrest. destruct (Nat.eqb_spec j k) as [->|]; [|reflexivity].
  exfalso. apply (H a saved); [now left | exact Ha].
Qed.

Lemma has_class_added_control_look saved e :
  Main.has_class "added" (control_look saved e) = saved.
Proof.
  destruct e as [cl did ic al]. unfold control_look, Main.has_class. simpl.
  destruct saved.
  - destruct (existsb (String.eqb "added") cl) eqn:E; [exact E|].
    rewrite existsb_app. simpl. apply orb_true_r.
  - induction cl as [|c cl IH]; simpl; [reflexivity|].
    destruct (String.eqb "added" c) eqn:E; simpl; [exact IH|].
    now rewrite E, IH.
Qed.

(** X6: After a run of [updateAllWatchLaterButtons] that completes, every
    control whose [data-id] parses to a number other than zero shows
    whether that id is stored: the class ['added'] and the label to
    remove when it is, no such class and the label to add when it is
    not; its span is given the filled or the outlined icon to match,
    and holds it at the end unless a control further down the document
    with a usable id holds the same span. *)
Theorem refreshed_controls_show_status
    (pg : Main.Page) (i : nat) (e : Main.Element) :
  (Main.updateAllWatchLaterButtons pg).1 = Normal tt ->
  Main.document pg !! i = Some e ->
  Main.has_class "btn-add-list" e = true ->
  truthy (parseInt (Main.dataset_id e)) = true ->
  let pg' := (Main.updateAllWatchLaterButtons pg).2 in
  exists saved k e',
    (Main.checkWatchLaterStatus (parseInt (Main.dataset_id e)) (Main.localStorage pg)).1
    = Normal saved /\
    Main.document pg' !! i = Some e' /\
    Main.has_class "added" e' = saved /\
    Main.ariaLabel e' =
      Some (if saved then "Remove from Watch Later" else "Add to Watch Later") /\
    Main.icon e = Some k /\ Main.icon e' = Some k /\
    ((forall j e2, (i < j)%nat -> Main.document pg !! j = Some e2 ->
                   Main.has_class "btn-add-list" e2 = true ->
                   truthy (parseInt (Main.dataset_id e2)) = true ->
                   Main.icon e2 <> Some k) ->
     Main.spans pg' !! k =
       Some {| Main.textContent := if saved then "bookmark" else "bookmark_border";
               Main.fontFamily :=
                 if saved then "Material Icons" else "Material Icons Outlined" |}).
Proof.
  intros Hrun Hi Hc Ht pg'. subst pg'. revert Hrun.
  rewrite updateAllWatchLaterButtons_run.
  set (ls := Main.localStorage pg). set (n := length (Main.spans pg)).
  destruct (refresh_controls ls n (Main.document pg)) as [r [writes doc']] eqn:Hr. simpl.
  intros ->.
  destruct (refresh_controls_lookup _ _ _ _ _ _ Hr i e Hi) as (plan & Hplan & Hi').
  destruct plan as [[saved k]|];
    [|unfold refresh_control in Hplan; rewrite Hc, Ht in Hplan;
      destruct (Main.checkWatchLaterStatus _ ls).1; simpl in Hplan; [|discriminate];
      destruct (Main.icon e) as [k|]; [|discriminate];
      destruct (k <? n)%nat; discriminate].
  destruct (refresh_control_given _ _ _ _ _ Hplan) as (_ & _ & Hs & Hk & Hlt).
  exists saved, k, (control_look saved e).
  split; [exact Hs|]. split; [exact Hi'|].
  split; [apply has_class_added_control_look|].
  split; [reflexivity|]. split; [exact Hk|]. split; [exact Hk|].
  intros Hlater.
  rewrite write_spans_lookup. fold n.
  rewrite <- (take_drop_middle _ _ _ Hi), refresh_controls_app in Hr.
  destruct (refresh_controls ls n (take i (Main.document pg))) as [[u|x] [w1 pre']];
    [|discriminate].
  simpl in Hr. rewrite Hplan in Hr.
  pose proof (refresh_controls_no_write ls n (drop (S i) (Main.document pg)) k) as Hnone.
  destruct (refresh_controls ls n (drop (S i) (Main.document pg))) as [r2 [w2 post']].
  injection Hr as _ <- _. simpl in Hnone.
  rewrite last_write_app. simpl. rewrite Hnone, Nat.eqb_refl.
  - destruct (Nat.ltb_spec k n); [reflexivity | lia].
  - intros e2 saved2 Hin Hplan2.
    destruct (refresh_control_given _ _ _ _ _ Hplan2) as (Hc2 & Ht2 & _ & Hk2 & _).
    apply list_elem_of_In, list_elem_of_lookup in Hin as [j Hj].
    rewrite lookup_drop in Hj.
    exact (Hlater (S i + j)%nat e2 ltac:(lia) Hj Hc2 Ht2 Hk2).
Qed.


Lemma refreshed_controls_show_status_witness :
  let control :=
    {| Main.classList := ["btn-add-list"]; Main.dataset_id := Some "27205";
       Main.icon := Some 0%nat; Main.ariaLabel := None |} in
  let card :=
    {| Main.classList := ["media-card"]; Main.dataset_id := None;
       Main.icon := Some 0%nat; Main.ariaLabel := None |} in
  let pg :=
    {| Main.localStorage :=
         {[ "streamVerseWatchLater" :=
              Encoded (JArr [record "type" 27205 "movie" "Inception"]) ]};
       Main.spans := [{| Main.textContent := "bookmark_border"; Main.fontFamily := "" |}];
       Main.document := [card; control] |} in
  exists e',
    Main.document (Main.updateAllWatchLaterButtons pg).2 !! 1%nat = Some e' /\
    Main.has_class "added" e' = true /\
    Main.spans (Main.updateAllWatchLaterButtons pg).2 !! 0%nat
    = Some {| Main.textContent := "bookmark"; Main.fontFamily := "Material Icons" |}.
Proof.
  intros control card pg.
  destruct (refreshed_controls_show_status pg 1 control)
    as (saved & k & e' & Hs & He' & Hadded & _ & Hk & _ & Hspan); try reflexivity.
  injection Hs as <-. injection Hk as <-.
  exists e'. split; [exact He'|]. split; [exact Hadded|].
  apply Hspan. intros [|[|j]] e2 Hj He2; try lia. discriminate.
Defined.

(** X7: A run of [updateAllWatchLaterButtons], whether it completes or
    throws, leaves two kinds of element with their classes, [data-id]
    and label, and holding the span they held: those without the class
    ['btn-add-list'], and the controls whose [data-id] is missing or
    parses to [NaN] or to zero.  What a span shows changes only as the
    icon of a control with a usable id: a span that no such control
    holds keeps its text and font, and no span is added or removed. *)
Theorem refresh_skips_other_elements (pg : Main.Page) :
  let pg' := (Main.updateAllWatchLaterButtons pg).2 in
  (forall (i : nat) (e : Main.Element),
     Main.document pg !! i = Some e ->
     Main.has_class "btn-add-list" e = false \/
     truthy (parseInt (Main.dataset_id e)) = false ->
     Main.document pg' !! i = Some e) /\
  (forall k : nat,
     (forall (j : nat) (e : Main.Element),
        Main.document pg !! j = Some e ->
        Main.has_class "btn-add-list" e = true ->
        truthy (parseInt (Main.dataset_id e)) = true ->
        Main.icon e <> Some k) ->
     Main.spans pg' !! k = Main.spans pg !! k) /\
  length (Main.spans pg') = length (Main.spans pg).
Proof.
  intros pg'. subst pg'. rewrite updateAllWatchLaterButtons_run.
  pose proof (refresh_controls_untouched (Main.localStorage pg) (length (Main.spans pg))
                (Main.document pg)) as Hdoc.
  pose proof (refresh_controls_no_write (Main.localStorage pg) (length (Main.spans pg))
                (Main.document pg)) as Hspans.
  destruct (refresh_controls _ _ _) as [r [writes doc']]. simpl in *.
  split; [|split].
  - intros i e Hi He. apply (Hdoc i e Hi). now apply refresh_control_skipped.
  - intros k Hk. rewrite write_spans_lookup, Hspans; [reflexivity|].
    intros e saved Hin Hplan.
    destruct (refresh_control_given _ _ _ _ _ Hplan) as (Hc & Ht & _ & Hic & _).
    apply list_elem_of_In, list_elem_of_lookup in Hin as [j Hj].
    exact (Hk j e Hj Hc Ht Hic).
  - apply write_spans_length.
Qed.

Lemma refresh_skips_other_elements_witness :
  let outline := {| Main.textContent := "bookmark_border"; Main.fontFamily := "" |} in
  let play := {| Main.textContent := "play_arrow"; Main.fontFamily := "" |} in
  let slide :=
    {| Main.classList := ["hero-slide"]; Main.dataset_id := None;
       Main.icon := Some 0%nat; Main.ariaLabel := None |} in
  let control id :=
    {| Main.classList := ["btn-add-list"]; Main.dataset_id := id;
       Main.icon := Some 1%nat; Main.ariaLabel := None |} in
  let pg :=
    {| Main.localStorage := ∅; Main.spans := [play; outline];
       Main.document := [slide; control (Some "0"); control None; control (Some "7")] |} in
  Main.document (Main.updateAllWatchLaterButtons pg).2 !! 1%nat = Some (control (Some "0")) /\
  Main.spans (Main.updateAllWatchLaterButtons pg).2 !! 0%nat = Some play.
Proof.
  intros outline play slide control pg.
  destruct (refresh_skips_other_elements pg) as (Hdoc & Hspans & _).
  split.
  - apply Hdoc; [reflexivity|]. now right.
  - rewrite Hspans; [reflexivity|].
    intros [|[|[|[|j]]]] e Hj Hc Ht; simpl in Hj; try discriminate;
      injection Hj as <-; discriminate.
Defined.

(** X8: A save control without a span stops the run, when its [data-id]
    parses to a number other than zero and the status of that id can be
    read off the stored list: if the run over the elements before it
    completes, the run over the whole document refreshes those elements
    as that run does, throws a TypeError at the control, and leaves it
    and every element after it as they were.  (A control whose id is
    missing, [NaN] or zero is passed over whether it has a span or
    not.) *)
Theorem refresh_stops_at_control_without_icon
    (ls : Storage) (spans spans' : list Main.Icon)
    (pre pre' post : list Main.Element) (e : Main.Element) (saved : bool) :
  Main.updateAllWatchLaterButtons
    {| Main.localStorage := ls; Main.spans := spans; Main.document := pre |}
  = (Normal tt, {| Main.localStorage := ls; Main.spans := spans'; Main.document := pre' |}) ->
  Main.has_class "btn-add-list" e = true ->
  truthy (parseInt (Main.dataset_id e)) = true ->
  (Main.checkWatchLaterStatus (parseInt (Main.dataset_id e)) ls).1 = Normal saved ->
  Main.icon e ≫= (spans !!.) = None ->
  Main.updateAllWatchLaterButtons
    {| Main.localStorage := ls; Main.spans := spans; Main.document := pre ++ e :: post |}
  = (Throw TypeError,
     {| Main.localStorage := ls; Main.spans := spans'; Main.document := pre' ++ e :: post |}).
Proof.
  rewrite !updateAllWatchLaterButtons_run. simpl.
  rewrite refresh_controls_app.
  destruct (refresh_controls ls (length spans) pre) as [r [writes doc']].
  intros [= -> <- <-] Hc Ht Hs Hic. simpl.
  unfold refresh_control. rewrite Hc, Ht, Hs. simpl.
  destruct (Main.icon e) as [k|]; [|now rewrite app_nil_r].
  simpl in Hic. apply lookup_ge_None in Hic.
  destruct (Nat.ltb_spec k (length spans)); [lia|]. now rewrite app_nil_r.
Qed.

Lemma refresh_stops_witness :
  let outline := {| Main.textContent := "bookmark_border"; Main.fontFamily := "" |} in
  let control id span :=
    {| Main.classList := ["btn-add-list"]; Main.dataset_id := Some id;
       Main.icon := span; Main.ariaLabel := None |} in
  let ls : Storage := ∅ in
  (Main.updateAllWatchLaterButtons
     {| Main.localStorage := ls; Main.spans := [outline; outline];
        Main.document := [control "1" (Some 0%nat); control "2" None;
                          control "3" (Some 1%nat)] |}).1
  = Throw TypeError.
Proof.
  intros outline control ls.
  exact (f_equal fst
           (refresh_stops_at_control_without_icon ls [outline; outline]
              [icon_look false; outline]
              [control "1" (Some 0%nat)] [control_look false (control "1" (Some 0%nat))]
              [control "3" (Some 1%nat)] (control "2" None) false
              eq_refl eq_refl eq_refl eq_refl eq_refl)).
Defined.

(** ** A click on a save control of js/main.js *)

Lemma with_storage_run {A} (m : JS Storage A) pg :
  Main.with_storage m pg =
  ((m (Main.localStorage pg)).1,
   {| Main.localStorage := (m (Main.localStorage pg)).2;
      Main.spans := Main.spans pg;
      Main.document := Main.document pg |}).
Proof. unfold Main.with_storage. now destruct (m (Main.localStorage pg)). Qed.

(** The handler toggles, then gives the control and its span the look
    of the store it has just written. *)
Lemma addListButton_click_run parseFloat btn data pg e l :
  Main.document pg !! btn = Some e ->
  Main.getWatchLaterList (Main.localStorage pg) = (Normal (JArr l), Main.localStorage pg) ->
  Forall (fun r => r <> JNull) l ->
  let id := parseInt (Main.dataset_id e) in
  let x := Main.itemData parseFloat id data in
  let l' := if existsb (same_id id) l then remove_first (same_id id) l else l ++ [x] in
  let ls' := <["streamVerseWatchLater" := Encoded (JArr l')]> (Main.localStorage pg) in
  Main.addListButton_click parseFloat btn data pg =
  match Main.icon e ≫= (fun k => _ ← Main.spans pg !! k; Some k) with
  | Some k =>
      (Normal tt,
       {| Main.localStorage := ls';
          Main.spans := <[k := icon_look (existsb (same_id id) l')]> (Main.spans pg);
          Main.document := <[btn := control_look (existsb (same_id id) l') e]>
                             (Main.document pg) |})
  | None => (Throw TypeError,
             {| Main.localStorage := ls'; Main.spans := Main.spans pg;
                Main.document := Main.document pg |})
  end.
Proof.
  intros He Hls Hnn id x l' ls'.
  unfold Main.addListButton_click. unfold mbind at 1. unfold js_bind, Main.read. rewrite He.
  fold id. fold x. unfold mbind at 1. unfold js_bind. rewrite with_storage_run.
  rewrite (Main_toggle_saved_items id x l _ Hls Hnn). simpl. fold l'. fold ls'.
  rewrite (updateWatchLaterButtonUI_run btn id
             {| Main.localStorage := ls'; Main.spans := Main.spans pg;
                Main.document := Main.document pg |} e He).
  simpl.
  assert (Forall (fun r => r <> JNull) l') as Hnn'.
  { subst l'. destruct (existsb (same_id id) l).
    - now apply remove_first_Forall.
    - apply Forall_app. split; [exact Hnn|]. constructor; [|constructor].
      subst x. unfold Main.itemData. discriminate. }
  rewrite (Main_check_saved_items id l' ls'); [|apply Main_load_after_save|exact Hnn'].
  simpl. destruct (Main.icon e) as [k|]; [|reflexivity]. simpl.
  destruct (Nat.ltb_spec k (length (Main.spans pg))) as [Hk|Hk].
  - destruct (lookup_lt_is_Some_2 _ _ Hk) as [ic ->]. reflexivity.
  - now rewrite (lookup_ge_None_2 _ _ Hk).
Qed.

(** X9: A click on a save control that has a span and whose [data-id]
    parses to a finite number toggles the store and gives the control
    and its span the look of the new state: on a stored list that can
    be read, holds no [null] and holds the id at most once, the click
    completes and the id is stored after it exactly when it was not
    before.  Every other element keeps its classes, [data-id] and
    label and holds the span it held, and every other span keeps its
    text and font; an element that holds the span of the control, as
    the card around it does, shows the new icon with it. *)
Theorem click_flips_control_and_store
    (parseFloat : option string -> option Q)
    (pg : Main.Page) (btn : nat) (data : Main.Dataset)
    (e : Main.Element) (k : nat) (ic : Main.Icon) (q : Q) (l : list JsVal) :
  Main.document pg !! btn = Some e ->
  Main.icon e = Some k ->
  Main.spans pg !! k = Some ic ->
  parseInt (Main.dataset_id e) = VJson (JNum q) ->
  (Main.getWatchLaterList (Main.localStorage pg)).1 = Normal (JArr l) ->
  Forall (fun r => r <> JNull) l ->
  id_at_most_once (JNum q) l ->
  let was := existsb (same_id (JNum q)) l in
  let pg' := (Main.addListButton_click parseFloat btn data pg).2 in
  (Main.addListButton_click parseFloat btn data pg).1 = Normal tt /\
  (Main.checkWatchLaterStatus (JNum q) (Main.localStorage pg')).1 = Normal (negb was) /\
  Main.document pg' = <[btn := control_look (negb was) e]> (Main.document pg) /\
  Main.spans pg' = <[k := icon_look (negb was)]> (Main.spans pg).
Proof.
  intros He Hic Hspan Hid Hls Hnn Honce was pg'.
  assert (Main.getWatchLaterList (Main.localStorage pg)
          = (Normal (JArr l), Main.localStorage pg)) as Hls'.
  { rewrite Main_getWatchLaterList_run in *. simpl in Hls. now rewrite Hls. }
  subst pg'. rewrite (addListButton_click_run parseFloat btn data pg e l He Hls' Hnn).
  rewrite Hic, Hid. simpl. rewrite Hspan. simpl. fold was.
  set (x := Main.itemData parseFloat (JNum q) data).
  assert (existsb (same_id (JNum q))
            (if was then remove_first (same_id (JNum q)) l else l ++ [x])
          = negb was) as Hflip.
  { destruct was eqn:E; simpl.
    - exact Honce.
    - rewrite existsb_push. subst was. rewrite E. simpl.
      unfold same_id, x, Main.itemData. simpl. apply Qeq_bool_refl. }
  rewrite Hflip. split; [reflexivity|]. split; [|split; reflexivity].
  erewrite Main_check_saved_items; [|apply Main_load_after_save|].
  - simpl. now rewrite Hflip.
  - destruct was.
    + now apply remove_first_Forall.
    + apply Forall_app. split; [exact Hnn|]. constructor; [discriminate | constructor].
Qed.

Lemma click_flips_witness :
  let control :=
    {| Main.classList := ["btn-add-list"]; Main.dataset_id := Some "27205";
       Main.icon := Some 0%nat; Main.ariaLabel := None |} in
  let card :=
    {| Main.classList := ["media-card"]; Main.dataset_id := None;
       Main.icon := Some 0%nat; Main.ariaLabel := None |} in
  let outline := {| Main.textContent := "bookmark_border"; Main.fontFamily := "" |} in
  let data :=
    {| Main.data_type := Some "movie"; Main.data_title := Some "Inception";
       Main.data_poster := Some "/a.jpg"; Main.data_overview := Some "A thief.";
       Main.data_rating := Some "8.4" |} in
  let pg := {| Main.localStorage := ∅; Main.spans := [outline];
               Main.document := [card; control] |} in
  let pg' := (Main.addListButton_click (fun _ => Some (84 # 10)) 1 data pg).2 in
  (Main.checkWatchLaterStatus (JNum 27205) (Main.localStorage pg')).1 = Normal true /\
  Main.document pg' = [card; control_look true control] /\
  Main.spans pg' = [icon_look true].
Proof.
  intros control card outline data pg pg'.
  destruct (click_flips_control_and_store (fun _ => Some (84 # 10)) pg 1 data control
              0 outline 27205 [])
    as (_ & H1 & H2 & H3); try reflexivity.
  - constructor.
  - split; [exact H1|]. split; [exact H2 | exact H3].
Defined.

(** A property of a stored record is a value of the JSON universe, or
    is not there. *)
Lemma field_json (r : JsVal) (k : string) :
  field r k = VUndefined \/ exists j, field r k = VJson j.
Proof.
  destruct r as [| | | | |props]; simpl; try (now left).
  induction props as [|[k' v] props IH]; simpl; [now left|].
  destruct (String.eqb k' k); [right; now exists v | exact IH].
Qed.

(** No record has the id [NaN]; nor, the stored numbers being
    rationals, an infinite one. *)
Lemma same_id_no_number (id : Value) (l : list JsVal) :
  (forall q, id <> VJson (JNum q)) -> is_number_value id = true ->
  existsb (same_id id) l = false.
Proof.
  intros Hq Hid. induction l as [|a l IH]; simpl; [reflexivity|].
  rewrite IH. unfold same_id.
  destruct id as [| |b|[| |q| | |]]; try discriminate.
  - now destruct (field a "id") as [| |?|[]].
  - destruct (field_json a "id") as [->|[j ->]]; [reflexivity | now destruct j].
  - now contradiction (Hq q).
Qed.

(** X10: A click on a save control that has a span and whose [data-id]
    is missing or parses to [NaN] finds no record of its id, whatever
    records the stored list holds, when that list can be read and holds
    no [null]: the click appends one more record, stored with the id
    [null], and gives the control and its span the look of an item that
    is not saved. *)
Theorem click_without_id_appends
    (parseFloat : option string -> option Q)
    (pg : Main.Page) (btn : nat) (data : Main.Dataset)
    (e : Main.Element) (k : nat) (ic : Main.Icon) (l : list JsVal) :
  Main.document pg !! btn = Some e ->
  Main.icon e = Some k ->
  Main.spans pg !! k = Some ic ->
  parseInt (Main.dataset_id e) = VNaN ->
  (Main.getWatchLaterList (Main.localStorage pg)).1 = Normal (JArr l) ->
  Forall (fun r => r <> JNull) l ->
  let pg' := (Main.addListButton_click parseFloat btn data pg).2 in
  (Main.addListButton_click parseFloat btn data pg).1 = Normal tt /\
  (exists x,
     (Main.getWatchLaterList (Main.localStorage pg')).1 = Normal (JArr (l ++ [x])) /\
     field x "id" = VJson JNull) /\
  Main.document pg' = <[btn := control_look false e]> (Main.document pg) /\
  Main.spans pg' = <[k := icon_look false]> (Main.spans pg).
Proof.
  intros He Hic Hspan Hnan Hls Hnn pg'.
  assert (forall q, parseInt (Main.dataset_id e) <> VJson (JNum q)) as Hid
    by (intros q; rewrite Hnan; discriminate).
  assert (Main.getWatchLaterList (Main.localStorage pg)
          = (Normal (JArr l), Main.localStorage pg)) as Hls'.
  { rewrite Main_getWatchLaterList_run in *. simpl in Hls. now rewrite Hls. }
  subst pg'. rewrite (addListButton_click_run parseFloat btn data pg e l He Hls' Hnn).
  rewrite Hic. simpl. rewrite Hspan. simpl.
  assert (forall l0, existsb (same_id (parseInt (Main.dataset_id e))) l0 = false) as Hno.
  { intros l0. apply same_id_no_number; [exact Hid | apply parseInt_number]. }
  rewrite !Hno. split; [reflexivity|]. split; [|split; reflexivity].
  eexists. rewrite Main_load_after_save. simpl. split; [reflexivity|].
  unfold Main.itemData. rewrite Hnan. reflexivity.
Qed.


Lemma click_without_id_witness :
  let control :=
    {| Main.classList := ["btn-add-list"; "added"]; Main.dataset_id := Some "undefined";
       Main.icon := Some 0%nat; Main.ariaLabel := None |} in
  let data :=
    {| Main.data_type := Some "movie"; Main.data_title := None;
       Main.data_poster := None; Main.data_overview := None;
       Main.data_rating := None |} in
  let pg := {| Main.localStorage := ∅;
               Main.spans := [{| Main.textContent := "bookmark"; Main.fontFamily := "" |}];
               Main.document := [control] |} in
  let click := Main.addListButton_click (fun _ => None) 0 data in
  exists x y,
    (Main.getWatchLaterList (Main.localStorage (click (click pg).2).2)).1
    = Normal (JArr [x; y]).
Proof.
  intros control data pg click.
  destruct (click_without_id_appends (fun _ => None) pg 0 data control 0
              {| Main.textContent := "bookmark"; Main.fontFamily := "" |} [])
    as (_ & (x & Hx & _) & Hd & Hs); try reflexivity.
  - constructor.
  - fold click in Hx, Hd, Hs.
    assert (Main.document (click pg).2 !! 0%nat = Some (control_look false control)) as He
      by (rewrite Hd; reflexivity).
    assert (Main.spans (click pg).2 !! 0%nat = Some (icon_look false)) as Hspan
      by (rewrite Hs; reflexivity).
    assert (parseInt (Main.dataset_id (control_look false control)) = VNaN) as Hid
      by reflexivity.
    assert (Forall (fun r => r <> JNull) [x]) as Hnn.
    { constructor; [|constructor]. intros ->. vm_compute in Hx. discriminate. }
    destruct (click_without_id_appends (fun _ => None) (click pg).2 0 data
                (control_look false control) 0 (icon_look false) [x]
                He eq_refl Hspan Hid Hx Hnn)
      as (_ & (y & Hy & _) & _).
    exists x, y. exact Hy.
Defined.

(** ** [escape] of js/main.js *)

Lemma append_cons a (s t : string) : (String a s ++ t)%string = String a (s ++ t)%string.
Proof. reflexivity. Qed.

Lemma append_nil_l (s : string) : (EmptyString ++ s)%string = s.
Proof. reflexivity. Qed.

Lemma append_assoc (x y z : string) : (x ++ (y ++ z) = (x ++ y) ++ z)%string.
Proof.
  induction x as [|a x IH]; [reflexivity|].
  rewrite !append_cons. now rewrite IH.
Qed.

Lemma replace_all_app c b (s t : string) :
  Main.replace_all c b (s ++ t)%string
  = (Main.replace_all c b s ++ Main.replace_all c b t)%string.
Proof.
  induction s as [|a s IH]; [reflexivity|].
  rewrite append_cons. simpl.
  destruct (Ascii.eqb a c); rewrite IH; [apply append_assoc | reflexivity].
Qed.

Lemma occurs_app c (s t : string) :
  occurs c (s ++ t)%string = occurs c s || occurs c t.
Proof.
  induction s as [|a s IH]; [reflexivity|].
  rewrite append_cons. simpl. rewrite IH. now rewrite orb_assoc.
Qed.

(** Once replaced by a text it does not occur in, a character is gone;
    a character that is in neither the string nor the text is not
    brought in. *)
Lemma occurs_replace_all c d b s :
  occurs d b = false ->
  (d = c \/ occurs d s = false) ->
  occurs d (Main.replace_all c b s) = false.
Proof.
  intros Hb. induction s as [|a s IH]; simpl; [reflexivity|].
  intros Hs. destruct (Ascii.eqb a c) eqn:E.
  - rewrite occurs_app, Hb. simpl. apply IH.
    destruct Hs as [->|Hs]; [now left|]. right.
    now apply orb_false_iff in Hs.
  - simpl. destruct Hs as [->|Hs].
    + rewrite E. simpl. apply IH. now left.
    + apply orb_false_iff in Hs as [-> Hs]. simpl. apply IH. now right.
Qed.

Lemma replace_all_absent c b s :
  occurs c s = false -> Main.replace_all c b s = s.
Proof.
  induction s as [|a s IH]; simpl; [reflexivity|].
  intros [-> Hs]%orb_false_iff. now rewrite IH.
Qed.

Lemma escape_string s :
  Main.escape (JStr s) =
  Normal (Main.replace_all Main.single_quote "&#39;"
            (Main.replace_all Main.double_quote "&quot;" s)).
Proof.
  unfold Main.escape. simpl. destruct s; reflexivity.
Qed.

Lemma escape_quote_free (str : Value) (out : string) :
  Main.escape str = Normal out ->
  occurs Main.double_quote out = false /\ occurs Main.single_quote out = false.
Proof.
  unfold Main.escape. intros H. destruct (truthy str).
  - destruct str as [| |?|[]]; try discriminate. injection H as <-. split.
    + apply occurs_replace_all; [reflexivity|]. right.
      apply occurs_replace_all; [reflexivity | now left].
    + apply occurs_replace_all; [reflexivity | now left].
  - injection H as <-. split; reflexivity.
Qed.

Lemma escape_of_quote_free (s : string) :
  occurs Main.double_quote s = false -> occurs Main.single_quote s = false ->
  Main.escape (JStr s) = Normal s.
Proof.
  intros Hd Hs. rewrite escape_string.
  rewrite (replace_all_absent _ _ s Hd). now rewrite (replace_all_absent _ _ s Hs).
Qed.

(** X11: What [escape] returns holds neither kind of quote, whatever it was
    given, and escaping it once more changes nothing. *)
Theorem escape_output_has_no_quotes (str : Value) (out : string) :
  Main.escape str = Normal out ->
  occurs Main.double_quote out = false /\
  occurs Main.single_quote out = false /\
  Main.escape (JStr out) = Normal out.
Proof.
  intros H. destruct (escape_quote_free str out H) as [Hd Hs].
  split; [exact Hd|]. split; [exact Hs|].
  now apply escape_of_quote_free.
Qed.

Lemma escape_output_witness :
  Main.escape (JStr "Ocean's 11") = Normal "Ocean&#39;s 11" /\
  occurs Main.single_quote "Ocean&#39;s 11" = false.
Proof.
  split; [reflexivity|].
  exact (proj1 (proj2 (escape_output_has_no_quotes (JStr "Ocean's 11") "Ocean&#39;s 11"
                         eq_refl))).
Defined.

(** X12: [escape] hands a string back as it is exactly when the string
    holds no quote. *)
Theorem escape_keeps_exactly_the_quote_free (s : string) :
  Main.escape (JStr s) = Normal s <->
  occurs Main.double_quote s = false /\ occurs Main.single_quote s = false.
Proof.
  split.
  - intros H. exact (escape_quote_free _ _ H).
  - intros [Hd Hs]. now apply escape_of_quote_free.
Qed.

(** X13: [escape] leaves [&] alone, so it cannot be undone: a double quote
    and the text [&quot;] in its place give the same result. *)
Theorem escape_confuses_quote_and_entity (s t : string) :
  let a := (s ++ String Main.double_quote t)%string in
  let b := (s ++ "&quot;" ++ t)%string in
  a <> b /\ Main.escape (JStr a) = Main.escape (JStr b).
Proof.
  intros a b. split.
  - subst a b. intros H. apply (inj (String.append s)) in H. discriminate.
  - rewrite !escape_string. subst a b.
    rewrite !replace_all_app. reflexivity.
Qed.

(** ** The hero carousel of js/main.js *)

Lemma lookup_map {A B} (f : A -> B) (l : list A) (j : nat) :
  map f l !! j = f <$> (l !! j).
Proof.
  revert j. induction l as [|a l IH]; intros [|j]; simpl; try reflexivity. apply IH.
Qed.

Lemma is_active_remove cl : is_active (Main.class_remove "active" cl) = false.
Proof.
  unfold is_active, Main.class_remove.
  induction cl as [|c cl IH]; simpl; [reflexivity|].
  destruct (String.eqb "active" c) eqn:E; simpl; [exact IH|].
  now rewrite E, IH.
Qed.

Lemma is_active_add cl : is_active (Main.class_add "active" cl) = true.
Proof.
  unfold is_active, Main.class_add.
  destruct (existsb (String.eqb "active") cl) eqn:E; [exact E|].
  rewrite existsb_app, E. reflexivity.
Qed.

(** The index [showHeroSlide] settles on, for [n] slides. *)
Lemma clamped_in_range (i n : Z) :
  0 < n ->
  0 <= (if i >=? n then 0 else if i <? 0 then n - 1 else i) < n.
Proof.
  intros Hn. destruct (Z.geb_spec i n); [lia|]. destruct (Z.ltb_spec i 0); lia.
Qed.

Lemma one_active_after (l : list (list string)) (k j : nat) cl0 cl :
  <[k := Main.class_add "active" cl0]> (map (Main.class_remove "active") l) !! j = Some cl ->
  (k < length l)%nat ->
  is_active cl = bool_decide (j = k).
Proof.
  intros H Hk. destruct (decide (j = k)) as [->|Hne].
  - rewrite list_lookup_insert_eq in H by now rewrite length_map.
    injection H as <-. rewrite is_active_add. symmetry. now apply bool_decide_eq_true.
  - rewrite list_lookup_insert_ne in H by congruence.
    rewrite lookup_map in H. destruct (l !! j); [|discriminate].
    injection H as <-. rewrite is_active_remove. symmetry. now apply bool_decide_eq_false.
Qed.

Lemma showHeroSlide_populated handle (i : Z) (c : Main.Carousel) :
  length (Main.slides c) = length (Main.dots c) ->
  (0 < length (Main.slides c))%nat ->
  (forall id, id ∈ Main.intervals c -> Main.heroInterval c = Some id) ->
  let n := Z.of_nat (length (Main.slides c)) in
  let c' := (Main.showHeroSlide handle i c).2 in
  (Main.showHeroSlide handle i c).1 = Normal tt /\
  carousel_consistent c' /\
  length (Main.slides c') = length (Main.slides c) /\
  Main.currentHeroIndex c' = (if i >=? n then 0 else if i <? 0 then n - 1 else i).
Proof.
  intros Hlen Hpos Htimers n c'. subst c'. unfold Main.showHeroSlide. fold n.
  pose proof (clamped_in_range i n ltac:(lia)) as Hrange.
  set (index := if i >=? n then 0 else if i <? 0 then n - 1 else i) in *.
  assert (Z.to_nat index < length (Main.slides c))%nat as Hk by lia.
  unfold Main.item_at. destruct (Z.ltb_spec index 0) as [|_]; [lia|].
  rewrite !lookup_map.
  destruct (lookup_lt_is_Some_2 _ _ Hk) as [slide ->].
  destruct (lookup_lt_is_Some_2 (Main.dots c) (Z.to_nat index) ltac:(lia)) as [dot ->].
  simpl. split; [reflexivity|]. split; [|split; [|reflexivity]].
  - unfold carousel_consistent. simpl.
    rewrite !length_insert, !length_map.
    split; [exact Hlen|]. split; [exact Hrange|]. split; [|split].
    + intros j cl H. apply one_active_after in H; [|exact Hk].
      rewrite H. apply bool_decide_ext. lia.
    + intros j cl H. apply one_active_after in H; [|lia].
      rewrite H. apply bool_decide_ext. lia.
    + eexists. split; [reflexivity|].
      destruct (Main.heroInterval c) as [id0|] eqn:E.
      * apply set_eq. intros x. rewrite elem_of_union, elem_of_difference, !elem_of_singleton.
        split; [|now left]. intros [->|[Hx Hne]]; [reflexivity|].
        apply Htimers in Hx. congruence.
      * apply set_eq. intros x. rewrite elem_of_union, !elem_of_singleton.
        split; [|now left]. intros [->|Hx]; [reflexivity|].
        apply Htimers in Hx. discriminate.
  - simpl. now rewrite length_insert, length_map.
Qed.

Lemma consistent_populated (c : Main.Carousel) :
  carousel_consistent c ->
  length (Main.slides c) = length (Main.dots c) /\
  (0 < length (Main.slides c))%nat /\
  (forall id, id ∈ Main.intervals c -> Main.heroInterval c = Some id).
Proof.
  intros (Hlen & Hrange & _ & _ & id & Hid & Hset).
  split; [exact Hlen|]. split; [lia|].
  intros x Hx. rewrite Hset in Hx. apply elem_of_singleton in Hx. now subst.
Qed.

Lemma hero_handler_consistent handle ev c :
  carousel_consistent c ->
  (hero_handler handle ev c).1 = Normal tt /\
  carousel_consistent (hero_handler handle ev c).2.
Proof.
  intros (Hlen & Hpos & Ht)%consistent_populated.
  destruct ev as [i| | |]; simpl;
    unfold Main.nextHeroSlide, Main.prevHeroSlide;
    match goal with
    | |- context [Main.showHeroSlide handle ?i c] =>
        destruct (showHeroSlide_populated handle i c Hlen Hpos Ht) as (H1 & H2 & _)
    end; now split.
Qed.

(** X14: Once one slide and its dot are the active ones and one interval is
    pending, this stays so whatever the visitor clicks and however often
    the interval fires, and no handler throws. *)
Theorem carousel_stays_consistent
    (handle : gset nat -> nat) (c : Main.Carousel) (evs : list HeroEvent) (ev : HeroEvent) :
  carousel_consistent c ->
  carousel_consistent (hero_events handle evs c) /\
  (hero_handler handle ev (hero_events handle evs c)).1 = Normal tt.
Proof.
  intros Hc.
  assert (carousel_consistent (hero_events handle evs c)) as H.
  { revert c Hc. induction evs as [|e evs IH]; intros c Hc; simpl; [exact Hc|].
    apply IH. now apply hero_handler_consistent. }
  split; [exact H|]. now apply hero_handler_consistent.
Qed.

Lemma carousel_stays_consistent_witness :
  let c :=
    {| Main.slides := [["hero-slide"; "active"]; ["hero-slide"]; ["hero-slide"]];
       Main.dots := [["carousel-dot"; "active"]; ["carousel-dot"]; ["carousel-dot"]];
       Main.currentHeroIndex := 0; Main.heroInterval := Some 1%nat;
       Main.intervals := {[1%nat]} |} in
  let evs := [NextClick; IntervalFires; IntervalFires; DotClick 1; PrevClick; PrevClick] in
  carousel_consistent (hero_events (fun _ => 1%nat) evs c) /\
  (hero_handler (fun _ => 1%nat) NextClick (hero_events (fun _ => 1%nat) evs c)).1
  = Normal tt.
Proof.
  intros c evs. apply (carousel_stays_consistent (fun _ => 1%nat) c evs NextClick).
  split; [reflexivity|]. split; [simpl; lia|]. split; [|split].
  - intros [|[|[|j]]] cl H; simpl in H; try discriminate; injection H as <-; reflexivity.
  - intros [|[|[|j]]] cl H; simpl in H; try discriminate; injection H as <-; reflexivity.
  - exists 1%nat. split; reflexivity.
Defined.

(** X15: The arrows step through the slides in a circle: next goes from
    slide [cur] to [(cur + 1) mod n], previous to [(cur - 1) mod n], and
    each undoes the other. *)
Theorem hero_arrows_step_in_a_circle (handle : gset nat -> nat) (c : Main.Carousel) :
  carousel_consistent c ->
  let n := Z.of_nat (length (Main.slides c)) in
  let cur := Main.currentHeroIndex c in
  let next := Main.nextHeroSlide handle in
  let prev := Main.prevHeroSlide handle in
  Main.currentHeroIndex (next c).2 = (cur + 1) mod n /\
  Main.currentHeroIndex (prev c).2 = (cur - 1) mod n /\
  Main.currentHeroIndex (prev (next c).2).2 = cur /\
  Main.currentHeroIndex (next (prev c).2).2 = cur.
Proof.
  intros Hc n cur next prev.
  pose proof Hc as (_ & Hrange & _). fold n cur in Hrange.
  pose proof Hc as (Hlen & Hpos & Ht)%consistent_populated.
  subst next prev. unfold Main.nextHeroSlide, Main.prevHeroSlide.
  destruct (showHeroSlide_populated handle (cur + 1) c Hlen Hpos Ht) as (_ & Hc1 & Hn1 & Hi1).
  destruct (showHeroSlide_populated handle (cur - 1) c Hlen Hpos Ht) as (_ & Hc2 & Hn2 & Hi2).
  fold n cur in Hi1, Hi2. fold cur.
  set (c1 := (Main.showHeroSlide handle (cur + 1) c).2) in *.
  set (c2 := (Main.showHeroSlide handle (cur - 1) c).2) in *.
  pose proof Hc1 as (Hlen1 & Hpos1 & Ht1)%consistent_populated.
  pose proof Hc2 as (Hlen2 & Hpos2 & Ht2)%consistent_populated.
  destruct (showHeroSlide_populated handle (Main.currentHeroIndex c1 - 1) c1 Hlen1 Hpos1 Ht1)
    as (_ & _ & _ & Hi3).
  destruct (showHeroSlide_populated handle (Main.currentHeroIndex c2 + 1) c2 Hlen2 Hpos2 Ht2)
    as (_ & _ & _ & Hi4).
  rewrite Hn1 in Hi3. rewrite Hn2 in Hi4. fold n in Hi3, Hi4.
  rewrite Hi3, Hi4, Hi1, Hi2. clear Hi3 Hi4 Hi1 Hi2.
  assert ((cur + 1) mod n = if cur + 1 >=? n then 0 else cur + 1) as ->.
  { destruct (Z.geb_spec (cur + 1) n).
    - replace (cur + 1) with n by lia. apply Z_mod_same_full.
    - apply Z.mod_small. lia. }
  assert ((cur - 1) mod n = if cur - 1 <? 0 then n - 1 else cur - 1) as ->.
  { destruct (Z.ltb_spec (cur - 1) 0).
    - symmetry. apply (Z.mod_unique_pos _ _ (-1)); lia.
    - apply Z.mod_small. lia. }
  repeat split.
  - destruct (Z.geb_spec (cur + 1) n); [reflexivity|].
    destruct (Z.ltb_spec (cur + 1) 0); [lia | reflexivity].
  - destruct (Z.geb_spec (cur - 1) n); [lia|]. reflexivity.
  - destruct (Z.geb_spec (cur + 1) n).
    + destruct (Z.geb_spec (0 - 1) n); [lia|]. simpl. lia.
    + destruct (Z.ltb_spec (cur + 1) 0); [lia|].
      destruct (Z.geb_spec (cur + 1 - 1) n); [lia|].
      destruct (Z.ltb_spec (cur + 1 - 1) 0); lia.
  - destruct (Z.geb_spec (cur - 1) n); [lia|].
    destruct (Z.ltb_spec (cur - 1) 0).
    + destruct (Z.geb_spec (n - 1 + 1) n); lia.
    + destruct (Z.geb_spec (cur - 1 + 1) n); [lia|].
      destruct (Z.ltb_spec (cur - 1 + 1) 0); lia.
Qed.

Lemma hero_arrows_witness :
  let c :=
    {| Main.slides := [["hero-slide"; "active"]; ["hero-slide"]; ["hero-slide"]];
       Main.dots := [["carousel-dot"; "active"]; ["carousel-dot"]; ["carousel-dot"]];
       Main.currentHeroIndex := 0; Main.heroInterval := Some 1%nat;
       Main.intervals := {[1%nat]} |} in
  Main.currentHeroIndex (Main.prevHeroSlide (fun _ => 1%nat) c).2 = 2.
Proof.
  intros c.
  destruct (hero_arrows_step_in_a_circle (fun _ => 1%nat) c) as (_ & H & _).
  - split; [reflexivity|]. split; [simpl; lia|]. split; [|split].
    + intros [|[|[|j]]] cl H; simpl in H; try discriminate; injection H as <-; reflexivity.
    + intros [|[|[|j]]] cl H; simpl in H; try discriminate; injection H as <-; reflexivity.
    + exists 1%nat. split; reflexivity.
  - exact H.
Defined.

(** X16: With no slide on the page every call of [showHeroSlide] throws a
    TypeError and changes neither the index nor the timer: an interval
    that is pending goes on firing, and throws each time. *)
Theorem empty_carousel_throws (handle : gset nat -> nat) (c : Main.Carousel) (i : Z) :
  Main.slides c = [] ->
  let r := Main.showHeroSlide handle i c in
  r.1 = Throw TypeError /\
  Main.currentHeroIndex r.2 = Main.currentHeroIndex c /\
  Main.heroInterval r.2 = Main.heroInterval c /\
  Main.intervals r.2 = Main.intervals c /\
  (Main.nextHeroSlide handle r.2).1 = Throw TypeError.
Proof.
  intros Hs r.
  assert (forall j c0, Main.slides c0 = [] ->
            Main.showHeroSlide handle j c0 =
            (Throw TypeError,
             {| Main.slides := []; Main.dots := map (Main.class_remove "active") (Main.dots c0);
                Main.currentHeroIndex := Main.currentHeroIndex c0;
                Main.heroInterval := Main.heroInterval c0;
                Main.intervals := Main.intervals c0 |})) as Hthrow.
  { intros j c0 H0. unfold Main.showHeroSlide. rewrite H0. simpl.
    unfold Main.item_at. change (Z.of_nat 0) with 0.
    destruct (Z.geb_spec j 0); [reflexivity|].
    destruct (Z.ltb_spec j 0); [reflexivity | lia]. }
  subst r. rewrite (Hthrow i c Hs). simpl. repeat split.
  unfold Main.nextHeroSlide. now rewrite Hthrow.
Qed.

Lemma empty_carousel_witness :
  let c :=
    {| Main.slides := []; Main.dots := []; Main.currentHeroIndex := 0;
       Main.heroInterval := Some 1%nat; Main.intervals := {[1%nat]} |} in
  (Main.showHeroSlide (fun _ => 1%nat) 1 c).1 = Throw TypeError.
Proof.
  intros c. exact (proj1 (empty_carousel_throws (fun _ => 1%nat) c 1 eq_refl)).
Defined.

(** ** The episode memory of the Aurora TV page *)

Lemma Tv_watchBtn_click_run showId ls :
  Tv.watchBtn_click showId ls =
  (match JSON_parse (or_empty_object (ls !! Tv.getLastWatchedKey showId "1")) with
   | Normal last =>
       match get last "episode" with
       | Normal episode => Normal (if truthy episode then episode else VJson (JNum 1))
       | Throw x => Throw x
       end
   | Throw x => Throw x
   end, ls).
Proof.
  unfold Tv.watchBtn_click. js_unfold.
  destruct (JSON_parse _) as [last|]; [|reflexivity].
  destruct (get last "episode"); reflexivity.
Qed.

Lemma Tv_last_watched_run showId season n ls :
  Tv.last_watched showId season n ls =
  (match JSON_parse (or_empty_object (ls !! Tv.getLastWatchedKey showId season)) with
   | Normal last =>
       match get last "episode" with
       | Normal episode => Normal (strict_eq episode n)
       | Throw x => Throw x
       end
   | Throw x => Throw x
   end, ls).
Proof.
  unfold Tv.last_watched. js_unfold.
  destruct (JSON_parse _) as [last|]; [|reflexivity].
  destruct (get last "episode"); reflexivity.
Qed.

(** X18: The Watch button resumes the episode of season 1 that was opened
    last, unless its number is falsy (the episode 0, or none in the
    record), when it opens episode 1; and a season that is loaded again
    outlines the cards of the episode opened last in it. *)
Theorem watch_resumes_last_episode
    (ls : Storage) (showId : string) (props : list (string * JsVal)) :
  let episode := assoc "episode" props in
  (Tv.watchBtn_click showId (Tv.episode_click showId "1" (JObj props) ls).2).1
  = Normal (if truthy episode then episode else VJson (JNum 1)) /\
  forall (season : string) (n : Value),
    (Tv.last_watched showId season n
       (Tv.episode_click showId season (JObj props) ls).2).1
    = Normal (strict_eq episode n).
Proof.
  intros episode. split; [|intros season n];
    rewrite ?Tv_watchBtn_click_run, ?Tv_last_watched_run;
    unfold Tv.episode_click, setItem, JSON_stringify; simpl;
    rewrite lookup_insert_eq; reflexivity.
Qed.

(** The key of a show and a season tells both, for show ids that hold
    no underscore, as numbers do. *)
Lemma getLastWatchedKey_inj a s b t :
  Tv.getLastWatchedKey a s = Tv.getLastWatchedKey b t ->
  occurs "_" a = false -> occurs "_" b = false ->
  a = b /\ s = t.
Proof.
  unfold Tv.getLastWatchedKey. intros H%(inj (String.append _)).
  revert b H. induction a as [|c a IH]; intros [|d b] H Ha Hb;
    rewrite ?append_cons, ?append_nil_l in H.
  - injection H as ->. now split.
  - injection H as <- _. simpl in Hb. discriminate.
  - injection H as -> _. simpl in Ha. discriminate.
  - injection H as <- H.
    simpl in Ha, Hb. apply orb_false_iff in Ha as [_ Ha]. apply orb_false_iff in Hb as [_ Hb].
    destruct (IH b H Ha Hb) as [-> ->]. now split.
Qed.

(** X19: Each show and season has an episode memory of its own: opening an
    episode of another show or season changes neither what the Watch
    button of a show resumes nor which cards of a season are outlined. *)
Theorem episode_memory_is_per_show_and_season
    (ls : Storage) (showId season showId' season' : string) (last : JsVal) :
  occurs "_" showId = false ->
  occurs "_" showId' = false ->
  (showId', season') <> (showId, season) ->
  let ls' := (Tv.episode_click showId' season' last ls).2 in
  (forall n, (Tv.last_watched showId season n ls').1 = (Tv.last_watched showId season n ls).1) /\
  (season = "1" -> (Tv.watchBtn_click showId ls').1 = (Tv.watchBtn_click showId ls).1).
Proof.
  intros Ha Hb Hne ls'.
  assert (ls' !! Tv.getLastWatchedKey showId season = ls !! Tv.getLastWatchedKey showId season)
    as Hsame.
  { subst ls'. unfold Tv.episode_click, setItem. simpl.
    apply lookup_insert_ne. intros H.
    apply getLastWatchedKey_inj in H as [-> ->]; [|assumption..]. now apply Hne. }
  split.
  - intros n. rewrite !Tv_last_watched_run. simpl. now rewrite Hsame.
  - intros ->. rewrite !Tv_watchBtn_click_run. simpl. now rewrite Hsame.
Qed.

Lemma episode_memory_witness :
  let ls := (Tv.episode_click "1399" "1" (JObj [("episode", JNum 3); ("name", JStr "Lord Snow")]) ∅).2 in
  let ls' := (Tv.episode_click "1399" "2" (JObj [("episode", JNum 7); ("name", JStr "A Man")]) ls).2 in
  (Tv.watchBtn_click "1399" ls').1 = Normal (VJson (JNum 3)).
Proof.
  intros ls ls'.
  destruct (episode_memory_is_per_show_and_season ls "1399" "1" "1399" "2"
              (JObj [("episode", JNum 7); ("name", JStr "A Man")]))
    as [_ H]; [reflexivity | reflexivity | discriminate |].
  fold ls' in H. rewrite (H eq_refl). reflexivity.
Defined.

(** ** The cards of the Aurora index page *)

(** X20: The badge of a card and the page the card opens go by different
    rules: they disagree, the badge saying Movie on a card that opens
    tv.html, exactly for an item with a title whose [media_type] is set
    and is not ['movie']; a card with the badge TV always opens
    tv.html. *)
Theorem Index_badge_and_page (props : list (string * JsVal)) :
  let item := VJson (JObj props) in
  let media_type := assoc "media_type" props in
  let title := assoc "title" props in
  exists badge page,
    Index.type_textContent item = Normal badge /\
    Index.card_click_page item = Normal page /\
    (badge = "Movie" \/ badge = "TV") /\
    (page = "movie.html" \/ page = "tv.html") /\
    (badge = "TV" -> page = "tv.html") /\
    ((badge = "Movie" /\ page = "tv.html") <->
     (truthy media_type = true /\
      strict_eq media_type (VJson (JStr "movie")) = false /\
      truthy title = true)).
Proof.
  intros item media_type title.
  unfold Index.type_textContent, Index.card_click_page, Index.media_type_or_guess.
  unfold item, get. simpl. fold media_type title.
  destruct (strict_eq media_type (JStr "movie")) eqn:Em.
  - assert (truthy media_type = true) as Ht.
    { destruct media_type as [| |?|[]]; try discriminate. simpl in Em.
      apply String.eqb_eq in Em as ->. reflexivity. }
    rewrite Ht. simpl. rewrite Em.
    exists "Movie", "movie.html".
    do 2 (split; [reflexivity|]). intuition (try discriminate; auto).
  - destruct (truthy media_type) eqn:Ht; simpl.
    + rewrite Em. destruct (truthy title) eqn:Et.
      * exists "Movie", "tv.html".
        do 2 (split; [reflexivity|]). intuition (try discriminate; auto).
      * exists "TV", "tv.html".
        do 2 (split; [reflexivity|]). intuition (try discriminate; auto).
    + destruct (truthy title) eqn:Et; simpl.
      * exists "Movie", "movie.html".
        do 2 (split; [reflexivity|]). intuition (try discriminate; auto).
      * exists "TV", "tv.html".
        do 2 (split; [reflexivity|]). intuition (try discriminate; auto).
Qed.

(** ** The hero carousel at page load *)




Lemma Forall_List_filter {A} (P : A -> Prop) (f : A -> bool) (l : list A) :
  Forall P l -> Forall P (List.filter f l).
Proof.
  induction 1 as [|x l Hx Hl IH]; simpl; [constructor|].
  destruct (f x); [constructor; assumption | assumption].
Qed.





Lemma escape_keeps_witness : Main.escape (JStr "Dune") = Normal "Dune".
Proof.
  apply (proj2 (escape_keeps_exactly_the_quote_free "Dune")). split; reflexivity.
Defined.

Lemma Index_badge_and_page_witness :
  let item :=
    VJson (JObj [("id", JNum 1399); ("media_type", JStr "tv"); ("title", JStr "Game of Thrones")]) in
  Index.type_textContent item = Normal "Movie" /\
  Index.card_click_page item = Normal "tv.html".
Proof.
  intros item.
  destruct (Index_badge_and_page
              [("id", JNum 1399); ("media_type", JStr "tv"); ("title", JStr "Game of Thrones")])
    as (badge & page & Hb & Hp & _ & _ & _ & Hiff).
  destruct (proj2 Hiff) as [-> ->]; [repeat split|].
  split; [exact Hb | exact Hp].
Defined.

(** ** The season selector of js/tv.js *)

Section SeasonSelector.

Variable ToNumber : JsVal -> option Q.
Variable ToString : Value -> string.

Lemma add_pills_run (seasons : list JsVal) : forall (flag : bool) (pre : list MainTv.Pill),
  Forall (fun s => s <> JNull) seasons ->
  MainTv.add_pills ToNumber ToString flag seasons (Some pre) =
  (Normal (flag || bool_decide (is_Some (first_real_season ToNumber seasons))),
   Some (pre ++ new_pills ToNumber ToString flag seasons)).
Proof.
  induction seasons as [|s seasons IH]; intros flag pre Hnn.
  - simpl. rewrite app_nil_r, orb_false_r. reflexivity.
  - apply Forall_cons in Hnn as [Hs Hnn].
    simpl. unfold mbind at 1. unfold js_bind, pure. rewrite (get_field s _ Hs).
    unfold mbind at 1. unfold js_bind. rewrite (get_field s _ Hs).
    unfold mbind at 1. unfold js_bind, MainTv.appendChild.
    rewrite (IH _ _ Hnn). rewrite <- app_assoc. simpl.
    destruct (MainTv.greater_than_zero ToNumber (field s "season_number")) eqn:E.
    + destruct flag; simpl; rewrite ?orb_true_r; reflexivity.
    + rewrite andb_false_r, orb_false_r. simpl.
      destruct (first_real_season ToNumber seasons); reflexivity.
Qed.

Lemma new_pills_inactive (seasons : list JsVal) (i : nat) (p : MainTv.Pill) :
  new_pills ToNumber ToString true seasons !! i = Some p ->
  is_active (MainTv.classList p) = false.
Proof.
  revert i. induction seasons as [|s seasons IH]; intros [|i] H; simpl in H;
    try discriminate.
  - now injection H as <-.
  - exact (IH i H).
Qed.

Lemma new_pills_active (seasons : list JsVal) : forall (i : nat) (p : MainTv.Pill),
  new_pills ToNumber ToString false seasons !! i = Some p ->
  is_active (MainTv.classList p) = bool_decide (first_real_season ToNumber seasons = Some i).
Proof.
  induction seasons as [|s seasons IH]; intros i p H; [discriminate|].
  simpl in H. simpl first_real_season.
  destruct (MainTv.greater_than_zero ToNumber (field s "season_number")) eqn:E.
  - destruct i as [|i]; simpl in H.
    + now injection H as <-.
    + rewrite (new_pills_inactive _ _ _ H). symmetry. now apply bool_decide_eq_false.
  - destruct i as [|i]; simpl in H.
    + injection H as <-. simpl. symmetry. apply bool_decide_eq_false.
      now destruct (first_real_season ToNumber seasons).
    + rewrite (IH i p H). apply bool_decide_ext.
      destruct (first_real_season ToNumber seasons); simpl; split; congruence.
Qed.

Lemma new_pills_season (seasons : list JsVal) : forall (flag : bool) (i : nat),
  MainTv.dataset_season <$> new_pills ToNumber ToString flag seasons !! i
  = (fun s => ToString (field s "season_number")) <$> seasons !! i.
Proof.
  induction seasons as [|s seasons IH]; intros flag [|i]; simpl; try reflexivity.
  apply IH.
Qed.

Lemma new_pills_length (seasons : list JsVal) : forall flag,
  length (new_pills ToNumber ToString flag seasons) = length seasons.
Proof. induction seasons as [|s seasons IH]; intros flag; simpl; [|rewrite IH]; reflexivity. Qed.

Lemma find_real_season_run (seasons : list JsVal) :
  Forall (fun s => s <> JNull) seasons ->
  MainTv.find_real_season ToNumber seasons =
  Normal (match first_real_season ToNumber seasons ≫= (seasons !!.) with
          | Some s => VJson s
          | None => VUndefined
          end) /\
  (forall i s, first_real_season ToNumber seasons = Some i -> seasons !! i = Some s ->
               truthy (VJson s) = true).
Proof.
  induction 1 as [|s seasons Hs Hnn [IH1 IH2]]; [split; [reflexivity | discriminate]|].
  simpl. rewrite (get_field s _ Hs). simpl.
  destruct (MainTv.greater_than_zero ToNumber (field s "season_number")) eqn:E.
  - split; [reflexivity|]. intros i s' Hi Hs'. injection Hi as <-. injection Hs' as <-.
    destruct s; try discriminate; reflexivity.
  - rewrite IH1. split.
    + destruct (first_real_season ToNumber seasons); reflexivity.
    + intros i s' Hi Hs'.
      destruct (first_real_season ToNumber seasons) as [k|] eqn:Ek; [|discriminate].
      injection Hi as <-. exact (IH2 k s' eq_refl Hs').
Qed.

(** X21: For a list of seasons none of which is [null], the pill that is
    active when the selector is built is the pill of the season whose
    episodes [initTvPage] loads first: the selector has one pill for
    each season, in order, whose [data-season] is the string that
    [season_number] converts to; exactly the pill at the index of the
    opening season is active, and [firstSeason] is the season at that
    index, [undefined] when there is no season. *)
Theorem active_pill_is_the_season_loaded
    (seasons : list JsVal) (old : list MainTv.Pill) :
  Forall (fun s => s <> JNull) seasons ->
  let k := opening_season ToNumber seasons in
  exists pills,
    MainTv.populateSeasonSelector ToNumber ToString seasons (Some old) = (Normal tt, Some pills) /\
    length pills = length seasons /\
    (forall i, MainTv.dataset_season <$> pills !! i
               = (fun s => ToString (field s "season_number")) <$> seasons !! i) /\
    (forall i p, pills !! i = Some p ->
                 is_active (MainTv.classList p) = bool_decide (k = Some i)) /\
    MainTv.firstSeason ToNumber seasons =
    Normal (match k ≫= (seasons !!.) with
            | Some s => VJson s
            | None => VUndefined
            end).
Proof.
  intros Hnn k. subst k. unfold opening_season.
  destruct (find_real_season_run seasons Hnn) as [Hfind Htruthy].
  unfold MainTv.populateSeasonSelector, MainTv.firstSeason.
  unfold mbind at 1. unfold js_bind. rewrite (add_pills_run seasons false [] Hnn).
  rewrite Hfind. simpl.
  destruct (first_real_season ToNumber seasons) as [i0|] eqn:E; simpl.
  - (* a season with a number above zero *)
    assert (exists s0, seasons !! i0 = Some s0) as [s0 Hs0].
    { clear -E. revert i0 E. induction seasons as [|s l IH]; intros i0 E; [discriminate|].
      simpl in E. destruct (MainTv.greater_than_zero _ _).
      - injection E as <-. now exists s.
      - destruct (first_real_season ToNumber l) as [j|]; [|discriminate].
        injection E as <-. exact (IH j eq_refl). }
    rewrite Hs0. rewrite (Htruthy i0 s0 eq_refl Hs0).
    exists (new_pills ToNumber ToString false seasons).
    split; [unfold MainTv.only_specials; now destruct (new_pills _ _ _)|].
    split; [apply new_pills_length|]. split; [apply new_pills_season|].
    split; [|reflexivity].
    intros i p H. rewrite (new_pills_active seasons i p H), E. reflexivity.
  - (* specials only, or no season at all *)
    destruct seasons as [|s seasons]; simpl.
    + exists []. repeat split; try reflexivity. intros i p H. discriminate.
    + simpl in E.
      destruct (MainTv.greater_than_zero ToNumber (field s "season_number")) eqn:Es;
        [discriminate|].
      destruct (first_real_season ToNumber seasons) eqn:E'; [discriminate|].
      simpl. eexists. split; [reflexivity|]. simpl.
      split; [now rewrite new_pills_length|].
      split; [intros [|i]; simpl; [reflexivity | apply new_pills_season]|].
      split; [|reflexivity].
      intros [|i] p H; simpl in H.
      * now injection H as <-.
      * rewrite (new_pills_active seasons i p H), E'.
        rewrite bool_decide_eq_false_2 by discriminate.
        symmetry. now apply bool_decide_eq_false.
Qed.

End SeasonSelector.

(** Specials, then two seasons: the pill of season 1 is the active one,
    season 1 is loaded first, and the pills carry the numbers as the
    strings ['0'], ['1'] and ['2']. *)
Lemma active_pill_witness :
  let specials := JObj [("season_number", JNum 0); ("name", JStr "Specials")] in
  let one := JObj [("season_number", JNum 1); ("name", JStr "Season 1")] in
  let two := JObj [("season_number", JNum 2); ("name", JStr "Season 2")] in
  let to_string (v : Value) : string :=
    match v with
    | VJson (JNum q) => pretty (Qnum q)
    | _ => "undefined"
    end in
  MainTv.firstSeason (fun _ => None) [specials; one; two] = Normal (VJson one) /\
  exists pills,
    MainTv.populateSeasonSelector (fun _ => None) to_string
      [specials; one; two] (Some [])
    = (Normal tt, Some pills) /\
    map (fun p => is_active (MainTv.classList p)) pills = [false; true; false] /\
    map MainTv.dataset_season pills = ["0"; "1"; "2"].
Proof.
  intros specials one two to_string.
  destruct (active_pill_is_the_season_loaded (fun _ => None) to_string
              [specials; one; two] [])
    as (pills & Hp & Hlen & Hseason & Hact & Hfirst).
  - repeat constructor; discriminate.
  - split; [exact Hfirst|]. exists pills. split; [exact Hp|].
    destruct pills as [|a [|b [|c [|d pills]]]]; try discriminate.
    pose proof (Hseason 0%nat) as H0. pose proof (Hseason 1%nat) as H1.
    pose proof (Hseason 2%nat) as H2.
    injection H0 as H0. injection H1 as H1. injection H2 as H2.
    simpl. rewrite (Hact 0%nat a eq_refl), (Hact 1%nat b eq_refl), (Hact 2%nat c eq_refl).
    rewrite H0, H1, H2. split; reflexivity.
Defined.

(** X22: After a click on a pill of the selector exactly that pill is
    active, however many were active before, and every pill keeps its
    season. *)
Theorem pill_click_leaves_one_active
    (children : list MainTv.Pill) (i : nat) (p : MainTv.Pill) :
  children !! i = Some p ->
  Forall (fun q => existsb (String.eqb "season-pill") (MainTv.classList q) = true) children ->
  exists children',
    MainTv.pill_click i (Some children) = (Normal tt, Some children') /\
    length children' = length children /\
    (forall j q, children' !! j = Some q ->
                 is_active (MainTv.classList q) = bool_decide (j = i)) /\
    (forall j, MainTv.dataset_season <$> children' !! j
               = MainTv.dataset_season <$> children !! j).
Proof.
  intros Hp Hall. unfold MainTv.pill_click.
  set (clear := fun btn : MainTv.Pill => _).
  assert (forall q, existsb (String.eqb "season-pill") (MainTv.classList q) = true ->
                    is_active (MainTv.classList (clear q)) = false /\
                    MainTv.dataset_season (clear q) = MainTv.dataset_season q) as Hclear.
  { intros q Hq. subst clear. simpl. rewrite Hq. simpl.
    destruct (existsb (String.eqb "active") (MainTv.classList q)) eqn:E; simpl.
    - split; [apply is_active_remove | reflexivity].
    - split; [exact E | reflexivity]. }
  rewrite lookup_map, Hp. simpl. eexists. split; [reflexivity|].
  split; [now rewrite length_insert, length_map|].
  pose proof (lookup_lt_Some _ _ _ Hp) as Hlt.
  split.
  - intros j q H. destruct (decide (j = i)) as [->|Hne].
    + rewrite list_lookup_insert_eq in H by now rewrite length_map.
      injection H as <-. simpl. rewrite is_active_add.
      symmetry. now apply bool_decide_eq_true.
    + rewrite list_lookup_insert_ne in H by congruence.
      rewrite lookup_map in H. destruct (children !! j) as [q0|] eqn:E; [|discriminate].
      injection H as <-.
      rewrite Forall_lookup in Hall.
      rewrite (proj1 (Hclear q0 (Hall j q0 E))).
      symmetry. now apply bool_decide_eq_false.
  - intros j. destruct (decide (j = i)) as [->|Hne].
    + rewrite list_lookup_insert_eq by now rewrite length_map.
      rewrite Hp. simpl. f_equal. apply Hclear.
      rewrite Forall_lookup in Hall. exact (Hall i p Hp).
    + rewrite list_lookup_insert_ne by congruence.
      rewrite lookup_map. destruct (children !! j) as [q0|] eqn:E; [|reflexivity].
      simpl. f_equal. apply Hclear.
      rewrite Forall_lookup in Hall. exact (Hall j q0 E).
Qed.

Lemma pill_click_witness :
  let pill (active : bool) (n : string) :=
    {| MainTv.classList := if active then ["season-pill"; "active"] else ["season-pill"];
       MainTv.dataset_season := n |} in
  exists children',
    MainTv.pill_click 2 (Some [pill true "1"; pill true "2"; pill false "3"])
    = (Normal tt, Some children') /\
    map (fun q => is_active (MainTv.classList q)) children' = [false; false; true].
Proof.
  intros pill.
  destruct (pill_click_leaves_one_active [pill true "1"; pill true "2"; pill false "3"]
              2 (pill false "3") eq_refl)
    as (children' & Hrun & Hlen & Hact & _).
  - repeat constructor.
  - exists children'. split; [exact Hrun|].
    destruct children' as [|a [|b [|c [|d l]]]]; try discriminate.
    simpl. rewrite (Hact 0%nat a eq_refl), (Hact 1%nat b eq_refl), (Hact 2%nat c eq_refl).
    reflexivity.
Defined.

(** ** The list of watch-later.js as it is drawn *)

Section RenderList.

Variable Number_toString : Q -> string.
Variable ToString : Value -> string.
Variable String_length : string -> nat.

Let createCard := WatchLater.createCard Number_toString.
Let renderList := WatchLater.renderList Number_toString ToString String_length.

Lemma strict_eq_count (n m : nat) :
  strict_eq (VJson (JNum (inject_Z (Z.of_nat n)))) (VJson (JNum (inject_Z (Z.of_nat m))))
  = Nat.eqb n m.
Proof.
  simpl. destruct (Nat.eqb_spec n m) as [->|Hne].
  - apply Qeq_bool_refl.
  - destruct (Qeq_bool _ _) eqn:E; [|reflexivity].
    apply Qeq_bool_eq in E. unfold Qeq in E. simpl in E. lia.
Qed.

Lemma kind_filter_decided (filterType : Value) (l : list JsVal) :
  Forall (fun r => r <> JNull) l ->
  array_filter (fun i => media_type ← get (VJson i) "media_type";
                         Normal (strict_eq media_type filterType)) l
  = Normal (List.filter (fun i => strict_eq (field i "media_type") filterType) l).
Proof.
  induction 1 as [|r l Hr Hl IH]; simpl; [reflexivity|].
  rewrite (get_field r _ Hr), IH. simpl.
  destruct (strict_eq _ _); reflexivity.
Qed.

Lemma createCard_not_null item c : createCard item = Normal c -> item <> JNull.
Proof. intros H ->. discriminate. Qed.

Lemma create_cards_run (l : list JsVal) :
  Forall (fun item => exists c, createCard item = Normal c) l ->
  exists cards,
    WatchLater.create_cards Number_toString l = Normal cards /\
    map WatchLater.card_item cards = l /\
    Forall (fun c => createCard (WatchLater.card_item c) = Normal c) cards.
Proof.
  induction 1 as [|item l [c Hc] Hl (cards & Hcards & Hitems & Hall)].
  - exists []. repeat split; constructor.
  - exists (c :: cards). simpl. fold createCard. rewrite Hc, Hcards. simpl.
    assert (WatchLater.card_item c = item) as Hitem.
    { clear -Hc. unfold createCard, WatchLater.createCard in Hc.
      repeat match type of Hc with
             | context [mbind _ ?m] =>
                 let E := fresh "E" in
                 destruct m eqn:E; simpl in Hc; try discriminate
             end.
      now injection Hc as <-. }
    split; [reflexivity|]. split; [now rewrite Hitem, Hitems|].
    constructor; [now rewrite Hitem | exact Hall].
Qed.

(** X23: What the page shows of a stored list whose records can all be
    drawn: the line above the list counts every stored item, whatever
    the filter, with ["item"] for one and ["items"] otherwise; the grid
    holds a card for each item the filter accepts, in the stored order,
    and gives way to the message that the list is empty when the filter
    accepts none.  The storage is left alone. *)
Theorem renderList_counts_all_and_shows_filtered
    (pg : WatchLater.Page) (l : list JsVal) (filterType : Value) :
  (WatchLater.getWatchLater (WatchLater.localStorage pg)).1 = Normal (JArr l) ->
  Forall (fun item => exists c, createCard item = Normal c) l ->
  let shown :=
    if strict_eq filterType (VJson (JStr "all")) then l
    else List.filter (fun i => strict_eq (field i "media_type") filterType) l in
  let pg' := (renderList filterType pg).2 in
  (renderList filterType pg).1 = Normal tt /\
  WatchLater.localStorage pg' = WatchLater.localStorage pg /\
  WatchLater.subtext pg' =
    (ToString (VJson (JNum (inject_Z (Z.of_nat (length l))))) ++ " item"
     ++ (if Nat.eqb (length l) 1 then "" else "s") ++ " saved")%string /\
  match WatchLater.itemsList pg' with
  | WatchLater.EmptyMessage => shown = []
  | WatchLater.Grid cards =>
      shown <> [] /\ map WatchLater.card_item cards = shown /\
      Forall (fun c => createCard (WatchLater.card_item c) = Normal c) cards
  | WatchLater.Blank => False
  end.
Proof.
  intros Hl Hall shown pg'.
  assert (Forall (fun r => r <> JNull) l) as Hnn.
  { eapply Forall_impl; [exact Hall|]. intros x [c Hc]. exact (createCard_not_null _ _ Hc). }
  assert (Forall (fun item => exists c, createCard item = Normal c) shown) as Hshown.
  { subst shown. destruct (strict_eq filterType _); [exact Hall|].
    now apply Forall_List_filter. }
  destruct (create_cards_run shown Hshown) as (cards & Hcards & Hitems & Hcs).
  rewrite WatchLater_getWatchLater_run in Hl. simpl in Hl. injection Hl as Hl.
  assert (renderList filterType pg =
          (Normal tt,
           {| WatchLater.localStorage := WatchLater.localStorage pg;
              WatchLater.subtext :=
                (ToString (VJson (JNum (inject_Z (Z.of_nat (length l))))) ++ " item"
                 ++ (if Nat.eqb (length l) 1 then "" else "s") ++ " saved")%string;
              WatchLater.itemsList :=
                if shown is [] then WatchLater.EmptyMessage else WatchLater.Grid cards |}))
    as Hrun.
  { subst renderList. unfold WatchLater.renderList.
    unfold mbind at 1. unfold js_bind, WatchLater.with_storage.
    rewrite WatchLater_getWatchLater_run, Hl.
    unfold mbind at 1. unfold js_bind, pure.
    assert ((if strict_eq filterType (VJson (JStr "all")) then Normal (JArr l)
             else
               l0 ← as_array (JArr l);
               r ← array_filter
                     (fun i => media_type ← get (VJson i) "media_type";
                               Normal (strict_eq media_type filterType)) l0;
               Normal (JArr r)) = Normal (JArr shown)) as ->.
    { subst shown. destruct (strict_eq filterType _); [reflexivity|].
      simpl. now rewrite (kind_filter_decided filterType l Hnn). }
    unfold mbind at 1. unfold js_bind. simpl WatchLater.length_of. cbv iota.
    unfold mbind at 1. unfold js_bind, WatchLater.set_subtext.
    unfold mbind at 1. unfold js_bind, WatchLater.set_itemsList.
    unfold mbind at 1. unfold js_bind.
    change (VJson (JNum 1)) with (VJson (JNum (inject_Z (Z.of_nat 1)))).
    change (VJson (JNum 0)) with (VJson (JNum (inject_Z (Z.of_nat 0)))).
    rewrite !strict_eq_count.
    destruct shown as [|x shown'] eqn:Es.
    - simpl. now destruct (length l =? 1)%nat.
    - unfold mbind, js_bind.
      change (Nat.eqb (length (x :: shown')) 0) with false. cbv beta iota.
      simpl as_array. cbv beta iota. rewrite Hcards. simpl.
      now destruct (length l =? 1)%nat. }
  subst pg'. rewrite Hrun. simpl.
  split; [reflexivity|]. split; [reflexivity|]. split; [reflexivity|].
  destruct shown as [|x shown']; [reflexivity|].
  split; [discriminate|]. split; [exact Hitems | exact Hcs].
Qed.

(** X24: One stored record that cannot be drawn (a [null], or a rating that
    is a string) blanks the unfiltered list: [renderList('all')] throws
    a TypeError with the container left empty, under a line that still
    counts every item. *)
Theorem renderList_blank_on_bad_record
    (pg : WatchLater.Page) (pre post : list JsVal) (bad : JsVal) :
  (WatchLater.getWatchLater (WatchLater.localStorage pg)).1
  = Normal (JArr (pre ++ bad :: post)) ->
  Forall (fun item => exists c, createCard item = Normal c) pre ->
  createCard bad = Throw TypeError ->
  let n := length (pre ++ bad :: post) in
  renderList (VJson (JStr "all")) pg =
  (Throw TypeError,
   {| WatchLater.localStorage := WatchLater.localStorage pg;
      WatchLater.subtext :=
        (ToString (VJson (JNum (inject_Z (Z.of_nat n)))) ++ " item"
         ++ (if Nat.eqb n 1 then "" else "s") ++ " saved")%string;
      WatchLater.itemsList := WatchLater.Blank |}).
Proof.
  intros Hl Hpre Hbad n.
  destruct (create_cards_run pre Hpre) as (cards & Hcards & _ & _).
  assert (WatchLater.create_cards Number_toString (pre ++ bad :: post) = Throw TypeError)
    as Hthrow.
  { clear -Hpre Hbad. induction Hpre as [|item pre [c Hc] Hpre IH]; simpl.
    - fold createCard. now rewrite Hbad.
    - fold createCard. rewrite Hc. simpl. now rewrite IH. }
  rewrite WatchLater_getWatchLater_run in Hl. simpl in Hl. injection Hl as Hl.
  subst renderList. unfold WatchLater.renderList.
  unfold mbind at 1. unfold js_bind, WatchLater.with_storage.
  rewrite WatchLater_getWatchLater_run, Hl.
  unfold mbind at 1. unfold js_bind, pure.
  change (strict_eq (VJson (JStr "all")) (VJson (JStr "all"))) with true. cbv iota.
  unfold mbind at 1. unfold js_bind. simpl WatchLater.length_of. cbv iota.
  unfold mbind at 1. unfold js_bind, WatchLater.set_subtext.
  unfold mbind at 1. unfold js_bind, WatchLater.set_itemsList.
  unfold mbind at 1. unfold js_bind.
  change (VJson (JNum 1)) with (VJson (JNum (inject_Z (Z.of_nat 1)))).
  change (VJson (JNum 0)) with (VJson (JNum (inject_Z (Z.of_nat 0)))).
  rewrite !strict_eq_count. fold n.
  assert (Nat.eqb n 0 = false) as ->.
  { subst n. rewrite length_app. simpl. apply Nat.eqb_neq. lia. }
  unfold mbind, js_bind. cbv beta iota.
  simpl as_array. cbv beta iota. rewrite Hthrow. simpl.
  now destruct (n =? 1)%nat.
Qed.

End RenderList.

Lemma renderList_witness :
  let movie := JObj [("id", JNum 27205); ("media_type", JStr "movie");
                     ("title", JStr "Inception"); ("vote_average", JNum (84 # 10))] in
  let show := JObj [("id", JNum 1399); ("media_type", JStr "tv");
                    ("title", JStr "Game of Thrones")] in
  let pg :=
    {| WatchLater.localStorage := {["watchLaterItems" := Encoded (JArr [movie; show])]};
       WatchLater.subtext := EmptyString; WatchLater.itemsList := WatchLater.Blank |} in
  let render :=
    WatchLater.renderList (fun _ => EmptyString) (fun _ => "2") (fun _ => 0%nat) in
  WatchLater.subtext (render (VJson (JStr "all")) pg).2 = "2 items saved" /\
  WatchLater.subtext (render (VJson (JStr "person")) pg).2 = "2 items saved" /\
  WatchLater.itemsList (render (VJson (JStr "person")) pg).2 = WatchLater.EmptyMessage.
Proof.
  intros movie show pg render.
  assert (Forall (fun item => exists c,
                    WatchLater.createCard (fun _ => EmptyString) item = Normal c)
            [movie; show]) as Hall.
  { repeat constructor; eexists; vm_compute; reflexivity. }
  destruct (renderList_counts_all_and_shows_filtered
              (fun _ => EmptyString) (fun _ => "2") (fun _ => 0%nat)
              pg [movie; show] (VJson (JStr "all")) eq_refl Hall) as (_ & _ & Hall_count & _).
  destruct (renderList_counts_all_and_shows_filtered
              (fun _ => EmptyString) (fun _ => "2") (fun _ => 0%nat)
              pg [movie; show] (VJson (JStr "person")) eq_refl Hall)
    as (_ & _ & Hcount & Hshown).
  split; [exact Hall_count|]. split; [exact Hcount|].
  fold render in Hshown.
  destruct (WatchLater.itemsList (render (VJson (JStr "person")) pg).2) as [| |cards].
  - destruct Hshown.
  - reflexivity.
  - destruct Hshown as [Hne _]. now contradiction Hne.
Defined.

Lemma renderList_blank_witness :
  let movie := JObj [("id", JNum 27205); ("media_type", JStr "movie");
                     ("title", JStr "Inception"); ("vote_average", JNum (84 # 10))] in
  let odd := JObj [("id", JNum 1399); ("media_type", JStr "tv");
                   ("vote_average", JStr "8.4")] in
  let pg :=
    {| WatchLater.localStorage := {["watchLaterItems" := Encoded (JArr [movie; odd; movie])]};
       WatchLater.subtext := EmptyString; WatchLater.itemsList := WatchLater.EmptyMessage |} in
  let r := WatchLater.renderList (fun _ => EmptyString) (fun _ => "3") (fun _ => 0%nat)
             (VJson (JStr "all")) pg in
  r.1 = Throw TypeError /\
  WatchLater.subtext r.2 = "3 items saved" /\
  WatchLater.itemsList r.2 = WatchLater.Blank.
Proof.
  intros movie odd pg r. subst r.
  rewrite (renderList_blank_on_bad_record
             (fun _ => EmptyString) (fun _ => "3") (fun _ => 0%nat)
             pg [movie] [movie] odd eq_refl).
  - repeat split.
  - repeat constructor. eexists. vm_compute. reflexivity.
  - reflexivity.
Defined.
